(** * doclistbuilder: options ladder, scoped assembler and LaTeX document parts

    A shallow embedding of [opsladder.py], [assemblable.py] and [llatex.py].

    Python objects that are shared and mutated live in an explicit [state]:
    the class-level [_defaults] dictionaries, the [AssembleList] objects and
    the scope objects.  Methods are computations in a state-and-exception
    monad [M]; a raised exception keeps the mutations made before it. *)

From Stdlib Require Import Ascii String ZArith Bool.
From stdpp Require Import base strings gmap fin_maps list pretty.

Open Scope Z_scope.

(* ================================================================== *)
(** * Part I: the model                                                 *)
(* ================================================================== *)

(** ** Strings *)

(** The line feed written [\n] in the Python sources. *)
Definition NL : string := String "010"%char EmptyString.

(** [sep.join(items)] *)
Definition str_join (sep : string) (items : list string) : string :=
  String.concat sep items.

(** ** Values stored in option dictionaries *)

(** Object identities: positions in the heaps of [state]. *)
Abbreviation iid := nat (only parsing).  (* scope objects *)
Abbreviation lid := nat (only parsing).  (* AssembleList objects *)

(** The two list classes of the library. *)
Inductive list_type := AssembleList | LatexList.

(** A pipeline stage, [Callable[[list[str]], list[str]]]: a caller's pure
    function, or one of the bound methods [self.p_join], [self.p_wrap] of
    the scope object [self].  A function of the caller is taken by the items
    it returns for the items it is given, and what it returns counts as a
    new list: a callable that hands back the very list object it was given,
    changes that list, raises or reads other objects is not covered.  The
    properties below that run such functions speak of the items of a
    result, not of which object it is. *)
Inductive stage :=
  | SFun (f : list string -> list string)
  | p_join (self : iid)
  | p_wrap (self : iid).

Inductive value :=
  | VNone
  | VStr (s : string)
  | VInt (n : Z)
  | VType (t : list_type)
  | VList (l : list string)
  | VPipeline (fs : list stage).

Abbreviation dict := (gmap string value).

(** Python truth value, as tested by [if x] and by the [with] protocol. *)
Definition truthy (v : value) : bool :=
  match v with
  | VNone => false
  | VStr s => negb (String.eqb s "")
  | VInt n => negb (n =? 0)
  | VType _ => true
  | VList l => negb (bool_decide (l = []))
  | VPipeline fs => match fs with [] => false | _ => true end
  end.

(** [d | kw] and [d.update(kw)]: the right operand wins. *)
Definition dict_merge {V} (d kw : gmap string V) : gmap string V := kw ∪ d.

(** ** Exceptions *)

(** The [ValueError]s of the library, one constructor per [raise] site:
    - [CommandNameEmpty]: "Command name cannot be empty"
    - [CommandNameInvalid name]: "Invalid command name: ..."
    - [NargsOutOfRange n]: "nargs must be between 0 and 9, got n"
    - [EnvironmentNameEmpty]: "Environment name cannot be empty"
    - [EnvironmentNameInvalid name]: "Invalid environment name: ..."
    - [NotClosed]: "Assemblable context manager has not been closed." *)
Inductive value_error :=
  | CommandNameEmpty
  | CommandNameInvalid (name : string)
  | NargsOutOfRange (nargs : Z)
  | EnvironmentNameEmpty
  | EnvironmentNameInvalid (name : string)
  | NotClosed.

(** [TypeError] also stands for every failure Python reports when a setting
    holds a value outside its declared type (a missing keyword-only argument,
    a call of something that is not a class, a [join] on a non-string, a
    dangling object); the model does not follow such runs any further. *)
Inductive exn :=
  | ValueError (e : value_error)
  | KeyError (key : string)
  | AttributeError (attr : string)
  | TypeError.

Definition is_ValueError (e : exn) : bool :=
  match e with ValueError _ => true | _ => false end.

(* ------------------------------------------------------------------ *)
(** ** opsladder.py                                                     *)
(* ------------------------------------------------------------------ *)

(** [options_filter(x, s)]: the two dict comprehensions, with the key set of
    [s.__annotations__] as [schema]. *)
Definition options_filter {V} (x : gmap string V) (schema : gset string)
  : gmap string V * gmap string V :=
  (filter (λ kv, kv.1 ∈ schema) x, filter (λ kv, kv.1 ∉ schema) x).

Section Ladder.
(** Classes, with what the metaclass asks of them. *)
Context {K : Type} `{EqDecision K}.

(** A mapping of a [ChainMap]: a dictionary that only this chain refers
    to, or the shared [_defaults] dictionary declared in the body of
    class [c].  [ChainMap(m, d)] with [d] a chain looks keys up in [m] and
    then in [d], so a chain is the list of its mappings, first one first;
    [ChainMap()] holds one empty dictionary. *)
Inductive mapping :=
  | Own (d : dict)
  | Defaults (c : K).

Definition ChainMap := list mapping.

Definition ChainMap_empty : ChainMap := [Own ∅].

(** The dictionary a mapping denotes, given the class dictionaries. *)
Definition deref_mapping (defs : K -> dict) (m : mapping) : dict :=
  match m with
  | Own d => d
  | Defaults c => defs c
  end.

(** [ChainMap.__getitem__]: first mapping that has the key, else
    [KeyError]. *)
Fixpoint chain_get (defs : K -> dict) (cm : ChainMap) (key : string)
  : exn + value :=
  match cm with
  | [] => inl (KeyError key)
  | m :: rest =>
      match deref_mapping defs m !! key with
      | Some v => inr v
      | None => chain_get defs rest key
      end
  end.

Variable mro : K -> list K.              (* [c.mro()], [c] first *)
Variable HasOptions : K.                 (* the marker class *)
Variable declares_defaults : K -> bool.  (* [_defaults] in the class body *)

(** [issubclass(c, OptionsLadder.HasOptions)] *)
Definition issubclass_HasOptions (c : K) : bool :=
  bool_decide (HasOptions ∈ mro c).

(** [getattr(c, '_defaults')]: the dictionary of the first class of
    [c.mro()] that declares one; [hasattr] says whether there is one. *)
Definition getattr_defaults (c : K) : option K :=
  List.find declares_defaults (mro c).

Definition hasattr_defaults (c : K) : bool :=
  match getattr_defaults c with Some _ => true | None => false end.

(** One turn of the loop of [OptionsLadder.__new__]. *)
Definition ladder_step (d : ChainMap) (c : K) : ChainMap :=
  if issubclass_HasOptions c && hasattr_defaults c then
    match getattr_defaults c with
    | Some owner => Defaults owner :: d
    | None => d
    end
  else d.

(** [OptionsLadder.__new__]: the value given to [n_cls.settings]. *)
Definition OptionsLadder_new (n_cls : K) : ChainMap :=
  fold_left ladder_step (rev (mro n_cls)) ChainMap_empty.

(** The first two statements of [Assemblable.__init__]:
    [self.settings = ChainMap({}, self.settings)] and
    [self.settings.update(kwargs.items())]. *)
Definition instance_settings (self_settings : ChainMap) (kwargs : dict)
  : ChainMap :=
  Own (dict_merge ∅ kwargs) :: self_settings.
End Ladder.

Arguments mapping K : clear implicits.
Arguments ChainMap K : clear implicits.

(* ------------------------------------------------------------------ *)
(** ** Regular expressions, as far as [llatex.py] uses them             *)
(* ------------------------------------------------------------------ *)

Inductive regex :=
  | Empty                          (* matches nothing *)
  | Eps                            (* matches the empty string *)
  | Class (p : ascii -> bool)      (* one character of a bracket class *)
  | Cat (r1 r2 : regex)
  | Alt (r1 r2 : regex)
  | Star (r : regex).

Fixpoint nullable (r : regex) : bool :=
  match r with
  | Empty => false
  | Eps => true
  | Class _ => false
  | Cat r1 r2 => nullable r1 && nullable r2
  | Alt r1 r2 => nullable r1 || nullable r2
  | Star _ => true
  end.

(** Brzozowski derivative: what remains to be matched after reading [c]. *)
Fixpoint deriv (c : ascii) (r : regex) : regex :=
  match r with
  | Empty => Empty
  | Eps => Empty
  | Class p => if p c then Eps else Empty
  | Cat r1 r2 =>
      if nullable r1 then Alt (Cat (deriv c r1) r2) (deriv c r2)
      else Cat (deriv c r1) r2
  | Alt r1 r2 => Alt (deriv c r1) (deriv c r2)
  | Star r1 => Cat (deriv c r1) (Star r1)
  end.

(** [re.fullmatch(r, s) is not None] *)
Fixpoint fullmatch (r : regex) (s : string) : bool :=
  match s with
  | EmptyString => nullable r
  | String c s' => fullmatch (deriv c r) s'
  end.

Definition in_range (lo hi c : ascii) : bool :=
  (nat_of_ascii lo <=? nat_of_ascii c)%nat && (nat_of_ascii c <=? nat_of_ascii hi)%nat.

Definition is_one_of (cs : list ascii) (c : ascii) : bool :=
  existsb (Ascii.eqb c) cs.

(** [[a-zA-Z]] *)
Definition letter (c : ascii) : bool :=
  in_range "a" "z" c || in_range "A" "Z" c.

(** [[a-zA-Z@*:]] *)
Definition control_word_char (c : ascii) : bool :=
  letter c || is_one_of ["@"; "*"; ":"]%char c.

(** [[a-zA-Z0-9@*]] *)
Definition environment_name_char (c : ascii) : bool :=
  letter c || in_range "0" "9" c || is_one_of ["@"; "*"]%char c.

(** [r'[a-zA-Z][a-zA-Z@*:]*'] *)
Definition control_word_re : regex :=
  Cat (Class letter) (Star (Class control_word_char)).

(** [r'[a-zA-Z][a-zA-Z0-9@*]*'] *)
Definition environment_name_re : regex :=
  Cat (Class letter) (Star (Class environment_name_char)).

(** [validate_latex_control_word(name)]: [None], or the error raised. *)
Definition validate_latex_control_word (name : string) : option value_error :=
  if String.eqb name "" then Some CommandNameEmpty
  else if negb (fullmatch control_word_re name) then Some (CommandNameInvalid name)
  else None.

(** [validate_environment_name(name)] *)
Definition validate_environment_name (name : string) : option value_error :=
  if String.eqb name "" then Some EnvironmentNameEmpty
  else if negb (fullmatch environment_name_re name)
       then Some (EnvironmentNameInvalid name)
  else None.

(* ------------------------------------------------------------------ *)
(** ** The classes of the library                                       *)
(* ------------------------------------------------------------------ *)

Inductive pyclass :=
  | object
  | HasOptions
  | Assemblable
  | DocumentPart
  | NewCommand
  | Environment.

#[global] Instance pyclass_eq_dec : EqDecision pyclass.
Proof. solve_decision. Defined.

(** The method resolution orders, every class having one base. *)
Definition mro (c : pyclass) : list pyclass :=
  match c with
  | object => [object]
  | HasOptions => [HasOptions; object]
  | Assemblable => [Assemblable; HasOptions; object]
  | DocumentPart => [DocumentPart; Assemblable; HasOptions; object]
  | NewCommand => [NewCommand; DocumentPart; Assemblable; HasOptions; object]
  | Environment => [Environment; DocumentPart; Assemblable; HasOptions; object]
  end.

(** The classes whose body assigns [_defaults]. *)
Definition declares_defaults (c : pyclass) : bool :=
  match c with
  | Assemblable | DocumentPart | NewCommand | Environment => true
  | object | HasOptions => false
  end.

(** [_defaults] as the class bodies write them. *)
Definition declared_defaults (c : pyclass) : dict :=
  match c with
  | Assemblable =>
      <["list_type" := VType AssembleList]>
      (<["initial_list" := VList []]>
      (<["pipeline" := VPipeline []]> ∅))
  | DocumentPart =>
      <["list_type" := VType LatexList]>
      (<["name" := VNone]>
      (<["prolog" := VStr ""]>
      (<["epilog" := VStr ""]>
      (<["delimiter" := VStr NL]> ∅))))
  | NewCommand =>
      <["nargs" := VInt 0]>
      (<["default" := VNone]>
      (<["epilog" := VStr (NL +:+ "}%")]>
      (<["delimiter" := VStr NL]> ∅)))
  | Environment =>
      <["args" := VNone]>
      (<["ops" := VNone]>
      (<["delimiter" := VStr NL]> ∅))
  | object | HasOptions => ∅
  end.

(** [c.settings], set once by the metaclass when the class is created. *)
Definition class_settings (c : pyclass) : ChainMap pyclass :=
  OptionsLadder_new mro HasOptions declares_defaults c.

(** The nested [Options] typed dictionaries.  A [TypedDict] class carries in
    [__annotations__] the keys of its bases and its own. *)
Definition own_annotations (c : pyclass) : gset string :=
  match c with
  | Assemblable => {["list_type"; "pipeline"; "initial_list"]}
  | DocumentPart => {["name"; "prolog"; "epilog"; "delimiter"]}
  | NewCommand => {["nargs"; "default"]}
  | Environment => {["args"; "ops"]}
  | object | HasOptions => ∅
  end.

(** [c.Options.__annotations__] *)
Definition Options_annotations (c : pyclass) : gset string :=
  match c with
  | Assemblable => own_annotations Assemblable
  | DocumentPart => own_annotations Assemblable ∪ own_annotations DocumentPart
  | NewCommand =>
      own_annotations Assemblable ∪ own_annotations DocumentPart
      ∪ own_annotations NewCommand
  | Environment =>
      own_annotations Assemblable ∪ own_annotations DocumentPart
      ∪ own_annotations Environment
  | object | HasOptions => ∅
  end.

(* ------------------------------------------------------------------ *)
(** ** The state of the interpreter                                     *)
(* ------------------------------------------------------------------ *)

(** An [AssembleList] object. *)
Record list_obj := {
  kind : list_type;
  context : option iid;     (* [_context] *)
  items : list string;
}.

(** A list as a method hands it on: an [AssembleList] object of the heap,
    or a list a pipeline stage has just built. *)
Inductive listref :=
  | Obj (l : lid)
  | Fresh (xs : list string).

(** A scope object: an instance of [Assemblable] or of a subclass. *)
Record scope := {
  cls : pyclass;                  (* [type(self)] *)
  settings : ChainMap pyclass;
  _result : option listref;
  _parent : option lid;
  data : lid;
}.

Record state := {
  class_defaults : pyclass -> dict;   (* the [_defaults] of each class *)
  lists : list list_obj;
  scopes : list scope;
}.

(** The state once the module is imported. *)
Definition initial_state : state :=
  {| class_defaults := declared_defaults; lists := []; scopes := [] |}.

Definition set_class_defaults (f : pyclass -> dict) (σ : state) : state :=
  {| class_defaults := f; lists := lists σ; scopes := scopes σ |}.

Definition set_lists (ls : list list_obj) (σ : state) : state :=
  {| class_defaults := class_defaults σ; lists := ls; scopes := scopes σ |}.

Definition set_scopes (ss : list scope) (σ : state) : state :=
  {| class_defaults := class_defaults σ; lists := lists σ; scopes := ss |}.

(** ** The monad of methods *)

Definition M (A : Type) : Type := state -> state * (exn + A).

Definition ret {A} (a : A) : M A := λ σ, (σ, inr a).

Definition raise {A} (e : exn) : M A := λ σ, (σ, inl e).

Definition bind {A B} (m : M A) (k : A -> M B) : M B :=
  λ σ, match m σ with
       | (σ', inr a) => k a σ'
       | (σ', inl e) => (σ', inl e)
       end.

(** A computation that only reads the state. *)
Definition reading {A} (f : state -> exn + A) : M A := λ σ, (σ, f σ).

Notation "'do' x <- m ; k" := (bind m (λ x, k))
  (at level 10, x name, m at level 99, k at level 200).
Notation "m ;; k" := (bind m (λ _, k))
  (at level 100, k at level 200, right associativity).

(** ** Reading and writing the heaps *)

(** [self.settings[key]] for a chain [cm]. *)
Definition settings_get (cm : ChainMap pyclass) (key : string) : M value :=
  reading (λ σ, chain_get (class_defaults σ) cm key).

(** The scope object [i]. *)
Definition get_scope (i : iid) : M scope :=
  reading (λ σ, match scopes σ !! i with
                | Some s => inr s
                | None => inl TypeError
                end).

(** The items of a list at this moment. *)
Definition contents (σ : state) (r : listref) : exn + list string :=
  match r with
  | Obj l => match lists σ !! l with
             | Some o => inr (items o)
             | None => inl TypeError
             end
  | Fresh xs => inr xs
  end.

(** A list object with items added at its end. *)
Definition with_items_added (o : list_obj) (xs : list string) : list_obj :=
  {| kind := kind o; context := context o; items := items o ++ xs |}.

(** [l.extend(xs)], and with it [l.append(x)]. *)
Definition extend (l : lid) (xs : list string) : M unit :=
  λ σ, match lists σ !! l with
       | Some o => (set_lists (<[l := with_items_added o xs]> (lists σ)) σ, inr ())
       | None => (σ, inl TypeError)
       end.

Definition append (l : lid) (x : string) : M unit := extend l [x].

(** A method of [LatexList] that appends one item, called on the list [l]:
    an object of the base class [AssembleList] has no such attribute. *)
Definition LatexList_append (attr : string) (l : lid) (item : string) : M unit :=
  λ σ, match lists σ !! l with
       | Some o =>
           match kind o with
           | LatexList => append l item σ
           | AssembleList => (σ, inl (AttributeError attr))
           end
       | None => (σ, inl TypeError)
       end.

(** [LatexList.desc_item(key, value)] *)
Definition desc_item (l : lid) (key val : string) : M unit :=
  LatexList_append "desc_item" l ("\item [{" +:+ key +:+ "}] " +:+ val).

(** [LatexList.rule(width, height)]; an argument left out is [None] here and
    takes its default, [r"\textwidth"] and ["0.4pt"]. *)
Definition rule (l : lid) (width height : option string) : M unit :=
  LatexList_append "rule" l
    ("\rule{" +:+ default "\textwidth" width +:+ "}{"
     +:+ default "0.4pt" height +:+ "}").

(** The property [AssembleList.context]. *)
Definition list_context (l : lid) : M (option iid) :=
  reading (λ σ, match lists σ !! l with
                | Some o => inr (context o)
                | None => inl TypeError
                end).

(** The class dictionaries after [key] is set in the one of [owner]. *)
Definition store_default (defs : pyclass -> dict) (owner : pyclass)
    (key : string) (v : value) : pyclass -> dict :=
  λ c, if decide (c = owner) then <[key := v]> (defs owner) else defs c.

(** [self._defaults[key] = v]: the attribute is found on the first class of
    [type(self).mro()] that declares it, and that shared dictionary is
    written. *)
Definition set_default (c : pyclass) (key : string) (v : value) : M unit :=
  λ σ, match getattr_defaults mro declares_defaults c with
       | Some owner =>
           (set_class_defaults (store_default (class_defaults σ) owner key v) σ,
            inr ())
       | None => (σ, inl (AttributeError "_defaults"))
       end.

(** [self._defaults], read. *)
Definition get_defaults (c : pyclass) : M dict :=
  reading (λ σ, match getattr_defaults mro declares_defaults c with
                | Some owner => inr (class_defaults σ owner)
                | None => inl (AttributeError "_defaults")
                end).

(* ------------------------------------------------------------------ *)
(** ** assemblable.py                                                   *)
(* ------------------------------------------------------------------ *)

(** [list_type(init, context)], that is [AssembleList.__init__]: a new list
    object holding a copy of [init or []]. *)
Definition new_list (t : list_type) (init : list string) (ctx : iid) : M lid :=
  λ σ, (set_lists (lists σ ++ [{| kind := t; context := Some ctx;
                                  items := match init with
                                           | [] => []
                                           | _ => init
                                           end |}]) σ,
        inr (length (lists σ))).

(** [Assemblable.__init__(self, parent, **kwargs)].  [c] is [type(self)] and
    [self_settings] what [self.settings] evaluates to on entry: the class
    attribute, or the chain a subclass initialiser has already assigned.
    The result holds the attributes of the initialised object. *)
Definition Assemblable_init (self : iid) (c : pyclass)
    (self_settings : ChainMap pyclass) (parent : option lid) (kwargs : dict)
  : M scope :=
  let settings := instance_settings self_settings kwargs in
  do lt <- settings_get settings "list_type";
  do il <- settings_get settings "initial_list";
  match lt, il with
  | VType t, VList init =>
      do d <- new_list t init self;
      ret {| cls := c; settings := settings; _result := None;
             _parent := parent; data := d |}
  | _, _ => raise TypeError
  end.

(** One stage applied to the items of a list.  The bound methods are
    [DocumentPart.p_join] and [DocumentPart.p_wrap] of [llatex.py]; they read
    the settings of the scope they are bound to when they run. *)
Definition run_stage (f : stage) (xs : list string) : M (list string) :=
  match f with
  | SFun g => ret (g xs)
  | p_join self =>
      do s <- get_scope self;
      do d <- settings_get (settings s) "delimiter";
      match d with
      | VStr sep => ret [str_join sep xs]
      | _ => raise TypeError
      end
  | p_wrap self =>
      do s <- get_scope self;
      do p <- settings_get (settings s) "prolog";
      do e <- settings_get (settings s) "epilog";
      match p, e with
      | VStr prolog, VStr epilog => ret [str_join "" ([prolog] ++ xs ++ [epilog])]
      | _, _ => raise TypeError
      end
  end.

(** The loop of [run_pipeline]: [data = func(data)] for each stage.  With
    no stage the list given is handed back, the same object; the output of
    a stage is a new list ([p_join] and [p_wrap] build a list display). *)
Fixpoint fold_pipeline (fs : list stage) (d : listref) : M listref :=
  match fs with
  | [] => ret d
  | f :: fs' =>
      do xs <- reading (λ σ, contents σ d);
      do ys <- run_stage f xs;
      fold_pipeline fs' (Fresh ys)
  end.

(** [Assemblable.run_pipeline(self, data)] *)
Definition run_pipeline (self : iid) (d : listref) : M listref :=
  do s <- get_scope self;
  do p <- settings_get (settings s) "pipeline";
  match p with
  | VPipeline fs => fold_pipeline fs d
  | _ => raise TypeError
  end.

(** A scope object with its [_result] assigned. *)
Definition with_result (s : scope) (r : listref) : scope :=
  {| cls := cls s; settings := settings s; _result := Some r;
     _parent := _parent s; data := data s |}.

(** [self._result = r] *)
Definition set_result (self : iid) (r : listref) : M unit :=
  λ σ, match scopes σ !! self with
       | Some s => (set_scopes (<[self := with_result s r]> (scopes σ)) σ, inr ())
       | None => (σ, inl TypeError)
       end.

(** [Assemblable.__enter__] *)
Definition Assemblable_enter (self : iid) : M lid :=
  do s <- get_scope self; ret (data s).

(** [Assemblable.__exit__(self, exc_type, exc_value, exc_traceback)]; the
    three arguments are not used. *)
Definition Assemblable_exit (self : iid) (exc : option exn) : M value :=
  do s <- get_scope self;
  do r <- run_pipeline self (Obj (data s));
  set_result self r;;
  match _parent s with
  | Some p =>
      do xs <- reading (λ σ, contents σ r);
      extend p xs;;
      ret VNone
  | None => ret VNone
  end.

(** The property [Assemblable.result]. *)
Definition result (self : iid) : M listref :=
  do s <- get_scope self;
  match _result s with
  | None => raise (ValueError NotClosed)
  | Some r => ret r
  end.

(** The property [Assemblable.parent]. *)
Definition parent (self : iid) : M (option lid) :=
  do s <- get_scope self; ret (_parent s).

(** The statement [with cm as x: body], as Python runs it: evaluate [cm],
    enter, run the body, call [__exit__] with the exception of the body if
    there is one, and raise that exception again unless [__exit__] returned a
    true value. *)
Definition with_ (cm : M iid) (body : lid -> M unit) : M unit :=
  do self <- cm;
  do x <- Assemblable_enter self;
  λ σ, let (σ1, out) := body x σ in
       let exc := match out with inl e => Some e | inr _ => None end in
       match Assemblable_exit self exc σ1 with
       | (σ2, inl e) => (σ2, inl e)
       | (σ2, inr suppress) =>
           match out with
           | inl e => if truthy suppress then (σ2, inr ()) else (σ2, inl e)
           | inr _ => (σ2, inr ())
           end
       end.

(* ------------------------------------------------------------------ *)
(** ** llatex.py                                                        *)
(* ------------------------------------------------------------------ *)

(** [DocumentPart.__init__(self, parent, **kwargs)]; [super().Options] is
    [Assemblable.Options]. *)
Definition DocumentPart_init (self : iid) (c : pyclass)
    (self_settings : ChainMap pyclass) (parent : option lid) (kwargs : dict)
  : M scope :=
  set_default c "pipeline" (VPipeline [p_join self; p_wrap self]);;
  let '(up, down) := options_filter kwargs (Options_annotations Assemblable) in
  Assemblable_init self c (Own down :: self_settings) parent up.

(** The property [DocumentPart.name]: an object of a class that does not
    derive from [DocumentPart] has no such attribute. *)
Definition name (self : iid) : M value :=
  do s <- get_scope self;
  if bool_decide (DocumentPart ∈ mro (cls s))
  then settings_get (settings s) "name"
  else raise (AttributeError "name").

(** A keyword-only parameter bound from [**kw]. *)
Definition keyword (kw : dict) (key : string) : M value :=
  match kw !! key with
  | Some v => ret v
  | None => raise TypeError
  end.

(** A value declared [str | None]. *)
Definition is_opt_str (v : value) : bool :=
  match v with VNone | VStr _ => true | _ => false end.

(** [f"{v}"] for such a value. *)
Definition format_ (v : value) : string :=
  match v with
  | VStr s => s
  | VInt n => pretty n
  | _ => "None"
  end.

(** The string [NewCommand.validate_and_update] stores as ['prolog']. *)
Definition NewCommand_prolog (name : string) (nargs : Z) (default : value)
  : string :=
  ("\newcommand{\" +:+ name +:+ "}")
  +:+ (if 0 <? nargs then "[" +:+ pretty nargs +:+ "]" else "")
  +:+ (match default with VNone => "" | _ => "[" +:+ format_ default +:+ "]" end)
  +:+ ("{%" +:+ NL).

(** [NewCommand.validate_and_update(self, *, name, nargs, default, **_)],
    called on [**kw]. *)
Definition NewCommand_validate_and_update (c : pyclass) (kw : dict) : M unit :=
  do name <- keyword kw "name";
  do nargs <- keyword kw "nargs";
  do default <- keyword kw "default";
  match name with
  | VStr name =>
      match validate_latex_control_word name with
      | Some e => raise (ValueError e)
      | None =>
          match nargs with
          | VInt nargs =>
              if (nargs <? 0) || (9 <? nargs)
              then raise (ValueError (NargsOutOfRange nargs))
              else if is_opt_str default
              then set_default c "prolog"
                     (VStr (NewCommand_prolog name nargs default))
              else raise TypeError
          | _ => raise TypeError
          end
      end
  | _ => raise TypeError
  end.

(** [NewCommand.__init__(self, parent, cmd_name, **kwargs)]; [super().Options]
    is [DocumentPart.Options] and [self.settings] is still the class
    attribute. *)
Definition NewCommand_init (self : iid) (parent : option lid)
    (cmd_name : string) (kwargs : dict) : M scope :=
  let kwargs := <["name" := VStr cmd_name]> kwargs in
  do defaults <- get_defaults NewCommand;
  NewCommand_validate_and_update NewCommand (dict_merge defaults kwargs);;
  let '(up, down) := options_filter kwargs (Options_annotations DocumentPart) in
  DocumentPart_init self NewCommand (Own down :: class_settings NewCommand)
    parent up.

(** The strings [Environment.validate_and_update] stores as ['prolog'] and
    ['epilog']. *)
Definition Environment_prolog (name : string) (args ops : value) : string :=
  ("\begin{" +:+ name +:+ "}")
  +:+ (if truthy ops then "[" +:+ format_ ops +:+ "]" else "")
  +:+ (if truthy args then "{" +:+ format_ args +:+ "}" else "")
  +:+ ("%" +:+ NL).

Definition Environment_epilog (name : string) : string :=
  NL +:+ "\end{" +:+ name +:+ "}%".

(** [Environment.validate_and_update(self, *, name, args, ops, **_)] *)
Definition Environment_validate_and_update (c : pyclass) (kw : dict) : M unit :=
  do name <- keyword kw "name";
  do args <- keyword kw "args";
  do ops <- keyword kw "ops";
  match name with
  | VStr name =>
      match validate_environment_name name with
      | Some e => raise (ValueError e)
      | None =>
          if is_opt_str ops && is_opt_str args then
            set_default c "prolog" (VStr (Environment_prolog name args ops));;
            set_default c "epilog" (VStr (Environment_epilog name))
          else raise TypeError
      end
  | _ => raise TypeError
  end.

(** [Environment.__init__(self, parent, env_name, **kwargs)] *)
Definition Environment_init (self : iid) (parent : option lid)
    (env_name : string) (kwargs : dict) : M scope :=
  let kwargs := <["name" := VStr env_name]> kwargs in
  do defaults <- get_defaults Environment;
  Environment_validate_and_update Environment (dict_merge defaults kwargs);;
  let '(up, down) := options_filter kwargs (Options_annotations DocumentPart) in
  DocumentPart_init self Environment (Own down :: class_settings Environment)
    parent up.

(** ** Calling a class *)

(** [C(...)]: a new object, initialised by [C.__init__] and returned; when
    the initialiser raises the caller gets no object.  The identity of the
    object is fixed on entry, the initialiser hands [self.p_join] on before
    it returns. *)
Definition construct (init : iid -> M scope) : M iid :=
  λ σ, let self := length (scopes σ) in
       match init self σ with
       | (σ', inr s) => (set_scopes (scopes σ' ++ [s]) σ', inr self)
       | (σ', inl e) => (σ', inl e)
       end.

(** The parameters of [C.__init__] that the call [C(parent, ..., **kwargs)]
    binds by position. *)
Definition parameters (c : pyclass) : list string :=
  match c with
  | Assemblable | DocumentPart => ["self"; "parent"]
  | NewCommand => ["self"; "parent"; "cmd_name"]
  | Environment => ["self"; "parent"; "env_name"]
  | object | HasOptions => []
  end.

(** No keyword argument has the name of such a parameter. *)
Definition keywords_bind (c : pyclass) (kwargs : dict) : bool :=
  forallb (λ k, bool_decide (kwargs !! k = None)) (parameters c).

(** Binding the arguments of the call to the parameters of [C.__init__]: a
    keyword argument with the name of a parameter bound by position is a
    [TypeError], "got multiple values for argument", raised before the body
    of the initialiser runs. *)
Definition bind_arguments (c : pyclass) (kwargs : dict) : M unit :=
  if keywords_bind c kwargs then ret () else raise TypeError.

(** [Assemblable(parent, **kwargs)] *)
Definition new_Assemblable (parent : option lid) (kwargs : dict) : M iid :=
  bind_arguments Assemblable kwargs;;
  construct (λ self, Assemblable_init self Assemblable
                       (class_settings Assemblable) parent kwargs).

(** [DocumentPart(parent, **kwargs)] *)
Definition new_DocumentPart (parent : option lid) (kwargs : dict) : M iid :=
  bind_arguments DocumentPart kwargs;;
  construct (λ self, DocumentPart_init self DocumentPart
                       (class_settings DocumentPart) parent kwargs).

(** [NewCommand(parent, cmd_name, **kwargs)] *)
Definition new_NewCommand (parent : option lid) (cmd_name : string)
    (kwargs : dict) : M iid :=
  bind_arguments NewCommand kwargs;;
  construct (λ self, NewCommand_init self parent cmd_name kwargs).

(** [Environment(parent, env_name, **kwargs)] *)
Definition new_Environment (parent : option lid) (env_name : string)
    (kwargs : dict) : M iid :=
  bind_arguments Environment kwargs;;
  construct (λ self, Environment_init self parent env_name kwargs).

(* ------------------------------------------------------------------ *)
(** ** Vocabulary of the specification                                  *)
(* ------------------------------------------------------------------ *)

Section LadderSpec.
Context {K : Type} `{EqDecision K}.
Variable mro : K -> list K.
Variable HasOptions : K.
Variable declares_defaults : K -> bool.

(** A class takes part in the configuration when it derives from the
    marker class and has a [_defaults] attribute. *)
Definition participates (c : K) : bool :=
  issubclass_HasOptions mro HasOptions c
  && hasattr_defaults mro declares_defaults c.

(** The defaults of a class: the dictionary its [_defaults] attribute
    denotes, if it has the attribute. *)
Definition defaults_of (defs : K -> dict) (c : K) : option dict :=
  defs <$> getattr_defaults mro declares_defaults c.

(** The value of [key] in the most derived participating class, of the
    classes [cs] listed most derived first, whose defaults define it. *)
Fixpoint most_derived_default (defs : K -> dict) (cs : list K)
    (key : string) : option value :=
  match cs with
  | [] => None
  | c :: cs' =>
      match (if participates c then defaults_of defs c else None) with
      | Some d =>
          match d !! key with
          | Some v => Some v
          | None => most_derived_default defs cs' key
          end
      | None => most_derived_default defs cs' key
      end
  end.

(** What the specification says a lookup in the merged configuration of an
    instance of [n_cls] returns. *)
Definition layered_lookup (defs : K -> dict) (overrides : dict) (n_cls : K)
    (key : string) : exn + value :=
  match overrides !! key with
  | Some v => inr v
  | None =>
      match most_derived_default defs (mro n_cls) key with
      | Some v => inr v
      | None => inl (KeyError key)
      end
  end.
End LadderSpec.

(** The grammar of a name: a first character of one class, then any number
    of characters of another. *)
Definition in_grammar (first rest : ascii -> bool) (s : string) : Prop :=
  ∃ c s', s = String c s' ∧ first c = true
          ∧ Forall (λ x, rest x = true) (list_ascii_of_string s').

(** The declared type of each option, from the [Options] classes.  A
    keyword that is no option is not constrained: [**kwargs] takes any
    keyword, and whether the call can bind it is for [bind_arguments]. *)
Definition typed (key : string) (v : value) : bool :=
  if decide (key = "list_type") then match v with VType _ => true | _ => false end
  else if decide (key = "pipeline") then match v with VPipeline _ => true | _ => false end
  else if decide (key = "initial_list") then match v with VList _ => true | _ => false end
  else if decide (key ∈ ["prolog"; "epilog"; "delimiter"]) then
         match v with VStr _ => true | _ => false end
  else if decide (key = "nargs") then match v with VInt _ => true | _ => false end
  else if decide (key ∈ ["name"; "default"; "args"; "ops"]) then is_opt_str v
  else true.

Definition typed_dict (d : dict) : Prop :=
  ∀ k v, d !! k = Some v → typed k v = true.

(** What holds of the class dictionaries at every moment: the declared
    entries are still there, and every entry has its declared type. *)
Definition defaults_ok (σ : state) : Prop :=
  ∀ c, declared_defaults c ⊆ class_defaults σ c ∧ typed_dict (class_defaults σ c).

(** The ways of creating a scope. *)
Inductive call :=
  | CallAssemblable (parent : option lid) (kwargs : dict)
  | CallDocumentPart (parent : option lid) (kwargs : dict)
  | CallNewCommand (parent : option lid) (cmd_name : string) (kwargs : dict)
  | CallEnvironment (parent : option lid) (env_name : string) (kwargs : dict).

Definition run_call (c : call) : M iid :=
  match c with
  | CallAssemblable p kw => new_Assemblable p kw
  | CallDocumentPart p kw => new_DocumentPart p kw
  | CallNewCommand p n kw => new_NewCommand p n kw
  | CallEnvironment p n kw => new_Environment p n kw
  end.

Definition call_class (c : call) : pyclass :=
  match c with
  | CallAssemblable _ _ => Assemblable
  | CallDocumentPart _ _ => DocumentPart
  | CallNewCommand _ _ _ => NewCommand
  | CallEnvironment _ _ _ => Environment
  end.

Definition call_parent (c : call) : option lid :=
  match c with
  | CallAssemblable p _ | CallDocumentPart p _
  | CallNewCommand p _ _ | CallEnvironment p _ _ => p
  end.

(** The options a call supplies for the instance. *)
Definition call_overrides (c : call) : dict :=
  match c with
  | CallAssemblable _ kw | CallDocumentPart _ kw => kw
  | CallNewCommand _ n kw | CallEnvironment _ n kw => <["name" := VStr n]> kw
  end.

(** What a client can do to the state: create a scope, add items to a list
    ([append], [extend], [desc_item] and [rule] all extend), close a scope.
    Reading a property changes nothing. *)
Inductive op :=
  | OpCall (c : call)
  | OpExtend (l : lid) (xs : list string)
  | OpExit (self : iid) (exc : option exn).

(** The state an operation leaves, whether it returns or raises. *)
Definition run_op (o : op) (σ : state) : state :=
  match o with
  | OpCall c => (run_call c σ).1
  | OpExtend l xs => (extend l xs σ).1
  | OpExit i exc => (Assemblable_exit i exc σ).1
  end.

Definition run_ops (os : list op) (σ : state) : state :=
  fold_left (λ σ o, run_op o σ) os σ.

(** [for x in xs: l.append(x)] *)
Fixpoint append_each (l : lid) (xs : list string) : M unit :=
  match xs with
  | [] => ret ()
  | x :: xs' => append l x;; append_each l xs'
  end.

(** The items of the result of a scope, read now. *)
Definition result_items (self : iid) : M (list string) :=
  do r <- result self; reading (λ σ, contents σ r).

(** [t in s] for strings. *)
Definition contains (s t : string) : Prop := ∃ pre post, s = pre +:+ t +:+ post.

(** A stage that can run: a bound method belongs to a scope object of the
    heap, of a class that derives from [DocumentPart]. *)
Definition stage_ok (σ : state) (f : stage) : Prop :=
  match f with
  | SFun _ => True
  | p_join j | p_wrap j =>
      ∃ s, scopes σ !! j = Some s ∧ DocumentPart ∈ mro (cls s)
  end.

Definition value_ok (σ : state) (v : value) : Prop :=
  match v with
  | VPipeline fs => Forall (stage_ok σ) fs
  | _ => True
  end.

(** A dictionary of options of their declared types, whose pipelines can
    run. *)
Definition dict_ok (σ : state) (d : dict) : Prop :=
  typed_dict d ∧ ∀ k v, d !! k = Some v → value_ok σ v.

(** The class dictionaries [defs'] come from [defs] by the writes of the
    library: declared entries stay, types stay, the dictionary of
    [Assemblable] is never written, and a new value satisfies [P]. *)
Definition written (P : value -> Prop) (defs defs' : pyclass -> dict) : Prop :=
  (∀ c, declared_defaults c ⊆ defs c → declared_defaults c ⊆ defs' c)
  ∧ (∀ c, typed_dict (defs c) → typed_dict (defs' c))
  ∧ defs' Assemblable = defs Assemblable
  ∧ (∀ c k v, defs' c !! k = Some v → defs c !! k = Some v ∨ P v).

(** The values the call [c] writes into a class dictionary when the scope
    it creates is [n]: a prefix or a suffix, or the bound methods of [n]. *)
Definition new_value (c : call) (n : iid) (v : value) : Prop :=
  (∃ x, v = VStr x)
  ∨ (v = VPipeline [p_join n; p_wrap n] ∧ DocumentPart ∈ mro (call_class c)).

(** The description of a scope a call has just created. *)
Definition created (c : call) (σ σ' : state) (s : scope) : Prop :=
  scopes σ' = scopes σ ++ [s]
  ∧ (∃ lo, lists σ' = lists σ ++ [lo] ∧ context lo = Some (length (scopes σ)))
  ∧ cls s = call_class c ∧ _result s = None ∧ _parent s = call_parent c
  ∧ data s = length (lists σ)
  ∧ ∀ defs k,
      chain_get defs (settings s) k
      = match call_overrides c !! k with
        | Some v => inr v
        | None => chain_get defs (class_settings (call_class c)) k
        end.

(** Every run of a call: it raises and leaves lists and scopes alone, or it
    returns the identity of one new scope. *)
Definition call_outcome (c : call) (σ σ' : state) (out : exn + iid) : Prop :=
  written (new_value c (length (scopes σ))) (class_defaults σ) (class_defaults σ')
  ∧ ((∃ e, out = inl e ∧ lists σ' = lists σ ∧ scopes σ' = scopes σ
           ∧ (is_ValueError e = true → σ' = σ)
           ∧ (declared_defaults Assemblable ⊆ class_defaults σ Assemblable →
              is_ValueError e = true ∨ e = TypeError))
     ∨ (∃ s, out = inr (length (scopes σ)) ∧ created c σ σ' s)).

(** The keyword arguments of a call. *)
Definition call_kwargs (c : call) : dict :=
  match c with
  | CallAssemblable _ kw | CallDocumentPart _ kw
  | CallNewCommand _ _ kw | CallEnvironment _ _ kw => kw
  end.

(** A call a typed client can make: options of their declared types, with
    pipelines that can run, and a parent that is a list of the heap. *)
Definition call_ok (σ : state) (c : call) : Prop :=
  dict_ok σ (call_kwargs c)
  ∧ ∀ p, call_parent c = Some p → (p < length (lists σ))%nat.

(** A scope as the calls create them. *)
Definition scope_ok (σ : state) (s : scope) : Prop :=
  declares_defaults (cls s) = true
  ∧ (∃ ov, dict_ok σ ov
           ∧ ∀ defs k,
               chain_get defs (settings s) k
               = match ov !! k with
                 | Some v => inr v
                 | None => chain_get defs (class_settings (cls s)) k
                 end)
  ∧ (data s < length (lists σ))%nat
  ∧ ∀ p, _parent s = Some p → (p < length (lists σ))%nat ∧ p ≠ data s.

(** The states a typed client can reach. *)
Definition state_ok (σ : state) : Prop :=
  (∀ c, declared_defaults c ⊆ class_defaults σ c
        ∧ dict_ok σ (class_defaults σ c))
  ∧ ∀ i s, scopes σ !! i = Some s → scope_ok σ s.

Definition op_ok (σ : state) (o : op) : Prop :=
  match o with
  | OpCall c => call_ok σ c
  | _ => True
  end.

Fixpoint ops_ok (os : list op) (σ : state) : Prop :=
  match os with
  | [] => True
  | o :: os' => op_ok σ o ∧ ops_ok os' (run_op o σ)
  end.

(** The prefix a scope resolves just after the call that creates it: the
    value of ['prolog'] in its settings, or the exception of the call. *)
Definition prefix_of (c : call) (σ : state) : exn + value :=
  match run_call c σ with
  | (σ', inr i) =>
      match scopes σ' !! i with
      | Some s => chain_get (class_defaults σ') (settings s) "prolog"
      | None => inl TypeError
      end
  | (_, inl e) => inl e
  end.

(** A marker [l x r] that is there only for a string [x] that is not
    empty. *)
Definition marker_if_nonempty (l r : string) (v : value) : string :=
  match v with
  | VStr x => if decide (x = "") then "" else l +:+ x +:+ r
  | _ => ""
  end.

(** A marker [l x r] that is there for every string [x], not for [None]. *)
Definition marker_if_supplied (l r : string) (v : value) : string :=
  match v with
  | VStr x => l +:+ x +:+ r
  | _ => ""
  end.

(** The state after [Assemblable()]: scope 0, whose list is list 0. *)
Definition demo_outer_state : state := (new_Assemblable None ∅ initial_state).1.

(** A body that adds an item to the list it is given and then raises. *)
Definition demo_failing_body (l : lid) : M unit :=
  append l "x";; raise (KeyError "boom").

(** The state after [Environment(None, 'document')]: scope 0 and list 0. *)
Definition demo_document_state : state :=
  (run_call (CallEnvironment None "document" ∅) initial_state).1.

(** Operations that do not close scope 0: an item is added to its list, an
    inner scope is created with that list as parent, and closed. *)
Definition demo_ops : list op :=
  [OpExtend 0%nat ["a"];
   OpCall (CallEnvironment (Some 0%nat) "itemize" ∅);
   OpExit 1%nat None].

(** [with Environment(None, 'document') as doc:]
    [    with NewCommand(doc, 'greet', nargs=1) as cmd:]
    [        cmd.append('\textbf{Hello, #1!}')]
    [    doc.append('\greet{World}')]
    and then the result of the document scope. *)
Definition end_to_end : M (list string) :=
  do document <- new_Environment None "document" ∅;
  with_ (ret document)
    (λ doc,
       with_ (new_NewCommand (Some doc) "greet" (<["nargs" := VInt 1]> ∅))
         (λ cmd, append cmd "\textbf{Hello, #1!}");;
       append doc "\greet{World}");;
  result_items document.

(** [with Environment(None, 'document') as doc:]
    [    with Environment(doc, 'itemize') as it:]
    [        it.append('\item x')]
    with the prefix the document scope resolves before and after the inner
    scope is created, and the result of the document scope. *)
Definition nested_environments : M (value * value * list string) :=
  do document <- new_Environment None "document" ∅;
  do s <- get_scope document;
  do before <- settings_get (settings s) "prolog";
  with_ (ret document)
    (λ doc,
       with_ (new_Environment (Some doc) "itemize" ∅)
         (λ it, append it "\item x"));;
  do after <- settings_get (settings s) "prolog";
  do r <- result_items document;
  ret (before, after, r).

(** Every scope object of the first state is still there, with its class. *)
Definition scopes_kept (σ σ' : state) : Prop :=
  ∀ j s, scopes σ !! j = Some s → ∃ s', scopes σ' !! j = Some s' ∧ cls s' = cls s.

(** The class dictionaries differ at class [c] at most. *)
Definition only_class (c : pyclass) (defs defs' : pyclass -> dict) : Prop :=
  ∀ c', c' ≠ c → defs' c' = defs c'.

(** What [construct] makes of the run of an initialiser. *)
Definition finish (n : iid) (r : state * (exn + scope)) : state * (exn + iid) :=
  match r with
  | (σ', inr s) => (set_scopes (scopes σ' ++ [s]) σ', inr n)
  | (σ', inl e) => (σ', inl e)
  end.

(** The attributes of a scope object that are assigned once. *)
Definition same_scope (s s' : scope) : Prop :=
  cls s' = cls s ∧ settings s' = settings s ∧ data s' = data s
  ∧ _parent s' = _parent s.

(** A list object of the same class and context whose items have grown at
    the end. *)
Definition grown (o o' : list_obj) : Prop :=
  kind o' = kind o ∧ context o' = context o ∧ ∃ xs, items o' = items o ++ xs.

(** Two functions of a caller, and the state after
    [Assemblable(pipeline=[reverse, first_two], initial_list=['a','b','c'])]. *)
Definition demo_functions : list (list string -> list string) :=
  [@rev string; take 2].

Definition demo_functions_state : state :=
  (run_call (CallAssemblable None
               (<["pipeline" := VPipeline (SFun <$> demo_functions)]>
                  (<["initial_list" := VList ["a"; "b"; "c"]]> ∅)))
     initial_state).1.

(** The keys the library writes in the dictionary of a class:
    [DocumentPart.__init__] writes ['pipeline'], [validate_and_update] of
    [NewCommand] ['prolog'] and the one of [Environment] ['prolog'] and
    ['epilog'], each through an object of that class. *)
Definition written_keys (c : pyclass) : list string :=
  match c with
  | DocumentPart => ["pipeline"]
  | NewCommand => ["prolog"; "pipeline"]
  | Environment => ["prolog"; "epilog"; "pipeline"]
  | object | HasOptions | Assemblable => []
  end.

(** Class dictionaries that agree at every other key. *)
Definition keys_kept (defs defs' : pyclass -> dict) : Prop :=
  ∀ c k, k ∉ written_keys c → defs' c !! k = defs c !! k.

(** [scope = C(...)], [with scope as l: l.extend(xs)], and then the items of
    [scope.result]. *)
Definition build (c : call) (xs : list string) : M (list string) :=
  do i <- run_call c;
  with_ (ret i) (λ l, extend l xs);;
  result_items i.

(** [with P(...) as l: l.extend(xs); with C(l, ...) as m: m.extend(ys);
    l.extend(zs)] and then the items of the result of the outer scope.
    [child l] is the call that creates the inner scope. *)
Definition build_nested (cP : call) (xs : list string) (child : lid -> call)
    (ys zs : list string) : M (list string) :=
  do outer <- run_call cP;
  with_ (ret outer)
    (λ l, extend l xs;;
          with_ (run_call (child l)) (λ m, extend m ys);;
          extend l zs);;
  result_items outer.

(* ------------------------------------------------------------------ *)
(** ** The pipeline in the words of the specification                   *)
(* ------------------------------------------------------------------ *)

(** The definitions of this section follow the text of the specification,
    not the code; Part II compares them with [run_pipeline]. *)

(** The string a scope has configured under a key, at this moment. *)
Definition configured (σ : state) (j : iid) (key : string) : option string :=
  match scopes σ !! j with
  | Some s =>
      match chain_get (class_defaults σ) (settings s) key with
      | inr (VStr x) => Some x
      | _ => None
      end
  | None => None
  end.

(** "Join stage: concatenate the current sequence's items into a
    single-item sequence using a configured delimiter string placed between
    consecutive items.  An empty input sequence joins to a single empty
    string." *)
Fixpoint spec_join (delimiter : string) (xs : list string) : string :=
  match xs with
  | [] => ""
  | x :: xs' =>
      match xs' with
      | [] => x
      | _ :: _ => x +:+ delimiter +:+ spec_join delimiter xs'
      end
  end.

(** The items of a sequence, one after the other. *)
Fixpoint spec_concat (xs : list string) : string :=
  match xs with
  | [] => ""
  | x :: xs' => x +:+ spec_concat xs'
  end.

(** "Wrap stage: concatenate a configured prefix string, the (now single)
    joined item, and a configured suffix string into one final single-item
    sequence." *)
Definition spec_wrap (prefix suffix : string) (xs : list string) : list string :=
  [prefix +:+ spec_concat xs +:+ suffix].

(** One transformation applied to a sequence: a function of the caller, or
    the join or the wrap stage with what the scope [j] has configured.
    [None] when a string it needs is not configured. *)
Definition spec_stage (σ : state) (f : stage) (xs : list string)
  : option (list string) :=
  match f with
  | SFun g => Some (g xs)
  | p_join j =>
      match configured σ j "delimiter" with
      | Some delimiter => Some [spec_join delimiter xs]
      | None => None
      end
  | p_wrap j =>
      match configured σ j "prolog", configured σ j "epilog" with
      | Some prefix, Some suffix => Some (spec_wrap prefix suffix xs)
      | _, _ => None
      end
  end.

(** "Pipeline execution: apply each configured transformation function in
    registration order, each consuming the sequence produced by the previous
    stage and producing the sequence for the next; the final stage's output
    becomes the scope's result.  An empty pipeline means the result is the
    accumulated sequence unchanged." *)
Fixpoint spec_pipeline (σ : state) (fs : list stage) (xs : list string)
  : option (list string) :=
  match fs with
  | [] => Some xs
  | f :: fs' =>
      match spec_stage σ f xs with
      | Some ys => spec_pipeline σ fs' ys
      | None => None
      end
  end.

(** [Environment(None, 'document')], and a command definition inside it
    whose body adds an item and raises: the state when the body has
    ended. *)
Definition demo_command_call : call := CallNewCommand (Some 0%nat) "greet" ∅.


Definition demo_command_state : state :=
  (demo_failing_body 1%nat (run_call demo_command_call demo_document_state).1).1.

(* ================================================================== *)
(** * Part II: properties                                               *)
(* ================================================================== *)

(** ** Key partitioning *)

Section options_filter_facts.
Context {V : Type}.
Implicit Types (x : gmap string V) (schema : gset string).

Lemma options_filter_claimed x schema k :
  (options_filter x schema).1 !! k
  = if decide (k ∈ schema) then x !! k else None.
Proof.
  cbn. rewrite map_lookup_filter.
  destruct (x !! k) as [v|]; cbn; repeat case_decide; try done;
    rewrite ?option_guard_True, ?option_guard_False; done.
Qed.

Lemma options_filter_unclaimed x schema k :
  (options_filter x schema).2 !! k
  = if decide (k ∈ schema) then None else x !! k.
Proof.
  cbn. rewrite map_lookup_filter.
  destruct (x !! k) as [v|]; cbn; repeat case_decide; try done;
    rewrite ?option_guard_True, ?option_guard_False; done.
Qed.

Lemma options_filter_union x schema :
  (options_filter x schema).1 ∪ (options_filter x schema).2 = x.
Proof.
  apply map_eq; intros k. rewrite lookup_union.
  rewrite options_filter_claimed, options_filter_unclaimed.
  case_decide; destruct (x !! k); done.
Qed.
End options_filter_facts.

(** C8. [options_filter] splits a keyword mapping into two mappings with
    disjoint key sets whose union is the original key set; a key keeps its
    value: the claimed part is the mapping restricted to the schema, the
    unclaimed part the mapping restricted to the rest, and their union is
    the mapping itself. *)
Theorem options_filter_partition {V} (x : gmap string V) (schema : gset string) :
  dom (options_filter x schema).1 ## dom (options_filter x schema).2
  ∧ dom (options_filter x schema).1 ∪ dom (options_filter x schema).2 = dom x
  ∧ (∀ k, (options_filter x schema).1 !! k
          = if decide (k ∈ schema) then x !! k else None)
  ∧ (∀ k, (options_filter x schema).2 !! k
          = if decide (k ∈ schema) then None else x !! k)
  ∧ (options_filter x schema).1 ∪ (options_filter x schema).2 = x.
Proof.
  split_and!.
  - intros k [v1 H1]%elem_of_dom [v2 H2]%elem_of_dom.
    rewrite options_filter_claimed in H1.
    rewrite options_filter_unclaimed in H2.
    case_decide; done.
  - rewrite <- dom_union_L. by rewrite options_filter_union.
  - apply options_filter_claimed.
  - apply options_filter_unclaimed.
  - apply options_filter_union.
Qed.

(** ** Lookup in a chain of mappings *)

Section chain_facts.
Context {K : Type} `{EqDecision K}.
Implicit Types (defs : K -> dict) (cm : ChainMap K) (kw : dict).

Lemma chain_get_cons defs m cm k :
  chain_get defs (m :: cm) k
  = match deref_mapping defs m !! k with
    | Some v => inr v
    | None => chain_get defs cm k
    end.
Proof. reflexivity. Qed.

Lemma chain_get_empty defs k :
  chain_get defs ChainMap_empty k = inl (KeyError k).
Proof. cbn. by rewrite lookup_empty. Qed.

(** The topmost layer is the copy of the keyword arguments. *)
Lemma chain_get_instance defs cm kw k :
  chain_get defs (instance_settings cm kw) k
  = match kw !! k with Some v => inr v | None => chain_get defs cm k end.
Proof.
  unfold instance_settings, dict_merge. rewrite chain_get_cons. cbn.
  by rewrite (right_id_L ∅ (∪)).
Qed.

(** Two layers holding the two parts of a split behave as one layer
    holding the whole. *)
Lemma chain_get_split defs cm kw schema k :
  chain_get defs
    (instance_settings (Own (options_filter kw schema).2 :: cm)
                       (options_filter kw schema).1) k
  = match kw !! k with Some v => inr v | None => chain_get defs cm k end.
Proof.
  rewrite chain_get_instance, chain_get_cons. cbn [deref_mapping].
  rewrite options_filter_claimed, options_filter_unclaimed.
  case_decide; destruct (kw !! k); done.
Qed.

(** A lookup either finds a value or raises [KeyError] for that key. *)
Lemma chain_get_outcome defs cm k :
  (∃ v, chain_get defs cm k = inr v) ∨ chain_get defs cm k = inl (KeyError k).
Proof.
  induction cm as [|m cm IH]; [by right|].
  rewrite chain_get_cons. destruct (_ !! k); eauto.
Qed.

Variable mro : K -> list K.
Variable HasOptions : K.
Variable declares_defaults : K -> bool.

Lemma chain_get_ladder_step defs d c k :
  chain_get defs (ladder_step mro HasOptions declares_defaults d c) k
  = match (if participates mro HasOptions declares_defaults c
           then defaults_of mro declares_defaults defs c else None) with
    | Some dc =>
        match dc !! k with Some v => inr v | None => chain_get defs d k end
    | None => chain_get defs d k
    end.
Proof.
  unfold ladder_step, participates, defaults_of, hasattr_defaults.
  destruct (issubclass_HasOptions mro HasOptions c); cbn; [|done].
  destruct (getattr_defaults mro declares_defaults c); done.
Qed.

(** The loop of the metaclass, run over the reversed resolution order,
    builds a chain that searches the classes most derived first. *)
Lemma chain_get_fold_ladder defs cs k :
  chain_get defs
    (fold_left (ladder_step mro HasOptions declares_defaults) (rev cs)
               ChainMap_empty) k
  = match most_derived_default mro HasOptions declares_defaults defs cs k with
    | Some v => inr v
    | None => inl (KeyError k)
    end.
Proof.
  induction cs as [|c cs IH].
  - apply chain_get_empty.
  - cbn [rev]. rewrite fold_left_app. cbn [fold_left].
    rewrite chain_get_ladder_step. cbn [most_derived_default].
    destruct (if participates _ _ _ c then _ else _) as [dc|]; [|done].
    destruct (dc !! k); done.
Qed.

Lemma chain_get_OptionsLadder_new defs n_cls kw k :
  chain_get defs
    (instance_settings (OptionsLadder_new mro HasOptions declares_defaults n_cls) kw) k
  = layered_lookup mro HasOptions declares_defaults defs kw n_cls k.
Proof.
  rewrite chain_get_instance. unfold layered_lookup, OptionsLadder_new.
  by rewrite chain_get_fold_ladder.
Qed.
End chain_facts.

(** ** The monad *)

Lemma bind_inr {A B} (m : M A) (k : A -> M B) σ σ' a :
  m σ = (σ', inr a) → bind m k σ = k a σ'.
Proof. unfold bind. by intros ->. Qed.

Lemma bind_inl {A B} (m : M A) (k : A -> M B) σ σ' e :
  m σ = (σ', inl e) → bind m k σ = (σ', inl e).
Proof. unfold bind. by intros ->. Qed.

Lemma bind_inv {A B} (m : M A) (k : A -> M B) σ σ2 (out : exn + B) :
  bind m k σ = (σ2, out) →
  (∃ e, m σ = (σ2, inl e) ∧ out = inl e)
  ∨ (∃ σ1 a, m σ = (σ1, inr a) ∧ k a σ1 = (σ2, out)).
Proof.
  unfold bind. destruct (m σ) as [σ1 [e|a]]; intros Hk.
  - left. exists e. by simplify_eq.
  - right. eauto.
Qed.

Lemma reading_inv {A} (f : state -> exn + A) σ σ' out :
  reading f σ = (σ', out) → σ' = σ ∧ out = f σ.
Proof. unfold reading. by intros [= <- <-]. Qed.

(** Membership in a list that is written out. *)
Ltac in_list :=
  solve [repeat first [apply list_elem_of_here | apply list_elem_of_further]].

Ltac not_in_list :=
  let H := fresh in
  intros H; cbn in H;
  repeat (apply elem_of_cons in H as [H|H]; [done|]);
  by apply elem_of_nil in H.


(** ** The classes of the library *)

Lemma class_settings_Assemblable :
  class_settings Assemblable = [Defaults Assemblable; Own ∅].
Proof. reflexivity. Qed.

Lemma class_settings_DocumentPart :
  class_settings DocumentPart
  = [Defaults DocumentPart; Defaults Assemblable; Own ∅].
Proof. reflexivity. Qed.

Lemma class_settings_NewCommand :
  class_settings NewCommand
  = [Defaults NewCommand; Defaults DocumentPart; Defaults Assemblable; Own ∅].
Proof. reflexivity. Qed.

Lemma class_settings_Environment :
  class_settings Environment
  = [Defaults Environment; Defaults DocumentPart; Defaults Assemblable; Own ∅].
Proof. reflexivity. Qed.

Lemma getattr_defaults_declared c :
  declares_defaults c = true →
  getattr_defaults mro declares_defaults c = Some c.
Proof. by destruct c. Qed.

Lemma store_default_eq defs c key v :
  store_default defs c key v c = <[key := v]> (defs c).
Proof. unfold store_default. by rewrite decide_True. Qed.

Lemma store_default_ne defs c c' key v :
  c' ≠ c → store_default defs c key v c' = defs c'.
Proof. intros. unfold store_default. by rewrite decide_False. Qed.

Lemma set_default_run c key v σ :
  declares_defaults c = true →
  set_default c key v σ
  = (set_class_defaults (store_default (class_defaults σ) c key v) σ, inr ()).
Proof. intros Hc. unfold set_default. by rewrite getattr_defaults_declared. Qed.

Lemma get_defaults_run c σ :
  declares_defaults c = true →
  get_defaults c σ = (σ, inr (class_defaults σ c)).
Proof.
  intros Hc. unfold get_defaults, reading. by rewrite getattr_defaults_declared.
Qed.

(** ** Typed dictionaries *)

Lemma typed_dict_insert d k v :
  typed k v = true → typed_dict d → typed_dict (<[k := v]> d).
Proof.
  intros Hv Hd k' v'. rewrite lookup_insert. case_decide; [|by apply Hd].
  intros [= <-]. by subst.
Qed.

Lemma typed_dict_merge d kw :
  typed_dict d → typed_dict kw → typed_dict (dict_merge d kw).
Proof.
  intros Hd Hkw k v. unfold dict_merge. rewrite lookup_union_Some_raw.
  intros [?|[_ ?]]; eauto.
Qed.

Lemma typed_dict_filter (P : string * value -> Prop) `{!∀ x, Decision (P x)} d :
  typed_dict d → typed_dict (filter P d).
Proof. intros Hd k v [? _]%map_lookup_filter_Some. eauto. Qed.

Lemma typed_dict_declared c : typed_dict (declared_defaults c).
Proof.
  intros k v. destruct c; cbn; rewrite ?lookup_insert, ?lookup_empty;
    repeat case_decide; intros [= <-]; subst; done.
Qed.

Lemma defaults_ok_initial : defaults_ok initial_state.
Proof. intros c. split; [done | apply typed_dict_declared]. Qed.

(** Setting a typed entry that the class body does not declare keeps the
    class dictionaries in order. *)
Lemma defaults_ok_store σ c key v :
  defaults_ok σ → typed key v = true → declared_defaults c !! key = None →
  defaults_ok (set_class_defaults (store_default (class_defaults σ) c key v) σ).
Proof.
  intros Hok Hv Hnew c'. cbn. destruct (decide (c' = c)) as [->|Hne].
  - rewrite store_default_eq. destruct (Hok c) as [Hsub Hty]. split.
    + by apply insert_subseteq_r.
    + by apply typed_dict_insert.
  - rewrite store_default_ne by done. apply Hok.
Qed.

Lemma typed_list_type v : typed "list_type" v = true → ∃ t, v = VType t.
Proof. destruct v; cbn; try done. eauto. Qed.

Lemma typed_initial_list v : typed "initial_list" v = true → ∃ l, v = VList l.
Proof. destruct v; cbn; try done. eauto. Qed.

Lemma typed_pipeline v : typed "pipeline" v = true → ∃ fs, v = VPipeline fs.
Proof. destruct v; cbn; try done. eauto. Qed.

Lemma typed_nargs v : typed "nargs" v = true → ∃ n, v = VInt n.
Proof. destruct v; cbn; try done. eauto. Qed.

Lemma typed_str k v :
  k ∈ ["prolog"; "epilog"; "delimiter"] → typed k v = true → ∃ s, v = VStr s.
Proof.
  intros Hk Hv.
  repeat (apply elem_of_cons in Hk as [->|Hk]); [..|by apply elem_of_nil in Hk];
    destruct v; cbn in Hv; try done; eauto.
Qed.

Lemma typed_opt_str k v :
  k ∈ ["name"; "default"; "args"; "ops"] → typed k v = true → is_opt_str v = true.
Proof.
  intros Hk Hv.
  repeat (apply elem_of_cons in Hk as [->|Hk]); [..|by apply elem_of_nil in Hk];
    done.
Qed.

(** ** Resolving a key in a chain *)

Lemma chain_get_typed (defs : pyclass -> dict) (cm : ChainMap pyclass) k v :
  Forall (λ m, typed_dict (deref_mapping defs m)) cm →
  chain_get defs cm k = inr v → typed k v = true.
Proof.
  induction 1 as [|m cm Hm _ IH]; [done|].
  rewrite chain_get_cons. destruct (_ !! k) eqn:E; [|done].
  intros [= <-]. eauto.
Qed.

Lemma chain_get_present (defs : pyclass -> dict) (cm : ChainMap pyclass) m k :
  m ∈ cm → is_Some (deref_mapping defs m !! k) →
  ∃ v, chain_get defs cm k = inr v.
Proof.
  intros Hm Hk. induction cm as [|m' cm IH]; [by apply elem_of_nil in Hm|].
  rewrite chain_get_cons. destruct (deref_mapping defs m' !! k) eqn:E; [eauto|].
  apply elem_of_cons in Hm as [->|Hm]; [|by apply IH].
  rewrite E in Hk. by destruct Hk.
Qed.

(** ** [Assemblable.__init__] *)

Lemma Assemblable_init_run self c ss p kw σ t il :
  chain_get (class_defaults σ) (instance_settings ss kw) "list_type"
    = inr (VType t) →
  chain_get (class_defaults σ) (instance_settings ss kw) "initial_list"
    = inr (VList il) →
  Assemblable_init self c ss p kw σ
  = (set_lists (lists σ ++ [{| kind := t; context := Some self; items := il |}]) σ,
     inr {| cls := c; settings := instance_settings ss kw; _result := None;
            _parent := p; data := length (lists σ) |}).
Proof.
  intros Ht Hil. unfold Assemblable_init, settings_get, bind, reading.
  rewrite Ht, Hil. unfold new_list, ret. by destruct il.
Qed.

(** When the initialiser raises, nothing has been written, and the
    exception is one of a failed lookup or of an ill-typed setting. *)
Lemma Assemblable_init_raises self c ss p kw σ σ' e :
  Assemblable_init self c ss p kw σ = (σ', inl e) →
  σ' = σ ∧ (e = KeyError "list_type" ∨ e = KeyError "initial_list" ∨ e = TypeError).
Proof.
  unfold Assemblable_init, settings_get, bind, reading.
  destruct (chain_get_outcome (class_defaults σ) (instance_settings ss kw)
              "list_type") as [[lt ->]| ->]; [|intros [= <- <-]; eauto].
  destruct (chain_get_outcome (class_defaults σ) (instance_settings ss kw)
              "initial_list") as [[il ->]| ->]; [|intros [= <- <-]; eauto].
  destruct lt, il; cbn; intros [= <- <-]; eauto.
Qed.

(** With typed settings and the declared entries of [Assemblable] in the
    chain, the initialiser returns. *)
Lemma Assemblable_init_returns self c ss p kw σ :
  Forall (λ m, typed_dict (deref_mapping (class_defaults σ) m)) ss →
  Defaults Assemblable ∈ ss →
  declared_defaults Assemblable ⊆ class_defaults σ Assemblable →
  typed_dict kw →
  ∃ t il,
    Assemblable_init self c ss p kw σ
    = (set_lists (lists σ ++ [{| kind := t; context := Some self; items := il |}]) σ,
       inr {| cls := c; settings := instance_settings ss kw; _result := None;
              _parent := p; data := length (lists σ) |}).
Proof.
  intros Hss HA Hdecl Hkw.
  assert (Hty : Forall (λ m, typed_dict (deref_mapping (class_defaults σ) m))
                  (instance_settings ss kw)).
  { constructor; [|done]. cbn. unfold dict_merge.
    by rewrite (right_id_L ∅ (∪)). }
  assert (Hin : Defaults Assemblable ∈ instance_settings ss kw)
    by (by apply list_elem_of_further).
  destruct (chain_get_present (class_defaults σ) _ _ "list_type" Hin) as [lt Hlt].
  { cbn. exists (VType AssembleList).
    by apply (lookup_weaken _ _ _ _ (eq_refl : declared_defaults Assemblable
                !! "list_type" = Some (VType AssembleList))). }
  destruct (chain_get_present (class_defaults σ) _ _ "initial_list" Hin) as [il Hil].
  { cbn. exists (VList []).
    by apply (lookup_weaken _ _ _ _ (eq_refl : declared_defaults Assemblable
                !! "initial_list" = Some (VList []))). }
  destruct (typed_list_type lt) as [t ->]; [by eapply chain_get_typed|].
  destruct (typed_initial_list il) as [l ->]; [by eapply chain_get_typed|].
  exists t, l. by apply Assemblable_init_run.
Qed.

(** ** The name grammars *)

Lemma fullmatch_Cat_Empty r s : fullmatch (Cat Empty r) s = false.
Proof. induction s as [|c s IH]; [done|]. cbn. apply IH. Qed.

Lemma fullmatch_Alt r1 r2 s :
  fullmatch (Alt r1 r2) s = fullmatch r1 s || fullmatch r2 s.
Proof.
  revert r1 r2. induction s as [|c s IH]; intros r1 r2; [done|].
  cbn. apply IH.
Qed.

Lemma fullmatch_Star_Class q s :
  fullmatch (Cat Eps (Star (Class q))) s = forallb q (list_ascii_of_string s).
Proof.
  induction s as [|c s IH]; [done|].
  cbn. rewrite fullmatch_Alt, fullmatch_Cat_Empty. cbn.
  destruct (q c); cbn; [apply IH | apply fullmatch_Cat_Empty].
Qed.

Lemma fullmatch_first_rest p q s :
  fullmatch (Cat (Class p) (Star (Class q))) s = true ↔ in_grammar p q s.
Proof.
  unfold in_grammar. split.
  - destruct s as [|c s]; [done|]. cbn.
    destruct (p c) eqn:Hp; [|by rewrite fullmatch_Cat_Empty].
    rewrite fullmatch_Star_Class. intros Hq. exists c, s. split_and!; [done..|].
    apply Forall_forall. intros x Hx. rewrite forallb_forall in Hq.
    by apply Hq, list_elem_of_In.
  - intros (c & s' & -> & Hp & Hq). cbn. rewrite Hp.
    rewrite fullmatch_Star_Class. apply forallb_forall. intros x Hx.
    rewrite Forall_forall in Hq. by apply Hq, list_elem_of_In.
Qed.

Lemma validate_latex_control_word_None name :
  validate_latex_control_word name = None
  ↔ in_grammar letter control_word_char name.
Proof.
  unfold validate_latex_control_word. rewrite <- fullmatch_first_rest.
  destruct name as [|c s]; [done|].
  change (String.eqb (String c s) "") with false. cbv iota.
  destruct (fullmatch control_word_re (String c s)) eqn:E; unfold control_word_re in E;
    rewrite E; done.
Qed.

Lemma validate_environment_name_None name :
  validate_environment_name name = None
  ↔ in_grammar letter environment_name_char name.
Proof.
  unfold validate_environment_name. rewrite <- fullmatch_first_rest.
  destruct name as [|c s]; [done|].
  change (String.eqb (String c s) "") with false. cbv iota.
  destruct (fullmatch environment_name_re (String c s)) eqn:E;
    unfold environment_name_re in E; rewrite E; done.
Qed.

(** ** [DocumentPart.__init__] and the initialisers above it *)

Lemma DocumentPart_init_run self c ss p kw σ :
  declares_defaults c = true →
  DocumentPart_init self c ss p kw σ
  = Assemblable_init self c
      (Own (options_filter kw (Options_annotations Assemblable)).2 :: ss) p
      (options_filter kw (Options_annotations Assemblable)).1
      (set_class_defaults
         (store_default (class_defaults σ) c "pipeline"
            (VPipeline [p_join self; p_wrap self])) σ).
Proof.
  intros Hc. unfold DocumentPart_init.
  by rewrite (bind_inr _ _ _ _ _ (set_default_run c _ _ σ Hc)).
Qed.

Lemma merged_name (defs kw : dict) n :
  dict_merge defs (<["name" := VStr n]> kw) !! "name" = Some (VStr n).
Proof.
  unfold dict_merge. apply lookup_union_Some_l. apply lookup_insert_eq.
Qed.

Lemma merged_other (defs kw : dict) n k :
  k ≠ "name" →
  dict_merge defs (<["name" := VStr n]> kw) !! k = dict_merge defs kw !! k.
Proof.
  intros Hk. unfold dict_merge. rewrite !lookup_union.
  by rewrite lookup_insert_ne.
Qed.

(** The three outcomes of [NewCommand.validate_and_update]. *)
Lemma NewCommand_validate_bad_name c kw name e σ :
  kw !! "name" = Some (VStr name) →
  is_Some (kw !! "nargs") → is_Some (kw !! "default") →
  validate_latex_control_word name = Some e →
  NewCommand_validate_and_update c kw σ = (σ, inl (ValueError e)).
Proof.
  intros Hn [nargs Hna] [d Hd] Hv.
  unfold NewCommand_validate_and_update, keyword, bind, ret, raise.
  rewrite Hn, Hna, Hd. cbn. by rewrite Hv.
Qed.

Lemma NewCommand_validate_bad_nargs c kw name n σ :
  kw !! "name" = Some (VStr name) →
  kw !! "nargs" = Some (VInt n) → is_Some (kw !! "default") →
  validate_latex_control_word name = None →
  n < 0 ∨ 9 < n →
  NewCommand_validate_and_update c kw σ
  = (σ, inl (ValueError (NargsOutOfRange n))).
Proof.
  intros Hn Hna [d Hd] Hv Hrange.
  unfold NewCommand_validate_and_update, keyword, bind, ret, raise.
  rewrite Hn, Hna, Hd. cbn. rewrite Hv.
  assert ((n <? 0) || (9 <? n) = true) as ->; [|done].
  apply orb_true_iff. rewrite !Z.ltb_lt. lia.
Qed.

Lemma NewCommand_validate_good c kw name n d σ :
  declares_defaults c = true →
  kw !! "name" = Some (VStr name) →
  kw !! "nargs" = Some (VInt n) → kw !! "default" = Some d →
  validate_latex_control_word name = None →
  0 ≤ n ≤ 9 → is_opt_str d = true →
  NewCommand_validate_and_update c kw σ
  = (set_class_defaults
       (store_default (class_defaults σ) c "prolog"
          (VStr (NewCommand_prolog name n d))) σ, inr ()).
Proof.
  intros Hc Hn Hna Hd Hv Hrange Hopt.
  unfold NewCommand_validate_and_update, keyword, bind, ret, raise.
  rewrite Hn, Hna, Hd. cbn. rewrite Hv.
  assert ((n <? 0) || (9 <? n) = false) as ->.
  { apply orb_false_iff. rewrite !Z.ltb_ge. lia. }
  rewrite Hopt. by apply set_default_run.
Qed.

(** The two outcomes of [Environment.validate_and_update]. *)
Lemma Environment_validate_bad_name c kw name e σ :
  kw !! "name" = Some (VStr name) →
  is_Some (kw !! "args") → is_Some (kw !! "ops") →
  validate_environment_name name = Some e →
  Environment_validate_and_update c kw σ = (σ, inl (ValueError e)).
Proof.
  intros Hn [a Ha] [o Ho] Hv.
  unfold Environment_validate_and_update, keyword, bind, ret, raise.
  rewrite Hn, Ha, Ho. cbn. by rewrite Hv.
Qed.

Lemma Environment_validate_good c kw name a o σ :
  declares_defaults c = true →
  kw !! "name" = Some (VStr name) →
  kw !! "args" = Some a → kw !! "ops" = Some o →
  validate_environment_name name = None →
  is_opt_str a = true → is_opt_str o = true →
  Environment_validate_and_update c kw σ
  = (set_class_defaults
       (store_default
          (store_default (class_defaults σ) c "prolog"
             (VStr (Environment_prolog name a o)))
          c "epilog" (VStr (Environment_epilog name))) σ, inr ()).
Proof.
  intros Hc Hn Ha Ho Hv Hoa Hoo.
  unfold Environment_validate_and_update, keyword, bind, ret, raise.
  rewrite Hn, Ha, Ho. cbn. rewrite Hv, Hoo, Hoa. cbn.
  rewrite (set_default_run c "prolog" _ σ Hc).
  by rewrite set_default_run.
Qed.

Lemma NewCommand_init_bad_name self p name kw σ e :
  is_Some (dict_merge (class_defaults σ NewCommand) kw !! "nargs") →
  is_Some (dict_merge (class_defaults σ NewCommand) kw !! "default") →
  validate_latex_control_word name = Some e →
  NewCommand_init self p name kw σ = (σ, inl (ValueError e)).
Proof.
  intros Hn Hd Hv. unfold NewCommand_init.
  rewrite (bind_inr _ _ _ _ _ (get_defaults_run NewCommand σ eq_refl)).
  apply bind_inl. apply (NewCommand_validate_bad_name _ _ name);
    rewrite ?merged_name, ?merged_other; done.
Qed.

Lemma NewCommand_init_bad_nargs self p name kw σ n :
  dict_merge (class_defaults σ NewCommand) kw !! "nargs" = Some (VInt n) →
  is_Some (dict_merge (class_defaults σ NewCommand) kw !! "default") →
  validate_latex_control_word name = None →
  n < 0 ∨ 9 < n →
  NewCommand_init self p name kw σ = (σ, inl (ValueError (NargsOutOfRange n))).
Proof.
  intros Hn Hd Hv Hr. unfold NewCommand_init.
  rewrite (bind_inr _ _ _ _ _ (get_defaults_run NewCommand σ eq_refl)).
  apply bind_inl. apply (NewCommand_validate_bad_nargs _ _ name);
    rewrite ?merged_name, ?merged_other; done.
Qed.

Lemma NewCommand_init_valid self p name kw σ n d :
  dict_merge (class_defaults σ NewCommand) kw !! "nargs" = Some (VInt n) →
  dict_merge (class_defaults σ NewCommand) kw !! "default" = Some d →
  validate_latex_control_word name = None →
  0 ≤ n ≤ 9 → is_opt_str d = true →
  NewCommand_init self p name kw σ
  = Assemblable_init self NewCommand
      (Own (options_filter
              (options_filter (<["name" := VStr name]> kw)
                 (Options_annotations DocumentPart)).1
              (Options_annotations Assemblable)).2
       :: Own (options_filter (<["name" := VStr name]> kw)
                 (Options_annotations DocumentPart)).2
       :: class_settings NewCommand) p
      (options_filter
         (options_filter (<["name" := VStr name]> kw)
            (Options_annotations DocumentPart)).1
         (Options_annotations Assemblable)).1
      (set_class_defaults
         (store_default
            (store_default (class_defaults σ) NewCommand "prolog"
               (VStr (NewCommand_prolog name n d)))
            NewCommand "pipeline" (VPipeline [p_join self; p_wrap self])) σ).
Proof.
  intros Hn Hd Hv Hr Ho. unfold NewCommand_init.
  rewrite (bind_inr _ _ _ _ _ (get_defaults_run NewCommand σ eq_refl)).
  erewrite bind_inr; last first.
  { apply (NewCommand_validate_good _ _ name n d);
      rewrite ?merged_name, ?merged_other; done. }
  unfold options_filter. cbn [fst snd]. by rewrite DocumentPart_init_run.
Qed.

Lemma Environment_init_bad_name self p name kw σ e :
  is_Some (dict_merge (class_defaults σ Environment) kw !! "args") →
  is_Some (dict_merge (class_defaults σ Environment) kw !! "ops") →
  validate_environment_name name = Some e →
  Environment_init self p name kw σ = (σ, inl (ValueError e)).
Proof.
  intros Ha Ho Hv. unfold Environment_init.
  rewrite (bind_inr _ _ _ _ _ (get_defaults_run Environment σ eq_refl)).
  apply bind_inl. apply (Environment_validate_bad_name _ _ name);
    rewrite ?merged_name, ?merged_other; done.
Qed.

Lemma Environment_init_valid self p name kw σ a o :
  dict_merge (class_defaults σ Environment) kw !! "args" = Some a →
  dict_merge (class_defaults σ Environment) kw !! "ops" = Some o →
  validate_environment_name name = None →
  is_opt_str a = true → is_opt_str o = true →
  Environment_init self p name kw σ
  = Assemblable_init self Environment
      (Own (options_filter
              (options_filter (<["name" := VStr name]> kw)
                 (Options_annotations DocumentPart)).1
              (Options_annotations Assemblable)).2
       :: Own (options_filter (<["name" := VStr name]> kw)
                 (Options_annotations DocumentPart)).2
       :: class_settings Environment) p
      (options_filter
         (options_filter (<["name" := VStr name]> kw)
            (Options_annotations DocumentPart)).1
         (Options_annotations Assemblable)).1
      (set_class_defaults
         (store_default
            (store_default
               (store_default (class_defaults σ) Environment "prolog"
                  (VStr (Environment_prolog name a o)))
               Environment "epilog" (VStr (Environment_epilog name)))
            Environment "pipeline" (VPipeline [p_join self; p_wrap self])) σ).
Proof.
  intros Ha Ho Hv Hoa Hoo. unfold Environment_init.
  rewrite (bind_inr _ _ _ _ _ (get_defaults_run Environment σ eq_refl)).
  erewrite bind_inr; last first.
  { apply (Environment_validate_good _ _ name a o);
      rewrite ?merged_name, ?merged_other; done. }
  unfold options_filter. cbn [fst snd]. by rewrite DocumentPart_init_run.
Qed.

(** The chain of an instance, looked up: the keyword arguments first, in
    whichever layer the initialisers have put them, then the class chain. *)
Lemma chain_get_two_splits (defs : pyclass -> dict) (cm : ChainMap pyclass)
    (kw : dict) s1 s2 k :
  chain_get defs
    (instance_settings
       (Own (options_filter (options_filter kw s1).1 s2).2
        :: Own (options_filter kw s1).2 :: cm)
       (options_filter (options_filter kw s1).1 s2).1) k
  = match kw !! k with Some v => inr v | None => chain_get defs cm k end.
Proof.
  rewrite chain_get_split, chain_get_cons. cbn [deref_mapping].
  rewrite options_filter_claimed, options_filter_unclaimed.
  case_decide; destruct (kw !! k); done.
Qed.

Lemma chain_get_class_settings defs c k :
  chain_get defs (class_settings c) k
  = match most_derived_default mro HasOptions declares_defaults defs (mro c) k with
    | Some v => inr v
    | None => inl (KeyError k)
    end.
Proof. apply chain_get_fold_ladder. Qed.

Lemma class_settings_typed σ c :
  defaults_ok σ →
  Forall (λ m, typed_dict (deref_mapping (class_defaults σ) m)) (class_settings c).
Proof.
  intros Hok.
  assert (Hd : ∀ c', typed_dict (deref_mapping (class_defaults σ) (Defaults c')))
    by (intros c'; apply Hok).
  assert (He : typed_dict (deref_mapping (class_defaults σ) (Own ∅)))
    by (intros k v; cbn; by rewrite lookup_empty).
  destruct c; repeat constructor; auto.
Qed.

Lemma class_settings_has_Assemblable c :
  Assemblable ∈ mro c → Defaults Assemblable ∈ class_settings c.
Proof.
  destruct c; intros Hc.
  1-2: repeat (apply elem_of_cons in Hc as [?|Hc]; [done|]);
       by apply elem_of_nil in Hc.
  - rewrite class_settings_Assemblable. apply list_elem_of_here.
  - rewrite class_settings_DocumentPart.
    apply list_elem_of_further, list_elem_of_here.
  - rewrite class_settings_NewCommand.
    do 2 apply list_elem_of_further. apply list_elem_of_here.
  - rewrite class_settings_Environment.
    do 2 apply list_elem_of_further. apply list_elem_of_here.
Qed.

(** ** Calling a class *)

Lemma construct_returns (init : iid -> M scope) σ σ1 s :
  init (length (scopes σ)) σ = (σ1, inr s) →
  construct init σ = (set_scopes (scopes σ1 ++ [s]) σ1, inr (length (scopes σ))).
Proof. unfold construct. by intros ->. Qed.

Lemma construct_raises (init : iid -> M scope) σ σ1 e :
  init (length (scopes σ)) σ = (σ1, inl e) →
  construct init σ = (σ1, inl e).
Proof. unfold construct. by intros ->. Qed.

Lemma construct_inv (init : iid -> M scope) σ σ' out :
  construct init σ = (σ', out) →
  (∃ e, init (length (scopes σ)) σ = (σ', inl e) ∧ out = inl e)
  ∨ (∃ σ1 s, init (length (scopes σ)) σ = (σ1, inr s)
             ∧ σ' = set_scopes (scopes σ1 ++ [s]) σ1
             ∧ out = inr (length (scopes σ))).
Proof.
  unfold construct. destruct (init _ σ) as [σ1 [e|s]]; intros [= <- <-]; eauto 10.
Qed.

(** ** All outcomes of the initialisers *)

Lemma Assemblable_init_inv self c ss p kw σ σ' s :
  Assemblable_init self c ss p kw σ = (σ', inr s) →
  ∃ t il,
    σ' = set_lists (lists σ ++ [{| kind := t; context := Some self; items := il |}]) σ
    ∧ s = {| cls := c; settings := instance_settings ss kw; _result := None;
             _parent := p; data := length (lists σ) |}.
Proof.
  unfold Assemblable_init, settings_get, bind, reading.
  destruct (chain_get _ _ "list_type") as [?|lt]; [done|].
  destruct (chain_get _ _ "initial_list") as [?|il]; [done|].
  destruct lt, il as [| | | |il|]; try done.
  unfold new_list, ret. intros [= <- <-]. exists t, il. by destruct il.
Qed.

Lemma Assemblable_init_no_KeyError self c ss p kw σ σ' e :
  Defaults Assemblable ∈ ss →
  declared_defaults Assemblable ⊆ class_defaults σ Assemblable →
  Assemblable_init self c ss p kw σ = (σ', inl e) → e = TypeError.
Proof.
  intros Hin Hdecl Hrun.
  assert (Hin' : Defaults Assemblable ∈ instance_settings ss kw)
    by (by apply list_elem_of_further).
  destruct (chain_get_present (class_defaults σ) _ _ "list_type" Hin') as [lt Hlt].
  { cbn. exists (VType AssembleList).
    by apply (lookup_weaken _ _ _ _ (eq_refl : declared_defaults Assemblable
                !! "list_type" = Some (VType AssembleList))). }
  destruct (chain_get_present (class_defaults σ) _ _ "initial_list" Hin') as [il Hil].
  { cbn. exists (VList []).
    by apply (lookup_weaken _ _ _ _ (eq_refl : declared_defaults Assemblable
                !! "initial_list" = Some (VList []))). }
  revert Hrun. unfold Assemblable_init, settings_get, bind, reading.
  rewrite Hlt, Hil. destruct lt, il; cbn; by intros [= <- <-].
Qed.

(** [NewCommand.validate_and_update] raises before it writes, and what it
    raises is a [ValueError] or comes from an ill-typed argument; when it
    returns it has stored a prolog. *)
Lemma NewCommand_validate_cases c kw σ :
  declares_defaults c = true →
  (∃ e, NewCommand_validate_and_update c kw σ = (σ, inl e)
        ∧ (is_ValueError e = true ∨ e = TypeError))
  ∨ (∃ v, NewCommand_validate_and_update c kw σ
          = (set_class_defaults
               (store_default (class_defaults σ) c "prolog" (VStr v)) σ, inr ())).
Proof.
  intros Hc. unfold NewCommand_validate_and_update, keyword, bind, ret, raise.
  destruct (kw !! "name") as [vn|]; [|left; eauto].
  destruct (kw !! "nargs") as [va|]; [|left; eauto].
  destruct (kw !! "default") as [vd|]; [|left; eauto].
  destruct vn as [|nm| | | |]; try (left; by eauto).
  destruct (validate_latex_control_word nm); [left; by eauto|].
  destruct va as [| |n| | |]; try (left; by eauto).
  destruct ((n <? 0) || (9 <? n)); [left; by eauto|].
  destruct (is_opt_str vd); [|left; by eauto].
  right. eexists. by apply set_default_run.
Qed.

Lemma Environment_validate_cases c kw σ :
  declares_defaults c = true →
  (∃ e, Environment_validate_and_update c kw σ = (σ, inl e)
        ∧ (is_ValueError e = true ∨ e = TypeError))
  ∨ (∃ v w, Environment_validate_and_update c kw σ
            = (set_class_defaults
                 (store_default
                    (store_default (class_defaults σ) c "prolog" (VStr v))
                    c "epilog" (VStr w)) σ, inr ())).
Proof.
  intros Hc. unfold Environment_validate_and_update, keyword, bind, ret, raise.
  destruct (kw !! "name") as [vn|]; [|left; eauto].
  destruct (kw !! "args") as [va|]; [|left; eauto].
  destruct (kw !! "ops") as [vo|]; [|left; eauto].
  destruct vn as [|nm| | | |]; try (left; by eauto).
  destruct (validate_environment_name nm); [left; by eauto|].
  destruct (is_opt_str vo && is_opt_str va); [|left; by eauto].
  right. do 2 eexists. rewrite (set_default_run c "prolog" _ σ Hc).
  by rewrite set_default_run.
Qed.

(** ** What a call does to the state *)

Lemma store_keeps_declared (defs : pyclass -> dict) c key v c' :
  declared_defaults c !! key = None →
  declared_defaults c' ⊆ defs c' →
  declared_defaults c' ⊆ store_default defs c key v c'.
Proof.
  intros Hnew Hsub. destruct (decide (c' = c)) as [->|Hne].
  - rewrite store_default_eq. by apply insert_subseteq_r.
  - by rewrite store_default_ne.
Qed.

Lemma store_keeps_typed (defs : pyclass -> dict) c key v c' :
  typed key v = true →
  typed_dict (defs c') → typed_dict (store_default defs c key v c').
Proof.
  intros Hv Hty. destruct (decide (c' = c)) as [->|Hne].
  - rewrite store_default_eq. by apply typed_dict_insert.
  - by rewrite store_default_ne.
Qed.

Lemma written_refl P defs : written P defs defs.
Proof. split_and!; by eauto. Qed.

Lemma written_store P defs defs' c key v :
  written P defs defs' → c ≠ Assemblable →
  typed key v = true → declared_defaults c !! key = None → P v →
  written P defs (store_default defs' c key v).
Proof.
  intros (Hd & Ht & HA & Hv') Hc Hv Hnew HP. split_and!.
  - intros c' Hsub. by apply store_keeps_declared, Hd.
  - intros c' Hty. by apply store_keeps_typed, Ht.
  - by rewrite store_default_ne.
  - intros c' k w. destruct (decide (c' = c)) as [->|Hne].
    + rewrite store_default_eq, lookup_insert. case_decide; [|by apply Hv'].
      intros [= <-]. by right.
    + rewrite store_default_ne by done. apply Hv'.
Qed.

Lemma written_defaults_ok P σ σ' :
  written P (class_defaults σ) (class_defaults σ') →
  defaults_ok σ → defaults_ok σ'.
Proof. intros (Hd & Ht & _) Hok c. destruct (Hok c). split; auto. Qed.


(** The tail shared by the four calls: [Assemblable.__init__] run after the
    class dictionaries have been written. *)
Lemma construct_tail_outcome (call_ : call) (init : iid -> M scope)
    σ σ' out defs1 ss kw :
  construct init σ = (σ', out) →
  init (length (scopes σ)) σ
  = Assemblable_init (length (scopes σ)) (call_class call_) ss
      (call_parent call_) kw (set_class_defaults defs1 σ) →
  written (new_value call_ (length (scopes σ))) (class_defaults σ) defs1 →
  Defaults Assemblable ∈ ss →
  (∀ defs k, chain_get defs (instance_settings ss kw) k
             = match call_overrides call_ !! k with
               | Some v => inr v
               | None => chain_get defs (class_settings (call_class call_)) k
               end) →
  written (new_value call_ (length (scopes σ)))
    (class_defaults σ) (class_defaults σ')
  ∧ ((∃ e, out = inl e ∧ lists σ' = lists σ ∧ scopes σ' = scopes σ
           ∧ is_ValueError e = false
           ∧ (declared_defaults Assemblable ⊆ class_defaults σ Assemblable →
              e = TypeError))
     ∨ (∃ s, out = inr (length (scopes σ)) ∧ created call_ σ σ' s)).
Proof.
  intros Hrun Hinit Hw Hin Hget.
  apply construct_inv in Hrun as [(e & Hrun & ->)|(σ1 & s & Hrun & -> & ->)];
    rewrite Hinit in Hrun.
  - pose proof Hrun as Hrun'.
    apply Assemblable_init_raises in Hrun as [-> Hkind]. split; [done|].
    left. exists e. split_and!; [done..| |].
    { by destruct Hkind as [->|[->| ->]]. }
    intros Hdecl.
    apply (Assemblable_init_no_KeyError _ _ _ _ _ _ _ _ Hin) in Hrun'; [done|].
    destruct Hw as (Hd & _). by apply (Hd Assemblable).
  - apply Assemblable_init_inv in Hrun as (t & il & -> & ->). split; [done|].
    right. eexists. split; [done|]. unfold created. cbn. split_and!; try done.
    eexists. by split.
Qed.

Lemma call_outcome_of_tail c σ σ' out :
  written (new_value c (length (scopes σ))) (class_defaults σ) (class_defaults σ')
  ∧ ((∃ e, out = inl e ∧ lists σ' = lists σ ∧ scopes σ' = scopes σ
           ∧ is_ValueError e = false
           ∧ (declared_defaults Assemblable ⊆ class_defaults σ Assemblable →
              e = TypeError))
     ∨ (∃ s, out = inr (length (scopes σ)) ∧ created c σ σ' s)) →
  call_outcome c σ σ' out.
Proof.
  intros [Hw [(e & -> & Hl & Hs & Hnv & Hte)|Hret]]; (split; [done|]);
    [left|by right].
  exists e. split_and!; try done.
  - by rewrite Hnv.
  - intros Hd. right. by apply Hte.
Qed.

(** ** Binding the arguments of a call *)

Lemma bound_call {A} c kw (m : M A) σ :
  keywords_bind c kw = true → (bind_arguments c kw;; m) σ = m σ.
Proof. intros H. unfold bind, bind_arguments. by rewrite H. Qed.

Lemma unbound_call {A} c kw (m : M A) σ :
  keywords_bind c kw = false → (bind_arguments c kw;; m) σ = (σ, inl TypeError).
Proof. intros H. unfold bind, bind_arguments. by rewrite H. Qed.

Lemma keywords_bind_lookup c kw k :
  keywords_bind c kw = true → k ∈ parameters c → kw !! k = None.
Proof.
  unfold keywords_bind. rewrite forallb_forall. intros H Hk.
  apply list_elem_of_In in Hk. by apply H, bool_decide_eq_true in Hk.
Qed.

Lemma keywords_bind_empty c : keywords_bind c ∅ = true.
Proof. by destruct c. Qed.

Lemma keywords_bind_insert c kw k v :
  k ∉ parameters c → keywords_bind c kw = true →
  keywords_bind c (<[k := v]> kw) = true.
Proof.
  unfold keywords_bind. rewrite !forallb_forall. intros Hk H x Hx.
  apply bool_decide_eq_true_2. rewrite lookup_insert_ne.
  - by apply (bool_decide_eq_true_1 _), H.
  - intros ->. by apply Hk, list_elem_of_In.
Qed.

(** A call whose arguments do not bind raises and changes nothing. *)
Lemma bound_outcome c kw (m : M iid) call_ σ σ' out :
  (bind_arguments c kw;; m) σ = (σ', out) →
  (m σ = (σ', out) → call_outcome call_ σ σ' out) →
  call_outcome call_ σ σ' out.
Proof.
  destruct (keywords_bind c kw) eqn:Hb.
  - rewrite bound_call by done. auto.
  - rewrite unbound_call by done. intros [= <- <-] _.
    split; [apply written_refl|]. left. exists TypeError.
    split_and!; try done. by right.
Qed.

Lemma new_Assemblable_outcome p kw σ σ' out :
  new_Assemblable p kw σ = (σ', out) →
  call_outcome (CallAssemblable p kw) σ σ' out.
Proof.
  intros Hrun0. apply (bound_outcome _ _ _ _ _ _ _ Hrun0). clear Hrun0.
  intros Hrun. apply call_outcome_of_tail.
  eapply (construct_tail_outcome (CallAssemblable p kw) _ _ _ _
            (class_defaults σ) (class_settings Assemblable) kw);
    [exact Hrun| | | |].
  - by destruct σ.
  - apply written_refl.
  - by apply class_settings_has_Assemblable, list_elem_of_here.
  - intros defs k. apply chain_get_instance.
Qed.

Lemma new_DocumentPart_outcome p kw σ σ' out :
  new_DocumentPart p kw σ = (σ', out) →
  call_outcome (CallDocumentPart p kw) σ σ' out.
Proof.
  intros Hrun0. apply (bound_outcome _ _ _ _ _ _ _ Hrun0). clear Hrun0.
  intros Hrun. apply call_outcome_of_tail.
  eapply (construct_tail_outcome (CallDocumentPart p kw)); [exact Hrun| | | |].
  - by apply DocumentPart_init_run.
  - apply written_store; [apply written_refl|done..|].
    right. split; [done|in_list].
  - apply list_elem_of_further.
    apply class_settings_has_Assemblable.
    apply list_elem_of_further, list_elem_of_here.
  - intros defs k. apply chain_get_split.
Qed.

Lemma new_NewCommand_outcome p nm kw σ σ' out :
  new_NewCommand p nm kw σ = (σ', out) →
  call_outcome (CallNewCommand p nm kw) σ σ' out.
Proof.
  intros Hrun0. apply (bound_outcome _ _ _ _ _ _ _ Hrun0). clear Hrun0.
  intros Hrun.
  destruct (NewCommand_validate_cases NewCommand
              (dict_merge (class_defaults σ NewCommand) (<["name" := VStr nm]> kw))
              σ eq_refl) as [(e & He & Hkind)|(v & Hv)].
  - assert (Hinit : NewCommand_init (length (scopes σ)) p nm kw σ = (σ, inl e)).
    { unfold NewCommand_init.
      rewrite (bind_inr _ _ _ _ _ (get_defaults_run NewCommand σ eq_refl)).
      by apply bind_inl. }
    rewrite (construct_raises _ _ _ _ Hinit) in Hrun. simplify_eq.
    split; [apply written_refl|]. left. exists e. by split_and!.
  - apply call_outcome_of_tail.
    eapply (construct_tail_outcome (CallNewCommand p nm kw)); [exact Hrun| | | |].
    + unfold NewCommand_init.
      rewrite (bind_inr _ _ _ _ _ (get_defaults_run NewCommand σ eq_refl)).
      rewrite (bind_inr _ _ _ _ _ Hv).
      unfold options_filter. cbn [fst snd]. by rewrite DocumentPart_init_run.
    + cbn [class_defaults set_class_defaults].
      apply written_store; [|done..|right; split; [done|in_list]].
      apply written_store; [apply written_refl|done..|left; by eauto].
    + do 2 apply list_elem_of_further.
      apply class_settings_has_Assemblable.
      do 2 apply list_elem_of_further. apply list_elem_of_here.
    + intros defs k. apply chain_get_two_splits.
Qed.

Lemma new_Environment_outcome p nm kw σ σ' out :
  new_Environment p nm kw σ = (σ', out) →
  call_outcome (CallEnvironment p nm kw) σ σ' out.
Proof.
  intros Hrun0. apply (bound_outcome _ _ _ _ _ _ _ Hrun0). clear Hrun0.
  intros Hrun.
  destruct (Environment_validate_cases Environment
              (dict_merge (class_defaults σ Environment) (<["name" := VStr nm]> kw))
              σ eq_refl) as [(e & He & Hkind)|(v & w & Hv)].
  - assert (Hinit : Environment_init (length (scopes σ)) p nm kw σ = (σ, inl e)).
    { unfold Environment_init.
      rewrite (bind_inr _ _ _ _ _ (get_defaults_run Environment σ eq_refl)).
      by apply bind_inl. }
    rewrite (construct_raises _ _ _ _ Hinit) in Hrun. simplify_eq.
    split; [apply written_refl|]. left. exists e. by split_and!.
  - apply call_outcome_of_tail.
    eapply (construct_tail_outcome (CallEnvironment p nm kw)); [exact Hrun| | | |].
    + unfold Environment_init.
      rewrite (bind_inr _ _ _ _ _ (get_defaults_run Environment σ eq_refl)).
      rewrite (bind_inr _ _ _ _ _ Hv).
      unfold options_filter. cbn [fst snd]. by rewrite DocumentPart_init_run.
    + cbn [class_defaults set_class_defaults].
      apply written_store; [|done..|right; split; [done|in_list]].
      apply written_store; [|done..|left; by eauto].
      apply written_store; [apply written_refl|done..|left; by eauto].
    + do 2 apply list_elem_of_further.
      apply class_settings_has_Assemblable.
      do 2 apply list_elem_of_further. apply list_elem_of_here.
    + intros defs k. apply chain_get_two_splits.
Qed.

(** Every call raises without touching lists and scopes, or creates one
    scope; either way the class dictionaries stay in order. *)
Lemma run_call_outcome c σ σ' out :
  run_call c σ = (σ', out) → call_outcome c σ σ' out.
Proof.
  destruct c; cbn [run_call].
  - apply new_Assemblable_outcome.
  - apply new_DocumentPart_outcome.
  - apply new_NewCommand_outcome.
  - apply new_Environment_outcome.
Qed.

(** ** Options as a call sees them: keyword argument, else class default *)

Lemma merged_lookup_typed σ c kw k :
  defaults_ok σ → typed_dict kw → is_Some (declared_defaults c !! k) →
  ∃ v, dict_merge (class_defaults σ c) kw !! k = Some v ∧ typed k v = true.
Proof.
  intros Hok Hkw [v0 Hdecl]. destruct (Hok c) as [Hsub Hty].
  pose proof (lookup_weaken _ _ _ _ Hdecl Hsub) as Hdef.
  unfold dict_merge. rewrite lookup_union.
  destruct (kw !! k) as [v|] eqn:E; rewrite Hdef; cbn; eauto.
Qed.

Lemma defaults_ok_written P σ defs1 :
  defaults_ok σ → written P (class_defaults σ) defs1 →
  defaults_ok (set_class_defaults defs1 σ).
Proof. intros Hok Hw. by eapply (written_defaults_ok P). Qed.

(** A call of [NewCommand] with a name of the grammar, an argument count in
    range and typed options returns a scope, and has stored its prolog. *)
Lemma new_NewCommand_valid σ p nm kw n d :
  defaults_ok σ → typed_dict kw → keywords_bind NewCommand kw = true →
  validate_latex_control_word nm = None →
  dict_merge (class_defaults σ NewCommand) kw !! "nargs" = Some (VInt n) →
  0 ≤ n ≤ 9 →
  dict_merge (class_defaults σ NewCommand) kw !! "default" = Some d →
  is_opt_str d = true →
  ∃ σ' s, new_NewCommand p nm kw σ = (σ', inr (length (scopes σ)))
          ∧ created (CallNewCommand p nm kw) σ σ' s
          ∧ class_defaults σ' NewCommand !! "prolog"
            = Some (VStr (NewCommand_prolog nm n d)).
Proof.
  intros Hok Hkw Hb Hv Hn Hr Hd Hod.
  pose proof (NewCommand_init_valid (length (scopes σ)) p nm kw σ n d
                Hn Hd Hv Hr Hod) as Hinit.
  set (defs2 := store_default (store_default _ _ _ _) _ _ _) in Hinit.
  assert (Hw : written (λ _, True) (class_defaults σ) defs2)
    by (do 2 (apply written_store; [|done..]); apply written_refl).
  pose proof (defaults_ok_written _ σ defs2 Hok Hw) as Hok2.
  assert (Hkw' : typed_dict (<["name" := VStr nm]> kw))
    by (by apply typed_dict_insert).
  edestruct (Assemblable_init_returns (length (scopes σ)) NewCommand) as (t & il & Hret);
    [| | |
     |rewrite Hret in Hinit].
  5: { pose proof (construct_returns (λ self, NewCommand_init self p nm kw)
                     σ _ _ Hinit) as Hrun.
       rewrite <- (bound_call NewCommand kw _ σ Hb) in Hrun.
       fold (new_NewCommand p nm kw) in Hrun.
       pose proof (new_NewCommand_outcome _ _ _ _ _ _ Hrun)
         as [_ [(e & ? & _)|(s & _ & Hcr)]]; [done|].
       eexists _, s. split_and!; [done..|]. cbn. unfold defs2.
       rewrite store_default_eq, lookup_insert_ne by done.
       by rewrite store_default_eq, lookup_insert_eq. }
  - repeat (constructor; [by repeat apply typed_dict_filter|]).
    by apply class_settings_typed.
  - do 2 apply list_elem_of_further.
    apply class_settings_has_Assemblable.
    do 2 apply list_elem_of_further. apply list_elem_of_here.
  - apply Hok2.
  - by repeat apply typed_dict_filter.
Qed.

Lemma new_Environment_valid σ p nm kw a o :
  defaults_ok σ → typed_dict kw → keywords_bind Environment kw = true →
  validate_environment_name nm = None →
  dict_merge (class_defaults σ Environment) kw !! "args" = Some a →
  is_opt_str a = true →
  dict_merge (class_defaults σ Environment) kw !! "ops" = Some o →
  is_opt_str o = true →
  ∃ σ' s, new_Environment p nm kw σ = (σ', inr (length (scopes σ)))
          ∧ created (CallEnvironment p nm kw) σ σ' s
          ∧ class_defaults σ' Environment !! "prolog"
            = Some (VStr (Environment_prolog nm a o))
          ∧ class_defaults σ' Environment !! "epilog"
            = Some (VStr (Environment_epilog nm)).
Proof.
  intros Hok Hkw Hb Hv Ha Hoa Ho Hoo.
  pose proof (Environment_init_valid (length (scopes σ)) p nm kw σ a o
                Ha Ho Hv Hoa Hoo) as Hinit.
  set (defs2 := store_default (store_default (store_default _ _ _ _) _ _ _) _ _ _)
    in Hinit.
  assert (Hw : written (λ _, True) (class_defaults σ) defs2)
    by (do 3 (apply written_store; [|done..]); apply written_refl).
  pose proof (defaults_ok_written _ σ defs2 Hok Hw) as Hok2.
  assert (Hkw' : typed_dict (<["name" := VStr nm]> kw))
    by (by apply typed_dict_insert).
  edestruct (Assemblable_init_returns (length (scopes σ)) Environment) as (t & il & Hret);
    [| | |
     |rewrite Hret in Hinit].
  5: { pose proof (construct_returns (λ self, Environment_init self p nm kw)
                     σ _ _ Hinit) as Hrun.
       rewrite <- (bound_call Environment kw _ σ Hb) in Hrun.
       fold (new_Environment p nm kw) in Hrun.
       pose proof (new_Environment_outcome _ _ _ _ _ _ Hrun)
         as [_ [(e & ? & _)|(s & _ & Hcr)]]; [done|].
       eexists _, s. split_and!; [done..| |]; cbn; unfold defs2.
       - rewrite store_default_eq, lookup_insert_ne by done.
         rewrite store_default_eq, lookup_insert_ne by done.
         by rewrite store_default_eq, lookup_insert_eq.
       - rewrite store_default_eq, lookup_insert_ne by done.
         by rewrite store_default_eq, lookup_insert_eq. }
  - repeat (constructor; [by repeat apply typed_dict_filter|]).
    by apply class_settings_typed.
  - do 2 apply list_elem_of_further.
    apply class_settings_has_Assemblable.
    do 2 apply list_elem_of_further. apply list_elem_of_here.
  - apply Hok2.
  - by repeat apply typed_dict_filter.
Qed.

Lemma typed_dict_empty : typed_dict ∅.
Proof. intros k v. by rewrite lookup_empty. Qed.

Lemma append_assoc (s1 s2 s3 : string) : (s1 +:+ s2) +:+ s3 = s1 +:+ s2 +:+ s3.
Proof.
  induction s1 as [|c s1 IH]; [done|].
  change (String c ((s1 +:+ s2) +:+ s3) = String c (s1 +:+ s2 +:+ s3)).
  by rewrite IH.
Qed.

Lemma append_empty_r (s : string) : s +:+ "" = s.
Proof.
  induction s as [|c s IH]; [done|].
  change (String c (s +:+ "") = String c s). by rewrite IH.
Qed.

Lemma created_lookup c σ σ' s :
  created c σ σ' s → scopes σ' !! length (scopes σ) = Some s.
Proof. intros (-> & _). by apply list_lookup_middle. Qed.

Lemma chain_get_class_own (defs : pyclass -> dict) c k v :
  declares_defaults c = true → defs c !! k = Some v →
  chain_get defs (class_settings c) k = inr v.
Proof.
  intros Hc Hv. destruct c; try done.
  - rewrite class_settings_Assemblable, chain_get_cons. cbn. by rewrite Hv.
  - rewrite class_settings_DocumentPart, chain_get_cons. cbn. by rewrite Hv.
  - rewrite class_settings_NewCommand, chain_get_cons. cbn. by rewrite Hv.
  - rewrite class_settings_Environment, chain_get_cons. cbn. by rewrite Hv.
Qed.

Lemma created_prolog c σ σ' s v :
  created c σ σ' s →
  call_overrides c !! "prolog" = None →
  class_defaults σ' (call_class c) !! "prolog" = Some v →
  declares_defaults (call_class c) = true →
  chain_get (class_defaults σ') (settings s) "prolog" = inr v.
Proof.
  intros (_ & _ & _ & _ & _ & _ & Hget) Hov Hv Hc.
  rewrite Hget, Hov. by apply chain_get_class_own.
Qed.

(** A call of [NewCommand] with typed options raises a [ValueError] and
    changes nothing, or returns. *)
Lemma new_NewCommand_cases σ p cmd_name kw n :
  defaults_ok σ → typed_dict kw → keywords_bind NewCommand kw = true →
  dict_merge (class_defaults σ NewCommand) kw !! "nargs" = Some (VInt n) →
  (∃ e, new_NewCommand p cmd_name kw σ = (σ, inl (ValueError e))
        ∧ (¬ in_grammar letter control_word_char cmd_name ∨ n < 0 ∨ 9 < n))
  ∨ (∃ σ' i, new_NewCommand p cmd_name kw σ = (σ', inr i)
             ∧ in_grammar letter control_word_char cmd_name ∧ 0 ≤ n ≤ 9).
Proof.
  intros Hok Hkw Hb Hn.
  destruct (merged_lookup_typed σ NewCommand kw "default" Hok Hkw) as (d & Hd & Hdt);
    [by eexists|].
  apply (typed_opt_str "default") in Hdt; [|in_list].
  destruct (validate_latex_control_word cmd_name) as [e|] eqn:Hv.
  - left. exists e. split.
    + unfold new_NewCommand. rewrite bound_call by done.
      apply construct_raises, NewCommand_init_bad_name; by eauto.
    + left. rewrite <- validate_latex_control_word_None. by rewrite Hv.
  - apply validate_latex_control_word_None in Hv as Hg.
    destruct (decide (0 ≤ n ≤ 9)) as [Hr|Hr].
    + right.
      destruct (new_NewCommand_valid σ p cmd_name kw n d) as (σ' & s & Hrun & _);
        by eauto.
    + left. exists (NargsOutOfRange n). split; [|lia].
      unfold new_NewCommand. rewrite bound_call by done.
      apply construct_raises, NewCommand_init_bad_nargs; eauto. lia.
Qed.

Lemma new_Environment_cases σ p env_name kw :
  defaults_ok σ → typed_dict kw → keywords_bind Environment kw = true →
  (∃ e, new_Environment p env_name kw σ = (σ, inl (ValueError e))
        ∧ ¬ in_grammar letter environment_name_char env_name)
  ∨ (∃ σ' i, new_Environment p env_name kw σ = (σ', inr i)
             ∧ in_grammar letter environment_name_char env_name).
Proof.
  intros Hok Hkw Hb.
  destruct (merged_lookup_typed σ Environment kw "args" Hok Hkw) as (a & Ha & Hat);
    [by eexists|].
  apply (typed_opt_str "args") in Hat; [|in_list].
  destruct (merged_lookup_typed σ Environment kw "ops" Hok Hkw) as (o & Ho & Hot);
    [by eexists|].
  apply (typed_opt_str "ops") in Hot; [|in_list].
  destruct (validate_environment_name env_name) as [e|] eqn:Hv.
  - left. exists e. split.
    + unfold new_Environment. rewrite bound_call by done.
      apply construct_raises, Environment_init_bad_name; by eauto.
    + rewrite <- validate_environment_name_None. by rewrite Hv.
  - apply validate_environment_name_None in Hv as Hg. right.
    destruct (new_Environment_valid σ p env_name kw a o) as (σ' & s & Hrun & _);
      by eauto.
Qed.

(** C6. With keyword arguments that are options, of their declared types
    and none with the name of a parameter of the initialiser: a call of
    [NewCommand] raises exactly when the name is outside the grammar
    [[A-Za-z][A-Za-z@*:]*] (the empty name is outside) or [nargs] is outside
    0..9; a call of [Environment] raises exactly when the name is outside
    [[A-Za-z][A-Za-z0-9@*]*].  What is raised is a [ValueError], and the
    state is then the state before the call: no scope, no list, and no class
    dictionary has changed. *)
Theorem construction_validates σ p cmd_name kw_c n env_name kw_e :
  defaults_ok σ → typed_dict kw_c → typed_dict kw_e →
  keywords_bind NewCommand kw_c = true →
  keywords_bind Environment kw_e = true →
  dict_merge (class_defaults σ NewCommand) kw_c !! "nargs" = Some (VInt n) →
  ((∃ σ' e, new_NewCommand p cmd_name kw_c σ = (σ', inl e))
   ↔ ¬ in_grammar letter control_word_char cmd_name ∨ n < 0 ∨ 9 < n)
  ∧ (∀ σ' e, new_NewCommand p cmd_name kw_c σ = (σ', inl e) →
             is_ValueError e = true ∧ σ' = σ)
  ∧ ((∃ σ' e, new_Environment p env_name kw_e σ = (σ', inl e))
     ↔ ¬ in_grammar letter environment_name_char env_name)
  ∧ (∀ σ' e, new_Environment p env_name kw_e σ = (σ', inl e) →
             is_ValueError e = true ∧ σ' = σ).
Proof.
  intros Hok Hkc Hke Hbc Hbe Hn.
  pose proof (new_NewCommand_cases σ p cmd_name kw_c n Hok Hkc Hbc Hn) as HNC.
  pose proof (new_Environment_cases σ p env_name kw_e Hok Hke Hbe) as HEnv.
  split_and!.
  - split.
    + intros (σ' & e & Hrun).
      destruct HNC as [(e' & _ & Hbad)|(σ2 & i & Hret & _)]; [done|congruence].
    + intros Hbad. destruct HNC as [(e & Hrun & _)|(σ2 & i & _ & Hg & Hr)].
      * eauto.
      * destruct Hbad as [?|?]; [done|lia].
  - intros σ' e Hrun.
    destruct HNC as [(e' & Hrun' & _)|(σ2 & i & Hret & _)]; [|congruence].
    rewrite Hrun' in Hrun. by simplify_eq.
  - split.
    + intros (σ' & e & Hrun).
      destruct HEnv as [(e' & _ & Hbad)|(σ2 & i & Hret & _)]; [done|congruence].
    + intros Hbad. destruct HEnv as [(e & Hrun & _)|(σ2 & i & _ & Hg)]; [eauto|done].
  - intros σ' e Hrun.
    destruct HEnv as [(e' & Hrun' & _)|(σ2 & i & Hret & _)]; [|congruence].
    rewrite Hrun' in Hrun. by simplify_eq.
Qed.

Lemma construction_validates_witness :
  defaults_ok initial_state ∧ typed_dict (<["nargs" := VInt 10]> ∅) ∧ typed_dict ∅
  ∧ keywords_bind NewCommand (<["nargs" := VInt 10]> ∅) = true
  ∧ keywords_bind Environment ∅ = true
  ∧ dict_merge (class_defaults initial_state NewCommand) (<["nargs" := VInt 10]> ∅)
      !! "nargs" = Some (VInt 10)
  ∧ (((∃ σ' e, new_NewCommand None "greet" (<["nargs" := VInt 10]> ∅) initial_state
               = (σ', inl e))
      ↔ ¬ in_grammar letter control_word_char "greet" ∨ 10 < 0 ∨ 9 < 10)
     ∧ (∀ σ' e, new_NewCommand None "greet" (<["nargs" := VInt 10]> ∅) initial_state
                = (σ', inl e) →
                is_ValueError e = true ∧ σ' = initial_state)
     ∧ ((∃ σ' e, new_Environment None "2col" ∅ initial_state = (σ', inl e))
        ↔ ¬ in_grammar letter environment_name_char "2col")
     ∧ (∀ σ' e, new_Environment None "2col" ∅ initial_state = (σ', inl e) →
                is_ValueError e = true ∧ σ' = initial_state)).
Proof.
  assert (H1 : typed_dict (<["nargs" := VInt 10]> ∅))
    by (apply typed_dict_insert; [reflexivity | apply typed_dict_empty]).
  refine (conj _ (conj _ (conj _ (conj _ (conj _ (conj _ _))))));
    [apply defaults_ok_initial | exact H1 | apply typed_dict_empty
    | reflexivity | reflexivity | reflexivity | ].
  apply (construction_validates initial_state None "greet"
           (<["nargs" := VInt 10]> ∅) 10 "2col" ∅);
    [apply defaults_ok_initial | exact H1 | apply typed_dict_empty
    | reflexivity | reflexivity | reflexivity].
Defined.

(** ** The prefixes *)

Lemma prefix_of_created c σ σ' s v :
  run_call c σ = (σ', inr (length (scopes σ))) →
  created c σ σ' s →
  call_overrides c !! "prolog" = None →
  class_defaults σ' (call_class c) !! "prolog" = Some v →
  declares_defaults (call_class c) = true →
  prefix_of c σ = inr v.
Proof.
  intros Hrun Hcr Hov Hv Hc. unfold prefix_of. rewrite Hrun.
  rewrite (created_lookup _ _ _ _ Hcr). by eapply created_prolog.
Qed.

Lemma NewCommand_prolog_spec nm n d :
  is_opt_str d = true →
  NewCommand_prolog nm n d
  = "\newcommand{\" +:+ nm +:+ "}"
    +:+ (if decide (0 < n) then "[" +:+ pretty n +:+ "]" else "")
    +:+ marker_if_supplied "[" "]" d +:+ "{%" +:+ NL.
Proof.
  intros Hd. unfold NewCommand_prolog. rewrite !append_assoc.
  do 3 f_equal.
  assert ((0 <? n) = bool_decide (0 < n)) as ->.
  { apply eq_true_iff_eq. by rewrite Z.ltb_lt, bool_decide_eq_true. }
  destruct (decide (0 < n)) as [Hn|Hn];
    [rewrite bool_decide_eq_true_2 by done | rewrite bool_decide_eq_false_2 by done];
    f_equal; by destruct d.
Qed.

(** C5. For a name of the command grammar, [nargs] in 0..9, no ['prolog']
    option and no keyword argument with the name of a parameter of the
    initialiser, the scope a call of [NewCommand] creates resolves the prefix
    [\newcommand{\NAME}], then [[nargs]] exactly when [nargs] is positive,
    then [[default]] exactly when [default] is not [None], then [{%] and a
    line feed.  With [nargs = 0] and [default = None] that is
    [\newcommand{\NAME}{%] and a line feed, nothing in between; with
    [nargs = 3] the prefix contains [[3]]. *)
Theorem NewCommand_prefix σ p nm kw n d :
  defaults_ok σ → typed_dict kw → keywords_bind NewCommand kw = true →
  in_grammar letter control_word_char nm →
  kw !! "prolog" = None →
  dict_merge (class_defaults σ NewCommand) kw !! "nargs" = Some (VInt n) →
  0 ≤ n ≤ 9 →
  dict_merge (class_defaults σ NewCommand) kw !! "default" = Some d →
  ∃ prefix,
    prefix_of (CallNewCommand p nm kw) σ = inr (VStr prefix)
    ∧ prefix = "\newcommand{\" +:+ nm +:+ "}"
               +:+ (if decide (0 < n) then "[" +:+ pretty n +:+ "]" else "")
               +:+ marker_if_supplied "[" "]" d +:+ "{%" +:+ NL
    ∧ (n = 0 → d = VNone → prefix = "\newcommand{\" +:+ nm +:+ "}{%" +:+ NL)
    ∧ (n = 3 → contains prefix "[3]").
Proof.
  intros Hok Hkw Hb Hg Hpro Hn Hr Hd.
  assert (Hod : is_opt_str d = true).
  { apply (typed_opt_str "default"); [in_list|].
    destruct (Hok NewCommand) as [_ Hty].
    by apply (typed_dict_merge _ _ Hty Hkw "default"). }
  apply validate_latex_control_word_None in Hg.
  destruct (new_NewCommand_valid σ p nm kw n d) as (σ' & s & Hrun & Hcr & Hv);
    try done.
  eexists. split_and!.
  - eapply prefix_of_created; try done.
    cbn. by rewrite lookup_insert_ne.
  - by apply NewCommand_prolog_spec.
  - intros -> ->. unfold NewCommand_prolog. cbn.
    by rewrite !append_assoc.
  - intros ->. rewrite NewCommand_prolog_spec by done.
    exists ("\newcommand{\" +:+ nm +:+ "}"),
           (marker_if_supplied "[" "]" d +:+ "{%" +:+ NL).
    by rewrite !append_assoc.
Qed.

Lemma NewCommand_prefix_witness :
  defaults_ok initial_state ∧ typed_dict (<["nargs" := VInt 3]> ∅)
  ∧ keywords_bind NewCommand (<["nargs" := VInt 3]> ∅) = true
  ∧ in_grammar letter control_word_char "greet"
  ∧ (<["nargs" := VInt 3]> ∅ : dict) !! "prolog" = None
  ∧ dict_merge (class_defaults initial_state NewCommand) (<["nargs" := VInt 3]> ∅)
      !! "nargs" = Some (VInt 3)
  ∧ 0 ≤ 3 ≤ 9
  ∧ dict_merge (class_defaults initial_state NewCommand) (<["nargs" := VInt 3]> ∅)
      !! "default" = Some VNone
  ∧ ∃ prefix,
      prefix_of (CallNewCommand None "greet" (<["nargs" := VInt 3]> ∅)) initial_state
      = inr (VStr prefix)
      ∧ prefix = "\newcommand{\" +:+ "greet" +:+ "}"
                 +:+ (if decide (0 < 3) then "[" +:+ pretty 3 +:+ "]" else "")
                 +:+ marker_if_supplied "[" "]" VNone +:+ "{%" +:+ NL
      ∧ (3 = 0 → VNone = VNone →
         prefix = "\newcommand{\" +:+ "greet" +:+ "}{%" +:+ NL)
      ∧ (3 = 3 → contains prefix "[3]").
Proof.
  assert (H1 : typed_dict (<["nargs" := VInt 3]> ∅))
    by (apply typed_dict_insert; [reflexivity | apply typed_dict_empty]).
  assert (H2 : in_grammar letter control_word_char "greet")
    by (by apply validate_latex_control_word_None).
  split_and!; [apply defaults_ok_initial | exact H1 | reflexivity | exact H2
              | reflexivity | reflexivity | lia | lia | reflexivity | ].
  apply (NewCommand_prefix initial_state None "greet" (<["nargs" := VInt 3]> ∅) 3 VNone);
    [apply defaults_ok_initial | exact H1 | reflexivity | exact H2 | reflexivity
    | reflexivity | lia | reflexivity].
Defined.

Lemma Environment_prolog_spec nm a o :
  is_opt_str a = true → is_opt_str o = true →
  Environment_prolog nm a o
  = "\begin{" +:+ nm +:+ "}" +:+ marker_if_nonempty "[" "]" o
    +:+ marker_if_nonempty "{" "}" a +:+ "%" +:+ NL.
Proof.
  intros Ha Ho. unfold Environment_prolog. rewrite !append_assoc.
  assert (Hm : ∀ l r v, is_opt_str v = true →
            (if truthy v then l +:+ format_ v +:+ r else "")
            = marker_if_nonempty l r v).
  { intros l r [|x| | | |] Hv; try done. cbn.
    destruct (decide (x = "")) as [->|Hx]; [done|].
    by apply String.eqb_neq in Hx as ->. }
  by rewrite !Hm.
Qed.

Lemma Environment_resolved_prefix σ p nm kw a o :
  defaults_ok σ → typed_dict kw → keywords_bind Environment kw = true →
  in_grammar letter environment_name_char nm →
  kw !! "prolog" = None →
  dict_merge (class_defaults σ Environment) kw !! "args" = Some a →
  dict_merge (class_defaults σ Environment) kw !! "ops" = Some o →
  prefix_of (CallEnvironment p nm kw) σ
  = inr (VStr ("\begin{" +:+ nm +:+ "}" +:+ marker_if_nonempty "[" "]" o
               +:+ marker_if_nonempty "{" "}" a +:+ "%" +:+ NL)).
Proof.
  intros Hok Hkw Hb Hg Hpro Ha Ho.
  destruct (Hok Environment) as [_ Hty].
  assert (Hoa : is_opt_str a = true).
  { apply (typed_opt_str "args"); [in_list|].
    by apply (typed_dict_merge _ _ Hty Hkw "args"). }
  assert (Hoo : is_opt_str o = true).
  { apply (typed_opt_str "ops"); [in_list|].
    by apply (typed_dict_merge _ _ Hty Hkw "ops"). }
  apply validate_environment_name_None in Hg.
  destruct (new_Environment_valid σ p nm kw a o) as (σ' & s & Hrun & Hcr & Hv & _);
    try done.
  rewrite <- Environment_prolog_spec by done.
  eapply prefix_of_created; try done.
  cbn. by rewrite lookup_insert_ne.
Qed.

(** C10. For a name of the environment grammar, no ['prolog'] option and no
    keyword argument with the name of a parameter of the initialiser, the
    scope a call of [Environment] creates resolves the prefix
    [\begin{NAME}], then [[ops]] exactly when [ops] is a string that is not
    empty, then [{args}] exactly when [args] is a string that is not empty,
    then [%] and a line feed.  A call with [ops] or [args] the empty string
    resolves the same prefix as the call with [None] in its place. *)
Theorem Environment_prefix σ p nm kw a o :
  defaults_ok σ → typed_dict kw → keywords_bind Environment kw = true →
  in_grammar letter environment_name_char nm →
  kw !! "prolog" = None →
  dict_merge (class_defaults σ Environment) kw !! "args" = Some a →
  dict_merge (class_defaults σ Environment) kw !! "ops" = Some o →
  prefix_of (CallEnvironment p nm kw) σ
  = inr (VStr ("\begin{" +:+ nm +:+ "}" +:+ marker_if_nonempty "[" "]" o
               +:+ marker_if_nonempty "{" "}" a +:+ "%" +:+ NL))
  ∧ (o = VStr "" →
     prefix_of (CallEnvironment p nm (<["ops" := VNone]> kw)) σ
     = prefix_of (CallEnvironment p nm kw) σ)
  ∧ (a = VStr "" →
     prefix_of (CallEnvironment p nm (<["args" := VNone]> kw)) σ
     = prefix_of (CallEnvironment p nm kw) σ).
Proof.
  intros Hok Hkw Hb Hg Hpro Ha Ho.
  pose proof (Environment_resolved_prefix σ p nm kw a o Hok Hkw Hb Hg Hpro Ha Ho)
    as Hf.
  split_and!; [done| |].
  - intros ->. rewrite Hf.
    rewrite (Environment_resolved_prefix σ p nm (<["ops" := VNone]> kw) a VNone);
      try done.
    + by apply typed_dict_insert.
    + apply keywords_bind_insert; [not_in_list|done].
    + by rewrite lookup_insert_ne.
    + revert Ha. unfold dict_merge. rewrite !lookup_union.
      by rewrite lookup_insert_ne.
    + unfold dict_merge. apply lookup_union_Some_l, lookup_insert_eq.
  - intros ->. rewrite Hf.
    rewrite (Environment_resolved_prefix σ p nm (<["args" := VNone]> kw) VNone o);
      try done.
    + by apply typed_dict_insert.
    + apply keywords_bind_insert; [not_in_list|done].
    + by rewrite lookup_insert_ne.
    + unfold dict_merge. apply lookup_union_Some_l, lookup_insert_eq.
    + revert Ho. unfold dict_merge. rewrite !lookup_union.
      by rewrite lookup_insert_ne.
Qed.

Lemma Environment_prefix_witness :
  defaults_ok initial_state
  ∧ typed_dict (<["ops" := VStr ""]> (<["args" := VStr "ll"]> ∅))
  ∧ keywords_bind Environment (<["ops" := VStr ""]> (<["args" := VStr "ll"]> ∅))
    = true
  ∧ in_grammar letter environment_name_char "tabular"
  ∧ (<["ops" := VStr ""]> (<["args" := VStr "ll"]> ∅) : dict) !! "prolog" = None
  ∧ dict_merge (class_defaults initial_state Environment)
      (<["ops" := VStr ""]> (<["args" := VStr "ll"]> ∅)) !! "args"
    = Some (VStr "ll")
  ∧ dict_merge (class_defaults initial_state Environment)
      (<["ops" := VStr ""]> (<["args" := VStr "ll"]> ∅)) !! "ops"
    = Some (VStr "")
  ∧ prefix_of (CallEnvironment None "tabular"
                 (<["ops" := VStr ""]> (<["args" := VStr "ll"]> ∅))) initial_state
    = inr (VStr ("\begin{tabular}{ll}%" +:+ NL))
  ∧ prefix_of (CallEnvironment None "tabular"
                 (<["ops" := VNone]> (<["ops" := VStr ""]> (<["args" := VStr "ll"]> ∅))))
      initial_state
    = prefix_of (CallEnvironment None "tabular"
                   (<["ops" := VStr ""]> (<["args" := VStr "ll"]> ∅))) initial_state.
Proof.
  assert (H1 : typed_dict (<["ops" := VStr ""]> (<["args" := VStr "ll"]> ∅)))
    by (repeat (apply typed_dict_insert; [reflexivity|]); apply typed_dict_empty).
  assert (H2 : in_grammar letter environment_name_char "tabular")
    by (by apply validate_environment_name_None).
  pose proof (Environment_prefix initial_state None "tabular"
                (<["ops" := VStr ""]> (<["args" := VStr "ll"]> ∅))
                (VStr "ll") (VStr "") defaults_ok_initial H1 eq_refl H2
                eq_refl eq_refl eq_refl) as (Hf & Hops & _).
  refine (conj _ (conj _ (conj _ (conj _ (conj _ (conj _ (conj _ (conj _ _))))))));
    [apply defaults_ok_initial | exact H1 | reflexivity | exact H2 | reflexivity
    | reflexivity | reflexivity | exact Hf | exact (Hops eq_refl)].
Defined.

(** ** The merged configuration of an instance *)

(** C9. A call in a state whose class dictionaries are in order never raises
    [KeyError]; and in the scope it creates, whatever the class dictionaries
    hold when a key is read, the lookup returns the option the call
    supplied, otherwise the value in the defaults of the most derived
    participating class of the resolution order that defines the key,
    otherwise raises [KeyError] for the key. *)
Theorem settings_lookup_layered (c : call) σ :
  defaults_ok σ →
  (∀ σ' e, run_call c σ = (σ', inl e) → ∀ k, e ≠ KeyError k)
  ∧ (∀ σ' i, run_call c σ = (σ', inr i) →
       ∃ s, scopes σ' !! i = Some s
            ∧ ∀ defs k,
                chain_get defs (settings s) k
                = layered_lookup mro HasOptions declares_defaults defs
                    (call_overrides c) (call_class c) k).
Proof.
  intros Hok. split.
  - intros σ' e Hrun k ->.
    apply run_call_outcome in Hrun as [_ [(e & [= <-] & _ & _ & _ & Hkind)|(s & ? & _)]];
      [|done].
    destruct Hkind as [?|?]; [apply Hok|done..].
  - intros σ' i Hrun.
    apply run_call_outcome in Hrun as [_ [(e & ? & _)|(s & [= ->] & Hcr)]]; [done|].
    exists s. split; [by eapply created_lookup|].
    intros defs k. destruct Hcr as (_ & _ & _ & _ & _ & _ & Hget).
    rewrite Hget, chain_get_class_settings. done.
Qed.

Lemma settings_lookup_layered_witness :
  defaults_ok initial_state
  ∧ (∀ σ' e, run_call (CallNewCommand None "greet" (<["nargs" := VInt 1]> ∅))
               initial_state = (σ', inl e) → ∀ k, e ≠ KeyError k)
  ∧ (∀ σ' i, run_call (CallNewCommand None "greet" (<["nargs" := VInt 1]> ∅))
               initial_state = (σ', inr i) →
       ∃ s, scopes σ' !! i = Some s
            ∧ ∀ defs k,
                chain_get defs (settings s) k
                = layered_lookup mro HasOptions declares_defaults defs
                    (<["name" := VStr "greet"]> (<["nargs" := VInt 1]> ∅))
                    NewCommand k).
Proof.
  split; [apply defaults_ok_initial|].
  apply (settings_lookup_layered
           (CallNewCommand None "greet" (<["nargs" := VInt 1]> ∅)) initial_state).
  apply defaults_ok_initial.
Defined.

(** ** Running the pipeline and closing a scope *)

Lemma run_stage_reads f xs σ : (run_stage f xs σ).1 = σ.
Proof.
  destruct f as [g|j|j]; cbn; [done| |].
  - unfold bind, get_scope, settings_get, reading.
    destruct (scopes σ !! j) as [s|]; [|done].
    destruct (chain_get _ _ "delimiter") as [?|[]]; done.
  - unfold bind, get_scope, settings_get, reading.
    destruct (scopes σ !! j) as [s|]; [|done].
    destruct (chain_get _ _ "prolog") as [?|v]; [done|].
    destruct (chain_get _ _ "epilog") as [?|w]; [done|].
    destruct v, w; done.
Qed.

Lemma fold_pipeline_reads fs d σ : (fold_pipeline fs d σ).1 = σ.
Proof.
  revert d. induction fs as [|f fs IH]; intros d; [done|].
  cbn. unfold bind at 1. unfold reading.
  destruct (contents σ d) as [?|xs]; [done|].
  unfold bind. pose proof (run_stage_reads f xs σ) as Hf.
  destruct (run_stage f xs σ) as [σ' [?|ys]]; cbn in Hf; subst σ'; [done|].
  apply IH.
Qed.

(** Running the pipeline changes nothing. *)
Lemma run_pipeline_reads self d σ σ' out :
  run_pipeline self d σ = (σ', out) → σ' = σ.
Proof.
  unfold run_pipeline, bind, get_scope, settings_get, reading.
  destruct (scopes σ !! self) as [s|]; [|by intros [= <- _]].
  destruct (chain_get _ _ "pipeline") as [?|v]; [by intros [= <- _]|].
  destruct v as [| | | | |fs]; try by intros [= <- _].
  intros Hrun. pose proof (fold_pipeline_reads fs d σ) as Hf.
  rewrite Hrun in Hf. by cbn in Hf.
Qed.

(** What a pipeline returns: the list it was given, or a new list. *)
Lemma fold_pipeline_result fs d σ r :
  (fold_pipeline fs d σ).2 = inr r → r = d ∨ ∃ zs, r = Fresh zs.
Proof.
  destruct fs as [|f fs]; [cbn; intros [= <-]; by left|].
  intros Hr. right. revert d σ f Hr.
  induction fs as [|g fs IH]; intros d σ f; cbn; unfold bind at 1, reading.
  - destruct (contents σ d) as [?|xs]; [done|]. unfold bind.
    destruct (run_stage f xs σ) as [σ' [?|ys]]; [done|]. cbn.
    intros [= <-]. by eexists.
  - destruct (contents σ d) as [?|xs]; [done|]. unfold bind at 1.
    destruct (run_stage f xs σ) as [σ' [?|ys]]; [done|].
    apply (IH (Fresh ys) σ' g).
Qed.

Lemma run_pipeline_result i d σ r :
  run_pipeline i d σ = (σ, inr r) → r = d ∨ ∃ zs, r = Fresh zs.
Proof.
  unfold run_pipeline, bind, get_scope, settings_get, reading.
  destruct (scopes σ !! i) as [s|]; [|done].
  destruct (chain_get _ _ "pipeline") as [?|v]; [done|].
  destruct v as [| | | | |fs]; try done.
  intros Hr. apply (fold_pipeline_result fs d σ). by rewrite Hr.
Qed.

(** An empty pipeline hands the list object back. *)
Lemma run_pipeline_empty self s d σ :
  scopes σ !! self = Some s →
  chain_get (class_defaults σ) (settings s) "pipeline" = inr (VPipeline []) →
  run_pipeline self d σ = (σ, inr d).
Proof.
  intros Hs Hp. unfold run_pipeline, bind, get_scope, settings_get, reading.
  by rewrite Hs, Hp.
Qed.

(** The state a scope with a parent leaves when it closes. *)
Lemma Assemblable_exit_parent self exc σ s p r ys po :
  scopes σ !! self = Some s → _parent s = Some p →
  run_pipeline self (Obj (data s)) σ = (σ, inr r) →
  contents σ r = inr ys →
  lists σ !! p = Some po →
  Assemblable_exit self exc σ
  = (set_lists (<[p := with_items_added po ys]> (lists σ))
       (set_scopes (<[self := with_result s r]> (scopes σ)) σ), inr VNone).
Proof.
  intros Hs Hp Hr Hys Hpo.
  unfold Assemblable_exit, bind, get_scope, reading. rewrite Hs, Hr.
  unfold set_result. rewrite Hs, Hp. unfold extend, contents in *. cbn.
  destruct r as [l|xs]; cbn.
  - destruct (lists σ !! l) as [o|]; [|done]. simplify_eq. by rewrite Hpo.
  - simplify_eq. by rewrite Hpo.
Qed.

(** The state a scope without a parent leaves when it closes. *)
Lemma Assemblable_exit_orphan self exc σ s r :
  scopes σ !! self = Some s → _parent s = None →
  run_pipeline self (Obj (data s)) σ = (σ, inr r) →
  Assemblable_exit self exc σ
  = (set_scopes (<[self := with_result s r]> (scopes σ)) σ, inr VNone).
Proof.
  intros Hs Hp Hr.
  unfold Assemblable_exit, bind, get_scope, reading. rewrite Hs, Hr.
  unfold set_result. by rewrite Hs, Hp.
Qed.

(** Every run of [__exit__]: nothing but the result of the scope and the
    items of its parent can have changed. *)
Lemma Assemblable_exit_frame self exc σ σ' out :
  Assemblable_exit self exc σ = (σ', out) →
  class_defaults σ' = class_defaults σ
  ∧ length (scopes σ') = length (scopes σ)
  ∧ length (lists σ') = length (lists σ)
  ∧ (∀ i, i ≠ self → scopes σ' !! i = scopes σ !! i)
  ∧ (σ' = σ
     ∨ ∃ s r, scopes σ !! self = Some s
              ∧ run_pipeline self (Obj (data s)) σ = (σ, inr r)
              ∧ scopes σ' !! self = Some (with_result s r)).
Proof.
  unfold Assemblable_exit, bind at 1, get_scope, reading.
  destruct (scopes σ !! self) as [s|] eqn:Hs; [|intros [= <- _]; by eauto 10].
  unfold bind at 1.
  destruct (run_pipeline self (Obj (data s)) σ) as [σ1 [e|r]] eqn:Hr;
    pose proof (run_pipeline_reads _ _ _ _ _ Hr) as ->;
    [intros [= <- _]; by eauto 10|].
  unfold bind at 1, set_result. rewrite Hs.
  assert (Hself : <[self := with_result s r]> (scopes σ) !! self
                  = Some (with_result s r)).
  { apply list_lookup_insert_eq. by eapply lookup_lt_Some. }
  destruct (_parent s) as [p|]; last first.
  { intros [= <- _]. cbn. rewrite length_insert. split_and!; try done.
    - intros i Hi. by rewrite list_lookup_insert_ne.
    - right. by eauto. }
  unfold bind, reading, extend. cbn.
  destruct (contents _ r) as [e|ys].
  { intros [= <- _]. cbn. rewrite length_insert. split_and!; try done.
    - intros i Hi. by rewrite list_lookup_insert_ne.
    - right. by eauto. }
  destruct (lists σ !! p) as [po|].
  - intros [= <- _]. cbn. rewrite !length_insert. split_and!; try done.
    + intros i Hi. by rewrite list_lookup_insert_ne.
    + right. by eauto.
  - intros [= <- _]. cbn. rewrite length_insert. split_and!; try done.
    + intros i Hi. by rewrite list_lookup_insert_ne.
    + right. by eauto.
Qed.

(** A [with] statement over a scope that has a parent, given what the
    pipeline returns when the body has ended. *)
Lemma with_run (cm : M iid) (body : lid -> M unit)
    σ σ0 i s p σ1 out r ys po :
  cm σ = (σ0, inr i) →
  scopes σ0 !! i = Some s → _parent s = Some p →
  body (data s) σ0 = (σ1, out) →
  scopes σ1 !! i = Some s →
  run_pipeline i (Obj (data s)) σ1 = (σ1, inr r) →
  contents σ1 r = inr ys →
  lists σ1 !! p = Some po →
  with_ cm body σ
  = (set_lists (<[p := with_items_added po ys]> (lists σ1))
       (set_scopes (<[i := with_result s r]> (scopes σ1)) σ1), out).
Proof.
  intros Hcm Hs Hp Hbody Hs1 Hr Hys Hpo.
  unfold with_. rewrite (bind_inr _ _ _ _ _ Hcm).
  assert (Henter : Assemblable_enter i σ0 = (σ0, inr (data s))).
  { unfold Assemblable_enter, bind, get_scope, reading. by rewrite Hs. }
  rewrite (bind_inr _ _ _ _ _ Henter). rewrite Hbody.
  rewrite (Assemblable_exit_parent i _ σ1 s p r ys po) by done.
  destruct out as [e|[]]; done.
Qed.

Lemma Assemblable_exit_returns self exc σ σ' v :
  Assemblable_exit self exc σ = (σ', inr v) →
  ∃ s r, scopes σ !! self = Some s
         ∧ run_pipeline self (Obj (data s)) σ = (σ, inr r)
         ∧ scopes σ' !! self = Some (with_result s r).
Proof.
  unfold Assemblable_exit, bind at 1, get_scope, reading.
  destruct (scopes σ !! self) as [s|] eqn:Hs; [|done].
  unfold bind at 1.
  destruct (run_pipeline self (Obj (data s)) σ) as [σ1 [e|r]] eqn:Hr;
    pose proof (run_pipeline_reads _ _ _ _ _ Hr) as ->; [done|].
  unfold bind at 1, set_result. rewrite Hs.
  assert (Hself : <[self := with_result s r]> (scopes σ) !! self
                  = Some (with_result s r)).
  { apply list_lookup_insert_eq. by eapply lookup_lt_Some. }
  destruct (_parent s) as [p|].
  - unfold bind, reading, extend. cbn.
    destruct (contents _ r) as [e|ys]; [done|].
    destruct (lists σ !! p) as [po|]; [|done].
    intros [= <- _]. by exists s, r.
  - intros [= <- _]. by exists s, r.
Qed.

Lemma result_run self σ s :
  scopes σ !! self = Some s →
  result self σ = (σ, match _result s with
                      | None => inl (ValueError NotClosed)
                      | Some r => inr r
                      end).
Proof.
  intros Hs. unfold result, bind, get_scope, reading. rewrite Hs.
  by destruct (_result s).
Qed.

Lemma result_closed self σ s r :
  scopes σ !! self = Some s → _result s = Some r →
  result self σ = (σ, inr r).
Proof. intros Hs Hr. rewrite (result_run _ _ s) by done. by rewrite Hr. Qed.

(** An operation other than the exit of a scope leaves the scope as it is. *)
Lemma run_op_keeps_scope o σ i s :
  scopes σ !! i = Some s → (∀ exc, o ≠ OpExit i exc) →
  scopes (run_op o σ) !! i = Some s.
Proof.
  intros Hs Ho. destruct o as [c|l xs|j exc]; unfold run_op.
  - destruct (run_call c σ) as [σ' out] eqn:Hrun.
    apply run_call_outcome in Hrun as [_ [(e & _ & _ & Hsc & _)|(s' & _ & Hsc & _)]];
      cbn [fst]; rewrite Hsc; [done|]. by apply lookup_app_l_Some.
  - unfold extend. by destruct (lists σ !! l).
  - destruct (Assemblable_exit j exc σ) as [σ' out] eqn:Hrun.
    apply Assemblable_exit_frame in Hrun as (_ & _ & _ & Hfr & _).
    cbn [fst]. rewrite Hfr; [done|]. intros ->. by apply (Ho exc).
Qed.

Lemma run_ops_keeps_scope os σ i s :
  scopes σ !! i = Some s → (∀ exc, OpExit i exc ∉ os) →
  scopes (run_ops os σ) !! i = Some s.
Proof.
  revert σ. induction os as [|o os IH]; intros σ Hs Hos; [done|].
  cbn. apply IH.
  - apply run_op_keeps_scope; [done|]. intros exc ->.
    apply (Hos exc), list_elem_of_here.
  - intros exc Hin. by apply (Hos exc), list_elem_of_further.
Qed.

(** ** The empty pipeline *)

Lemma append_each_run l xs σ o :
  lists σ !! l = Some o →
  ∃ σ', append_each l xs σ = (σ', inr ())
        ∧ lists σ' !! l = Some (with_items_added o xs)
        ∧ scopes σ' = scopes σ
        ∧ class_defaults σ' = class_defaults σ
        ∧ ∀ l', l' ≠ l → lists σ' !! l' = lists σ !! l'.
Proof.
  revert σ o. induction xs as [|x xs IH]; intros σ o Ho.
  - exists σ. split_and!; try done.
    rewrite Ho. f_equal. destruct o. unfold with_items_added. cbn.
    by rewrite app_nil_r.
  - cbn [append_each]. unfold append, extend at 1, bind. rewrite Ho.
    edestruct (IH (set_lists (<[l := with_items_added o [x]]> (lists σ)) σ))
      as (σ' & Hrun & Hl & Hs & Hd & Hfr).
    { cbn. apply list_lookup_insert_eq. by eapply lookup_lt_Some. }
    exists σ'. split_and!; try done.
    + rewrite Hl. f_equal. unfold with_items_added. cbn.
      by rewrite <- app_assoc.
    + intros l' Hl'. rewrite Hfr by done. cbn.
      by rewrite list_lookup_insert_ne.
Qed.

(** The empty pipeline, given the list of the scope and a parent that is
    another list. *)
Lemma empty_pipeline_run σ i s o xs exc :
  scopes σ !! i = Some s →
  lists σ !! data s = Some o →
  chain_get (class_defaults σ) (settings s) "pipeline" = inr (VPipeline []) →
  (∀ p, _parent s = Some p → p ≠ data s ∧ is_Some (lists σ !! p)) →
  ∃ σ', (append_each (data s) xs;; Assemblable_exit i exc;; result_items i) σ
        = (σ', inr (items o ++ xs)).
Proof.
  intros Hs Ho Hp Hpar.
  destruct (append_each_run (data s) xs σ o Ho) as (σ1 & Hrun & Hl & Hsc & Hd & Hfr).
  rewrite (bind_inr _ _ _ _ _ Hrun).
  assert (Hs1 : scopes σ1 !! i = Some s) by (by rewrite Hsc).
  assert (Hr : run_pipeline i (Obj (data s)) σ1 = (σ1, inr (Obj (data s)))).
  { apply run_pipeline_empty with s; [done|]. by rewrite Hd. }
  assert (Hself : <[i := with_result s (Obj (data s))]> (scopes σ1) !! i
                  = Some (with_result s (Obj (data s)))).
  { apply list_lookup_insert_eq. by eapply lookup_lt_Some. }
  destruct (_parent s) as [p|] eqn:Hps.
  - destruct (Hpar p eq_refl) as [Hne [po Hpo]].
    assert (Hpo1 : lists σ1 !! p = Some po) by (by rewrite Hfr).
    erewrite bind_inr; last first.
    { eapply (Assemblable_exit_parent i exc σ1 s p); try done.
      cbn. by rewrite Hl. }
    eexists. unfold result_items.
    erewrite bind_inr; [|eapply result_closed; [exact Hself|reflexivity]].
    unfold reading, contents. cbn. rewrite list_lookup_insert_ne by done.
    by rewrite Hl.
  - erewrite bind_inr; [|by apply Assemblable_exit_orphan].
    eexists. unfold result_items.
    erewrite bind_inr; [|eapply result_closed; [exact Hself|reflexivity]].
    unfold reading, contents. cbn. by rewrite Hl.
Qed.

(** ** The scenario of the specification *)

(** C1. The scenario of the specification ends with the result of the
    document scope being the one string
    [\begin{document}%], [\newcommand{\greet}[1]{%], [\textbf{Hello, #1!}],
    [}%], [\greet{World}], [\end{document}%], joined by line feeds. *)
Theorem end_to_end_result :
  (end_to_end initial_state).2
  = inr ["\begin{document}%" +:+ NL +:+ "\newcommand{\greet}[1]{%" +:+ NL
         +:+ "\textbf{Hello, #1!}" +:+ NL +:+ "}%" +:+ NL
         +:+ "\greet{World}" +:+ NL +:+ "\end{document}%"].
Proof. vm_compute. reflexivity. Qed.

(** ** Two scopes of one class *)

(** C2, as the code runs.  The document scope resolves the prefix
    [\begin{document}%] when it is created; the call that creates the inner
    scope of the same class writes the class dictionary both share, and the
    document scope then resolves [\begin{itemize}%] and closes with the
    prefix, the suffix and the pipeline of the inner scope. *)
Theorem nested_environments_result :
  (nested_environments initial_state).2
  = inr (VStr ("\begin{document}%" +:+ NL),
         VStr ("\begin{itemize}%" +:+ NL),
         ["\begin{itemize}%" +:+ NL +:+ "\begin{itemize}%" +:+ NL
          +:+ "\item x" +:+ NL +:+ "\end{itemize}%" +:+ NL +:+ "\end{itemize}%"]).
Proof. vm_compute. reflexivity. Qed.

(** ** The states a typed client can reach *)

Lemma stage_ok_mono σ σ' f : scopes_kept σ σ' → stage_ok σ f → stage_ok σ' f.
Proof.
  intros Hext. destruct f as [g|j|j]; cbn; [done| |];
    intros (s & Hs & Hc); destruct (Hext j s Hs) as (s' & Hs' & Hcls);
    exists s'; by rewrite Hcls.
Qed.

Lemma value_ok_mono σ σ' v : scopes_kept σ σ' → value_ok σ v → value_ok σ' v.
Proof.
  intros Hext. destruct v; cbn; try done.
  intros Hfs. eapply Forall_impl; [exact Hfs|].
  intros f. by apply stage_ok_mono.
Qed.

Lemma dict_ok_mono σ σ' d : scopes_kept σ σ' → dict_ok σ d → dict_ok σ' d.
Proof.
  intros Hext [Hty Hv]. split; [done|].
  intros k v Hk. eapply value_ok_mono; [done|]. by eapply Hv.
Qed.

Lemma scope_ok_mono σ σ' s :
  scopes_kept σ σ' → (length (lists σ) ≤ length (lists σ'))%nat →
  scope_ok σ s → scope_ok σ' s.
Proof.
  intros Hext Hlen (Hc & (ov & Hov & Hget) & Hd & Hp). split_and!; [done| |lia|].
  - exists ov. split; [by eapply dict_ok_mono|done].
  - intros p Hpar. destruct (Hp p Hpar). split; [lia|done].
Qed.

Lemma state_ok_defaults_ok σ : state_ok σ → defaults_ok σ.
Proof. intros [Hd _] c. destruct (Hd c) as [? [? _]]. by split. Qed.

Lemma declared_values_ok σ c k v :
  declared_defaults c !! k = Some v → value_ok σ v.
Proof.
  destruct c; cbn; rewrite ?lookup_insert, ?lookup_empty;
    repeat case_decide; intros [= <-]; cbn; done.
Qed.

Lemma state_ok_initial : state_ok initial_state.
Proof.
  split.
  - intros c. split; [done|]. split; [apply typed_dict_declared|].
    intros k v. apply declared_values_ok.
  - intros i s Hs. cbn in Hs. by destruct i.
Qed.

(** A state of the same shape: the same class dictionaries, as many lists,
    and scope objects that differ in their results at most. *)
Lemma state_ok_same_shape σ σ' :
  state_ok σ →
  class_defaults σ' = class_defaults σ →
  length (lists σ') = length (lists σ) →
  (∀ i s', scopes σ' !! i = Some s' →
     ∃ s, scopes σ !! i = Some s ∧ cls s' = cls s ∧ settings s' = settings s
          ∧ data s' = data s ∧ _parent s' = _parent s) →
  scopes_kept σ σ' →
  state_ok σ'.
Proof.
  intros [Hd Hs] Hcd Hlen Hsc Hext. split.
  - intros c. rewrite Hcd. destruct (Hd c) as [Hsub Hok].
    split; [done|]. by eapply dict_ok_mono.
  - intros i s' Hs'. destruct (Hsc i s' Hs') as (s & Hsi & Hc & Hst & Hda & Hpa).
    destruct (Hs i s Hsi) as (Hdecl & (ov & Hov & Hget) & Hdata & Hpar).
    split_and!.
    + by rewrite Hc.
    + exists ov. split; [by eapply dict_ok_mono|]. rewrite Hst, Hc. done.
    + rewrite Hda, Hlen. done.
    + rewrite Hpa, Hda, Hlen. done.
Qed.

Lemma state_ok_extend l xs σ : state_ok σ → state_ok (extend l xs σ).1.
Proof.
  intros Hok. unfold extend. destruct (lists σ !! l) as [o|]; [|done].
  apply (state_ok_same_shape σ); cbn; try done.
  - apply length_insert.
  - intros i s' Hs'. by exists s'.
  - intros j s Hs. by exists s.
Qed.

Lemma state_ok_exit self exc σ : state_ok σ → state_ok (Assemblable_exit self exc σ).1.
Proof.
  intros Hok. destruct (Assemblable_exit self exc σ) as [σ' out] eqn:Hrun.
  apply Assemblable_exit_frame in Hrun as (Hcd & Hls & Hll & Hfr & Hself).
  cbn [fst]. destruct Hself as [->|(s & r & Hs & _ & Hs')]; [done|].
  apply (state_ok_same_shape σ); try done.
  - intros i s' Hi. destruct (decide (i = self)) as [->|Hne].
    + rewrite Hs' in Hi. simplify_eq. by exists s.
    + rewrite Hfr in Hi by done. by exists s'.
  - intros j sj Hj. destruct (decide (j = self)) as [->|Hne].
    + rewrite Hs in Hj. injection Hj as <-. by exists (with_result s r).
    + exists sj. by rewrite Hfr.
Qed.

Lemma new_Assemblable_returns σ p kw :
  defaults_ok σ → typed_dict kw → keywords_bind Assemblable kw = true →
  ∃ σ' i, new_Assemblable p kw σ = (σ', inr i).
Proof.
  intros Hok Hkw Hb.
  destruct (Assemblable_init_returns (length (scopes σ)) Assemblable
              (class_settings Assemblable) p kw σ) as (t & il & Hret); try done.
  - by apply class_settings_typed.
  - apply class_settings_has_Assemblable. in_list.
  - apply Hok.
  - do 2 eexists. unfold new_Assemblable. rewrite bound_call by done.
    apply (construct_returns
             (λ self, Assemblable_init self Assemblable
                        (class_settings Assemblable) p kw) σ _ _ Hret).
Qed.

Lemma new_DocumentPart_returns σ p kw :
  defaults_ok σ → typed_dict kw → keywords_bind DocumentPart kw = true →
  ∃ σ' i, new_DocumentPart p kw σ = (σ', inr i).
Proof.
  intros Hok Hkw Hb.
  pose proof (DocumentPart_init_run (length (scopes σ)) DocumentPart
                (class_settings DocumentPart) p kw σ eq_refl) as Hinit.
  set (defs1 := store_default _ _ _ _) in Hinit.
  assert (Hw : written (λ _, True) (class_defaults σ) defs1)
    by (apply written_store; [apply written_refl|done..]).
  pose proof (defaults_ok_written _ σ defs1 Hok Hw) as Hok1.
  edestruct (Assemblable_init_returns (length (scopes σ)) DocumentPart)
    as (t & il & Hret); [| | | |rewrite Hret in Hinit].
  5: { do 2 eexists. unfold new_DocumentPart. rewrite bound_call by done.
       apply (construct_returns
                (λ self, DocumentPart_init self DocumentPart
                           (class_settings DocumentPart) p kw) σ _ _ Hinit). }
  - constructor; [by apply typed_dict_filter|]. by apply class_settings_typed.
  - apply list_elem_of_further. apply class_settings_has_Assemblable. in_list.
  - apply Hok1.
  - by apply typed_dict_filter.
Qed.

(** A call whose keyword arguments do not bind raises [TypeError] and
    changes nothing. *)
Lemma run_call_unbound c σ :
  keywords_bind (call_class c) (call_kwargs c) = false →
  run_call c σ = (σ, inl TypeError).
Proof.
  intros Hb. destruct c as [p kw|p kw|p nm kw|p nm kw]; cbn in *;
    by apply unbound_call.
Qed.

(** A call that returns has bound its arguments. *)
Lemma run_call_returns_bound c σ σ1 i :
  run_call c σ = (σ1, inr i) →
  keywords_bind (call_class c) (call_kwargs c) = true.
Proof.
  intros Hrun. destruct (keywords_bind _ _) eqn:Hb; [done|].
  by rewrite (run_call_unbound c σ Hb) in Hrun.
Qed.

(** With options of their declared types that bind, a call raises nothing
    but a [ValueError], and then it has changed nothing. *)
Lemma run_call_bound_typed c σ σ' e :
  defaults_ok σ → typed_dict (call_kwargs c) →
  keywords_bind (call_class c) (call_kwargs c) = true →
  run_call c σ = (σ', inl e) → is_ValueError e = true ∧ σ' = σ.
Proof.
  intros Hok Hkw Hb Hrun. destruct c as [p kw|p kw|p nm kw|p nm kw]; cbn in *.
  - destruct (new_Assemblable_returns σ p kw Hok Hkw Hb) as (? & ? & ?). congruence.
  - destruct (new_DocumentPart_returns σ p kw Hok Hkw Hb) as (? & ? & ?). congruence.
  - destruct (merged_lookup_typed σ NewCommand kw "nargs" Hok Hkw)
      as (v & Hv & Hvt); [by eexists|].
    apply typed_nargs in Hvt as [n ->].
    destruct (new_NewCommand_cases σ p nm kw n Hok Hkw Hb Hv)
      as [(e' & Hrun' & _)|(? & ? & ? & _)]; [|congruence].
    rewrite Hrun' in Hrun. by simplify_eq.
  - destruct (new_Environment_cases σ p nm kw Hok Hkw Hb)
      as [(e' & Hrun' & _)|(? & ? & ? & _)]; [|congruence].
    rewrite Hrun' in Hrun. by simplify_eq.
Qed.

(** With options of their declared types a call that raises has changed
    nothing. *)
Lemma run_call_typed c σ σ' e :
  defaults_ok σ → typed_dict (call_kwargs c) →
  run_call c σ = (σ', inl e) →
  σ' = σ ∧ (is_ValueError e = true ∨ e = TypeError).
Proof.
  intros Hok Hkw Hrun.
  destruct (keywords_bind (call_class c) (call_kwargs c)) eqn:Hb.
  - destruct (run_call_bound_typed c σ σ' e Hok Hkw Hb Hrun). auto.
  - rewrite (run_call_unbound c σ Hb) in Hrun. simplify_eq. auto.
Qed.

Lemma declares_call_class c : declares_defaults (call_class c) = true.
Proof. by destruct c. Qed.

Lemma dict_ok_overrides σ c : dict_ok σ (call_kwargs c) → dict_ok σ (call_overrides c).
Proof.
  intros [Hty Hv]. destruct c as [p kw|p kw|p nm kw|p nm kw]; cbn in *;
    try (by split).
  - split; [by apply typed_dict_insert|].
    intros k v. rewrite lookup_insert. case_decide; [by intros [= <-]|apply Hv].
  - split; [by apply typed_dict_insert|].
    intros k v. rewrite lookup_insert. case_decide; [by intros [= <-]|apply Hv].
Qed.

(** A typed call keeps the state in order. *)
Lemma state_ok_call c σ : state_ok σ → call_ok σ c → state_ok (run_call c σ).1.
Proof.
  intros Hok [Hkw Hpar]. pose proof (state_ok_defaults_ok σ Hok) as Hdok.
  destruct (run_call c σ) as [σ' [e|new]] eqn:Hrun; cbn [fst].
  { apply run_call_typed in Hrun as [-> _]; [done..|]. apply Hkw. }
  apply run_call_outcome in Hrun as [Hw [(e & ? & _)|(s & _ & Hcr)]]; [done|].
  pose proof (created_lookup _ _ _ _ Hcr) as Hnew.
  destruct Hcr as (Hsc & (lo & Hli & _) & Hcls & _ & Hp & Hdata & Hget).
  assert (Hext : scopes_kept σ σ').
  { intros j sj Hj. exists sj. split; [|done]. rewrite Hsc.
    by apply lookup_app_l_Some. }
  assert (Hlen : (length (lists σ) ≤ length (lists σ'))%nat).
  { rewrite Hli, length_app. lia. }
  destruct Hok as [Hd Hs]. destruct Hw as (Hwd & Hwt & _ & Hwv). split.
  - intros c'. destruct (Hd c') as (Hsub & Hty & Hval). split; [by apply Hwd|].
    split; [by apply Hwt|]. intros k v Hk.
    destruct (Hwv c' k v Hk) as [Hold|[[x ->]|[-> HDP]]]; [|done|].
    + eapply value_ok_mono; [done|]. by eapply Hval.
    + cbn. repeat constructor; exists s; by rewrite Hcls.
  - intros i s' Hi. rewrite Hsc in Hi.
    apply lookup_app_Some in Hi as [Hi|[Hge Hi]].
    + eapply scope_ok_mono; [done..|]. by eapply Hs.
    + destruct (i - length (scopes σ))%nat; [|by destruct n].
      cbn in Hi. injection Hi as <-. split_and!.
      * rewrite Hcls. apply declares_call_class.
      * exists (call_overrides c). split; [|by rewrite Hcls].
        eapply dict_ok_mono; [done|]. by apply dict_ok_overrides.
      * rewrite Hdata, Hli, length_app. cbn. lia.
      * intros p. rewrite Hp, Hdata. intros Hcp.
        specialize (Hpar p Hcp). split; lia.
Qed.

Lemma state_ok_run_op o σ : state_ok σ → op_ok σ o → state_ok (run_op o σ).
Proof.
  intros Hok Ho. destruct o as [c|l xs|i exc]; unfold run_op.
  - by apply state_ok_call.
  - by apply state_ok_extend.
  - by apply state_ok_exit.
Qed.

Lemma state_ok_run_ops os σ : state_ok σ → ops_ok os σ → state_ok (run_ops os σ).
Proof.
  revert σ. induction os as [|o os IH]; intros σ Hok Hos; [done|].
  destruct Hos as [Ho Hos]. cbn. apply IH; [|done]. by apply state_ok_run_op.
Qed.

(** ** In such a state the pipeline of every scope runs *)

Lemma chain_get_layers (defs : pyclass -> dict) (cm : ChainMap pyclass)
    (P : string -> value -> Prop) k v :
  Forall (λ m, ∀ k v, deref_mapping defs m !! k = Some v → P k v) cm →
  chain_get defs cm k = inr v → P k v.
Proof.
  induction 1 as [|m cm Hm _ IH]; [done|].
  rewrite chain_get_cons. destruct (_ !! k) eqn:E; [|done].
  intros [= <-]. eauto.
Qed.

Lemma chain_get_class_ok σ c k v :
  state_ok σ →
  chain_get (class_defaults σ) (class_settings c) k = inr v →
  typed k v = true ∧ value_ok σ v.
Proof.
  intros [Hd _].
  apply (chain_get_layers _ _ (λ k v, typed k v = true ∧ value_ok σ v)).
  assert (Hc : ∀ c' k v, deref_mapping (class_defaults σ) (Defaults c') !! k = Some v →
                 typed k v = true ∧ value_ok σ v).
  { intros c' k' v' Hk. destruct (Hd c') as (_ & Hty & Hv). split; eauto. }
  assert (He : ∀ k v, deref_mapping (class_defaults σ) (Own ∅) !! k = Some v →
                 typed k v = true ∧ value_ok σ v).
  { intros k' v'. cbn. by rewrite lookup_empty. }
  destruct c;
    repeat first [apply Forall_nil_2
                 | apply Forall_cons_2; [first [exact He | apply Hc]|]].
Qed.

Lemma scope_get_ok σ s k v :
  state_ok σ → scope_ok σ s →
  chain_get (class_defaults σ) (settings s) k = inr v →
  typed k v = true ∧ value_ok σ v.
Proof.
  intros Hok (_ & (ov & [Hty Hv] & Hget) & _). rewrite Hget.
  destruct (ov !! k) as [w|] eqn:E.
  - intros [= <-]. split; eauto.
  - by apply chain_get_class_ok.
Qed.

Lemma class_settings_has_DocumentPart c :
  DocumentPart ∈ mro c → Defaults DocumentPart ∈ class_settings c.
Proof.
  destruct c; intros Hc.
  1-3: repeat (apply elem_of_cons in Hc as [?|Hc]; [done|]);
       by apply elem_of_nil in Hc.
  - rewrite class_settings_DocumentPart. in_list.
  - rewrite class_settings_NewCommand. in_list.
  - rewrite class_settings_Environment. in_list.
Qed.

Lemma declares_has_Assemblable c :
  declares_defaults c = true → Assemblable ∈ mro c.
Proof. destruct c; intros Hc; try done; cbn; in_list. Qed.

(** A key that [owner] declares is found in the settings of every scope of a
    class that derives from [owner]. *)
Lemma scope_get_present σ s owner k :
  state_ok σ → scope_ok σ s →
  Defaults owner ∈ class_settings (cls s) →
  is_Some (declared_defaults owner !! k) →
  ∃ v, chain_get (class_defaults σ) (settings s) k = inr v.
Proof.
  intros [Hd _] (_ & (ov & _ & Hget) & _) Hin [v0 Hdecl]. rewrite Hget.
  destruct (ov !! k) as [w|]; [by eauto|].
  apply (chain_get_present _ _ (Defaults owner)); [done|].
  exists v0. cbn. destruct (Hd owner) as [Hsub _].
  by apply (lookup_weaken _ _ _ _ Hdecl).
Qed.

Lemma run_stage_total σ f xs :
  state_ok σ → stage_ok σ f → ∃ ys, run_stage f xs σ = (σ, inr ys).
Proof.
  intros Hok Hf. destruct f as [g|j|j]; [by eexists|..];
    destruct Hf as (s & Hs & HDP);
    pose proof (proj2 Hok j s Hs) as Hsok;
    pose proof (class_settings_has_DocumentPart _ HDP) as Hin.
  - destruct (scope_get_present σ s DocumentPart "delimiter" Hok Hsok Hin)
      as [d Hd]; [by eexists|].
    destruct (scope_get_ok σ s _ _ Hok Hsok Hd) as [Hty _].
    apply (typed_str "delimiter") in Hty as [sep ->]; [|in_list].
    eexists. unfold run_stage, bind, get_scope, settings_get, reading.
    by rewrite Hs, Hd.
  - destruct (scope_get_present σ s DocumentPart "prolog" Hok Hsok Hin)
      as [p Hp]; [by eexists|].
    destruct (scope_get_ok σ s _ _ Hok Hsok Hp) as [Hty _].
    apply (typed_str "prolog") in Hty as [pro ->]; [|in_list].
    destruct (scope_get_present σ s DocumentPart "epilog" Hok Hsok Hin)
      as [e He]; [by eexists|].
    destruct (scope_get_ok σ s _ _ Hok Hsok He) as [Hty _].
    apply (typed_str "epilog") in Hty as [epi ->]; [|in_list].
    eexists. unfold run_stage, bind, get_scope, settings_get, reading.
    by rewrite Hs, Hp, He.
Qed.

Lemma fold_pipeline_total σ fs d xs :
  state_ok σ → Forall (stage_ok σ) fs → contents σ d = inr xs →
  ∃ r ys, fold_pipeline fs d σ = (σ, inr r) ∧ contents σ r = inr ys.
Proof.
  intros Hok Hfs. revert d xs.
  induction Hfs as [|f fs Hf _ IH]; intros d xs Hd; [by exists d, xs|].
  destruct (run_stage_total σ f xs Hok Hf) as [ys Hys].
  destruct (IH (Fresh ys) ys eq_refl) as (r & zs & Hrun & Hr).
  exists r, zs. split; [|done].
  cbn [fold_pipeline]. unfold bind at 1, reading. rewrite Hd.
  by rewrite (bind_inr _ _ _ _ _ Hys).
Qed.

(** The pipeline of a scope returns, and what it returns can be read. *)
Lemma run_pipeline_total σ i s :
  state_ok σ → scopes σ !! i = Some s →
  ∃ r ys, run_pipeline i (Obj (data s)) σ = (σ, inr r) ∧ contents σ r = inr ys.
Proof.
  intros Hok Hs. pose proof (proj2 Hok i s Hs) as Hsok.
  destruct (scope_get_present σ s Assemblable "pipeline" Hok Hsok) as [v Hv].
  { apply class_settings_has_Assemblable, declares_has_Assemblable, Hsok. }
  { by eexists. }
  destruct (scope_get_ok σ s _ _ Hok Hsok Hv) as [Hty Hval].
  apply typed_pipeline in Hty as [fs ->].
  destruct Hsok as (_ & _ & Hdata & _).
  apply lookup_lt_is_Some in Hdata as [o Ho].
  destruct (fold_pipeline_total σ fs (Obj (data s)) (items o) Hok Hval)
    as (r & ys & Hrun & Hr).
  { cbn. by rewrite Ho. }
  exists r, ys. split; [|done].
  unfold run_pipeline, bind, get_scope, settings_get, reading.
  by rewrite Hs, Hv.
Qed.

(** Closing a scope in such a state returns. *)
Lemma Assemblable_exit_total σ i s exc :
  state_ok σ → scopes σ !! i = Some s →
  ∃ σ' r, Assemblable_exit i exc σ = (σ', inr VNone)
          ∧ run_pipeline i (Obj (data s)) σ = (σ, inr r)
          ∧ result i σ' = (σ', inr r).
Proof.
  intros Hok Hs. destruct (run_pipeline_total σ i s Hok Hs) as (r & ys & Hr & Hys).
  assert (Hself : <[i := with_result s r]> (scopes σ) !! i
                  = Some (with_result s r)).
  { apply list_lookup_insert_eq. by eapply lookup_lt_Some. }
  destruct (_parent s) as [p|] eqn:Hp.
  - destruct (proj2 Hok i s Hs) as (_ & _ & _ & Hpar).
    destruct (Hpar p Hp) as [Hlt _].
    apply lookup_lt_is_Some in Hlt as [po Hpo].
    eexists _, r. split_and!; [by eapply Assemblable_exit_parent|done|].
    by eapply result_closed.
  - eexists _, r. split_and!; [by eapply Assemblable_exit_orphan|done|].
    by eapply result_closed.
Qed.

Lemma dict_ok_empty σ : dict_ok σ ∅.
Proof. split; [apply typed_dict_empty|]. intros k v. by rewrite lookup_empty. Qed.

(** The class dictionaries stay in order under every operation, typed or
    not. *)
Lemma defaults_ok_run_op o σ : defaults_ok σ → defaults_ok (run_op o σ).
Proof.
  intros Hok. destruct o as [c|l xs|i exc]; unfold run_op.
  - destruct (run_call c σ) as [σ' out] eqn:Hrun.
    apply run_call_outcome in Hrun as [Hw _]. by eapply written_defaults_ok.
  - unfold extend. by destruct (lists σ !! l).
  - destruct (Assemblable_exit i exc σ) as [σ' out] eqn:Hrun.
    apply Assemblable_exit_frame in Hrun as (Hcd & _).
    intros c. cbn [fst]. rewrite Hcd. apply Hok.
Qed.

Lemma defaults_ok_run_ops os σ : defaults_ok σ → defaults_ok (run_ops os σ).
Proof.
  revert σ. induction os as [|o os IH]; intros σ Hok; [done|].
  cbn. by apply IH, defaults_ok_run_op.
Qed.

Lemma call_ok_intro σ c :
  dict_ok σ (call_kwargs c) →
  match call_parent c with
  | Some p => (p < length (lists σ))%nat
  | None => True
  end →
  call_ok σ c.
Proof.
  intros Hkw Hp. split; [done|]. intros p Hcp. by rewrite Hcp in Hp.
Qed.

(** ** The pipeline of the code and the pipeline of the specification *)

Lemma spec_join_str_join sep xs : spec_join sep xs = str_join sep xs.
Proof.
  induction xs as [|x xs IH]; [done|]. destruct xs as [|y ys]; [done|].
  change (x +:+ sep +:+ spec_join sep (y :: ys)
          = x +:+ sep +:+ str_join sep (y :: ys)).
  by rewrite IH.
Qed.

Lemma spec_concat_str_join xs : spec_concat xs = str_join "" xs.
Proof.
  induction xs as [|x xs IH]; [done|]. cbn [spec_concat]. rewrite IH.
  destruct xs as [|y ys]; [by rewrite append_empty_r|done].
Qed.

Lemma spec_concat_app xs ys :
  spec_concat (xs ++ ys) = spec_concat xs +:+ spec_concat ys.
Proof.
  induction xs as [|x xs IH]; [done|].
  cbn [app spec_concat]. by rewrite IH, append_assoc.
Qed.

Lemma spec_wrap_str_join pro epi xs :
  spec_wrap pro epi xs = [str_join "" ([pro] ++ xs ++ [epi])].
Proof.
  unfold spec_wrap. f_equal. rewrite <- spec_concat_str_join.
  change ([pro] ++ xs ++ [epi]) with (pro :: xs ++ [epi]).
  cbn [spec_concat]. rewrite spec_concat_app. cbn [spec_concat].
  by rewrite append_empty_r.
Qed.

(** A stage of the code returns what the stage of the specification
    gives, and returns whenever that is defined. *)
Lemma run_stage_spec σ f xs ys :
  (run_stage f xs σ).2 = inr ys ↔ spec_stage σ f xs = Some ys.
Proof.
  assert (Hiff : ∀ a : list string, (inr a : exn + list string) = inr ys ↔ Some a = Some ys).
  { intros a. split; intros [= ->]; done. }
  destruct f as [g|j|j]; cbn [run_stage spec_stage]; unfold configured.
  - apply Hiff.
  - unfold bind, get_scope, settings_get, reading.
    destruct (scopes σ !! j) as [s|]; [|done].
    destruct (chain_get _ _ "delimiter") as [?|[|sep| | | |]]; try done.
    rewrite (spec_join_str_join sep xs). apply Hiff.
  - unfold bind, get_scope, settings_get, reading.
    destruct (scopes σ !! j) as [s|]; [|done].
    destruct (chain_get _ _ "prolog") as [?|v]; [done|].
    destruct (chain_get _ _ "epilog") as [?|w]; [by destruct v|].
    destruct v as [|pro| | | |], w as [|epi| | | |]; try done.
    rewrite (spec_wrap_str_join pro epi xs). apply Hiff.
Qed.

(** The loop of the code over a list whose items are [xs] returns a list
    whose items are what the pipeline of the specification gives. *)
Lemma fold_pipeline_spec σ fs d xs r :
  contents σ d = inr xs →
  fold_pipeline fs d σ = (σ, inr r) →
  ∃ ys, spec_pipeline σ fs xs = Some ys ∧ contents σ r = inr ys.
Proof.
  revert d xs. induction fs as [|f fs IH]; intros d xs Hd.
  - intros [= <-]. by exists xs.
  - cbn [fold_pipeline spec_pipeline]. unfold bind at 1, reading. rewrite Hd.
    unfold bind. pose proof (run_stage_reads f xs σ) as Hst.
    pose proof (run_stage_spec σ f xs) as Hspec.
    destruct (run_stage f xs σ) as [σ' [e|ys]]; cbn in Hst; subst σ'; [done|].
    rewrite (proj1 (Hspec ys) eq_refl). by apply IH.
Qed.

(** The same for [run_pipeline], with the stages the scope resolves. *)
Lemma run_pipeline_spec σ i s d xs r :
  scopes σ !! i = Some s →
  contents σ d = inr xs →
  run_pipeline i d σ = (σ, inr r) →
  ∃ fs ys,
    chain_get (class_defaults σ) (settings s) "pipeline" = inr (VPipeline fs)
    ∧ spec_pipeline σ fs xs = Some ys
    ∧ contents σ r = inr ys.
Proof.
  intros Hs Hd. unfold run_pipeline, bind, get_scope, settings_get, reading.
  rewrite Hs. destruct (chain_get _ _ "pipeline") as [?|v]; [done|].
  destruct v as [| | | | |fs]; try done.
  intros Hrun. destruct (fold_pipeline_spec σ fs d xs r Hd Hrun) as (ys & ? & ?).
  by exists fs, ys.
Qed.

(** The lists of the heap are never fewer after an operation. *)
Lemma run_op_lists_length o σ :
  (length (lists σ) ≤ length (lists (run_op o σ)))%nat.
Proof.
  destruct o as [c|l xs|i exc]; unfold run_op.
  - destruct (run_call c σ) as [σ' out] eqn:Hrun.
    apply run_call_outcome in Hrun
      as [_ [(e & _ & Hli & _)|(s & _ & _ & (lo & Hli & _) & _)]];
      cbn [fst]; rewrite Hli; [done|]. rewrite length_app. lia.
  - unfold extend. destruct (lists σ !! l); [|done]. cbn.
    by rewrite length_insert.
  - destruct (Assemblable_exit i exc σ) as [σ' out] eqn:Hrun.
    apply Assemblable_exit_frame in Hrun as (_ & _ & Hlen & _).
    cbn [fst]. by rewrite Hlen.
Qed.

Lemma run_ops_lists_length os σ :
  (length (lists σ) ≤ length (lists (run_ops os σ)))%nat.
Proof.
  revert σ. induction os as [|o os IH]; intros σ; [done|].
  cbn. etrans; [apply (run_op_lists_length o)|apply IH].
Qed.

(** ** Closing a scope *)




(** The same statement, run: a command definition in a document
    environment whose body adds the item [x] and raises.  The one string
    of the definition has reached the list of the environment, it is the
    result of the scope, and the exception of the body has reached the
    caller. *)
Example with_failing_body_run :
  ∃ σ2,
    with_ (run_call demo_command_call) demo_failing_body demo_document_state
    = (σ2, inl (KeyError "boom"))
    ∧ items <$> lists σ2 !! 0%nat
      = Some ["\newcommand{\greet}{%" +:+ NL +:+ "x" +:+ NL +:+ "}%"]
    ∧ _result <$> scopes σ2 !! 1%nat
      = Some (Some (Fresh ["\newcommand{\greet}{%" +:+ NL +:+ "x" +:+ NL +:+ "}%"]))
    ∧ spec_pipeline demo_command_state [p_join 1%nat; p_wrap 1%nat] ["x"]
      = Some ["\newcommand{\greet}{%" +:+ NL +:+ "x" +:+ NL +:+ "}%"].
Proof. eexists. split_and!; reflexivity. Qed.

(** Closing a scope in a state in order leaves the items of what its
    pipeline returned as they were. *)
Lemma Assemblable_exit_contents σ i s exc r ys σ2 v :
  state_ok σ → scopes σ !! i = Some s →
  run_pipeline i (Obj (data s)) σ = (σ, inr r) →
  contents σ r = inr ys →
  Assemblable_exit i exc σ = (σ2, inr v) →
  contents σ2 r = inr ys.
Proof.
  intros Hok Hs Hr Hys Hexit.
  destruct (_parent s) as [p|] eqn:Hp.
  - destruct (proj2 Hok i s Hs) as (_ & _ & _ & Hpar).
    destruct (Hpar p Hp) as [Hlt Hne].
    apply lookup_lt_is_Some in Hlt as [po Hpo].
    rewrite (Assemblable_exit_parent i exc σ s p r ys po Hs Hp Hr Hys Hpo) in Hexit.
    injection Hexit as <- _.
    destruct (run_pipeline_result _ _ _ _ Hr) as [->|[zs ->]]; [|done].
    cbn in *. by rewrite list_lookup_insert_ne.
  - rewrite (Assemblable_exit_orphan i exc σ s r Hs Hp Hr) in Hexit.
    by injection Hexit as <- _.
Qed.

(** What the exit of a scope created by a call stores, when it returns:
    the stages the scope resolves, applied in order to the items of its
    list, give the items of the list stored as the result. *)
Lemma exit_stores_pipeline_output σ i s exc σ2 v :
  scopes σ !! i = Some s → (data s < length (lists σ))%nat →
  Assemblable_exit i exc σ = (σ2, inr v) →
  ∃ fs lo ys r,
    chain_get (class_defaults σ) (settings s) "pipeline" = inr (VPipeline fs)
    ∧ lists σ !! data s = Some lo
    ∧ spec_pipeline σ fs (items lo) = Some ys
    ∧ run_pipeline i (Obj (data s)) σ = (σ, inr r)
    ∧ contents σ r = inr ys
    ∧ result i σ2 = (σ2, inr r).
Proof.
  intros Hs Hdata Hexit.
  apply Assemblable_exit_returns in Hexit as (s' & r & Hs2 & Hr & Hs3).
  rewrite Hs in Hs2. injection Hs2 as <-.
  apply lookup_lt_is_Some in Hdata as [lo Hlo].
  destruct (run_pipeline_spec σ i s (Obj (data s)) (items lo) r Hs)
    as (fs & ys & Hfs & Hspec & Hys); [by cbn; rewrite Hlo|done|].
  exists fs, lo, ys, r. split_and!; [done..|]. by eapply result_closed.
Qed.

(** C4. From the call that creates a scope and through every operation but
    its own exit, reading [result] raises the [ValueError] "... has not been
    closed".  When the exit returns, [result] returns the list the pipeline
    returned, and its items are the output of the pipeline as the
    specification defines it: the stages the scope resolves at that moment,
    applied in order to the items of its list.  With the state in order and
    typed calls the exit does return, and the items read from [result]
    afterwards are that output. *)
Theorem result_only_after_close c σ σ1 i os :
  run_call c σ = (σ1, inr i) →
  (∀ exc, OpExit i exc ∉ os) →
  result i (run_ops os σ1) = (run_ops os σ1, inl (ValueError NotClosed))
  ∧ (∀ exc σ2 v,
       Assemblable_exit i exc (run_ops os σ1) = (σ2, inr v) →
       ∃ s fs lo ys r,
         scopes (run_ops os σ1) !! i = Some s
         ∧ chain_get (class_defaults (run_ops os σ1)) (settings s) "pipeline"
           = inr (VPipeline fs)
         ∧ lists (run_ops os σ1) !! data s = Some lo
         ∧ spec_pipeline (run_ops os σ1) fs (items lo) = Some ys
         ∧ run_pipeline i (Obj (data s)) (run_ops os σ1)
           = (run_ops os σ1, inr r)
         ∧ contents (run_ops os σ1) r = inr ys
         ∧ result i σ2 = (σ2, inr r))
  ∧ (state_ok σ → call_ok σ c → ops_ok os σ1 →
     ∀ exc, ∃ s fs lo ys σ2 r,
       scopes (run_ops os σ1) !! i = Some s
       ∧ chain_get (class_defaults (run_ops os σ1)) (settings s) "pipeline"
         = inr (VPipeline fs)
       ∧ lists (run_ops os σ1) !! data s = Some lo
       ∧ spec_pipeline (run_ops os σ1) fs (items lo) = Some ys
       ∧ Assemblable_exit i exc (run_ops os σ1) = (σ2, inr VNone)
       ∧ result i σ2 = (σ2, inr r)
       ∧ result_items i σ2 = (σ2, inr ys)).
Proof.
  intros Hrun Hos. pose proof Hrun as Hrun'.
  apply run_call_outcome in Hrun as [_ [(e & ? & _)|(s & [= ->] & Hcr)]]; [done|].
  pose proof (created_lookup _ _ _ _ Hcr) as Hs.
  assert (Hdata : (data s < length (lists (run_ops os σ1)))%nat).
  { destruct Hcr as (_ & (lo & Hli & _) & _ & _ & _ & Hd & _).
    eapply Nat.lt_le_trans; [|apply run_ops_lists_length].
    rewrite Hli, length_app, Hd. cbn. lia. }
  destruct Hcr as (_ & _ & _ & Hres & _).
  pose proof (run_ops_keeps_scope os σ1 _ s Hs Hos) as Hs'.
  split_and!.
  - rewrite (result_run _ _ s) by done. by rewrite Hres.
  - intros exc σ2 v Hexit.
    destruct (exit_stores_pipeline_output _ _ s exc σ2 v Hs' Hdata Hexit)
      as (fs & lo & ys & r & ?). by exists s, fs, lo, ys, r.
  - intros Hok Hc Hops exc.
    assert (Hok1 : state_ok σ1).
    { pose proof (state_ok_call c σ Hok Hc) as H1. by rewrite Hrun' in H1. }
    pose proof (state_ok_run_ops os σ1 Hok1 Hops) as Hok2.
    destruct (Assemblable_exit_total _ _ s exc Hok2 Hs') as (σ2 & r & Hex & _ & _).
    destruct (exit_stores_pipeline_output _ _ s exc σ2 VNone Hs' Hdata Hex)
      as (fs & lo & ys & r' & Hfs & Hlo & Hspec & Hr & Hys & Hres2).
    exists s, fs, lo, ys, σ2, r'. split_and!; [done..|].
    unfold result_items. rewrite (bind_inr _ _ _ _ _ Hres2). unfold reading.
    by rewrite (Assemblable_exit_contents _ _ s exc r' ys σ2 VNone Hok2 Hs' Hr Hys Hex).
Qed.

(** The document scope and the operations around it are typed. *)
Lemma demo_ops_ok :
  state_ok initial_state
  ∧ call_ok initial_state (CallEnvironment None "document" ∅)
  ∧ ops_ok demo_ops demo_document_state.
Proof.
  split_and!.
  - apply state_ok_initial.
  - by apply call_ok_intro; [apply dict_ok_empty|].
  - cbn [demo_ops ops_ok op_ok]. split_and!; try done.
    apply call_ok_intro; [apply dict_ok_empty|]. vm_compute. lia.
Qed.

Lemma result_only_after_close_witness :
  run_call (CallEnvironment None "document" ∅) initial_state
  = (demo_document_state, inr 0%nat)
  ∧ (∀ exc, OpExit 0%nat exc ∉ demo_ops)
  ∧ result 0%nat (run_ops demo_ops demo_document_state)
    = (run_ops demo_ops demo_document_state, inl (ValueError NotClosed))
  ∧ (∀ exc σ2 v,
       Assemblable_exit 0%nat exc (run_ops demo_ops demo_document_state)
       = (σ2, inr v) →
       ∃ s fs lo ys r,
         scopes (run_ops demo_ops demo_document_state) !! 0%nat = Some s
         ∧ chain_get (class_defaults (run_ops demo_ops demo_document_state))
             (settings s) "pipeline"
           = inr (VPipeline fs)
         ∧ lists (run_ops demo_ops demo_document_state) !! data s = Some lo
         ∧ spec_pipeline (run_ops demo_ops demo_document_state) fs (items lo)
           = Some ys
         ∧ run_pipeline 0%nat (Obj (data s))
             (run_ops demo_ops demo_document_state)
           = (run_ops demo_ops demo_document_state, inr r)
         ∧ contents (run_ops demo_ops demo_document_state) r = inr ys
         ∧ result 0%nat σ2 = (σ2, inr r))
  ∧ (∀ exc, ∃ s fs lo ys σ2 r,
       scopes (run_ops demo_ops demo_document_state) !! 0%nat = Some s
       ∧ chain_get (class_defaults (run_ops demo_ops demo_document_state))
           (settings s) "pipeline"
         = inr (VPipeline fs)
       ∧ lists (run_ops demo_ops demo_document_state) !! data s = Some lo
       ∧ spec_pipeline (run_ops demo_ops demo_document_state) fs (items lo)
         = Some ys
       ∧ Assemblable_exit 0%nat exc (run_ops demo_ops demo_document_state)
         = (σ2, inr VNone)
       ∧ result 0%nat σ2 = (σ2, inr r)
       ∧ result_items 0%nat σ2 = (σ2, inr ys)).
Proof.
  assert (H : ∀ exc, OpExit 0%nat exc ∉ demo_ops).
  { intros exc Hin. unfold demo_ops in Hin.
    repeat (apply elem_of_cons in Hin as [Hin|Hin]; [discriminate Hin|]).
    by apply elem_of_nil in Hin. }
  assert (Hrun : run_call (CallEnvironment None "document" ∅) initial_state
                 = (demo_document_state, inr 0%nat)) by reflexivity.
  destruct demo_ops_ok as (Hok & Hc & Hops).
  destruct (result_only_after_close (CallEnvironment None "document" ∅)
              initial_state demo_document_state 0%nat demo_ops Hrun H)
    as (H1 & H2 & H3).
  exact (conj Hrun (conj H (conj H1 (conj H2 (H3 Hok Hc Hops))))).
Defined.

(** The same, run: the document scope of the witness, closed after the
    operations, and its result read.  The class dictionary of
    [Environment] holds what the inner scope has written, so the stages
    are those of the inner scope and the one string begins with its
    prefix. *)
Example result_after_close_run :
  (Assemblable_exit 0%nat None;; result_items 0%nat)
    (run_ops demo_ops demo_document_state)
  = ((Assemblable_exit 0%nat None (run_ops demo_ops demo_document_state)).1,
     inr ["\begin{itemize}%" +:+ NL +:+ "a" +:+ NL
          +:+ "\begin{itemize}%" +:+ NL +:+ NL +:+ "\end{itemize}%"
          +:+ NL +:+ "\end{itemize}%"])
  ∧ spec_pipeline (run_ops demo_ops demo_document_state)
      [p_join 1%nat; p_wrap 1%nat]
      ["a"; "\begin{itemize}%" +:+ NL +:+ NL +:+ "\end{itemize}%"]
    = Some ["\begin{itemize}%" +:+ NL +:+ "a" +:+ NL
            +:+ "\begin{itemize}%" +:+ NL +:+ NL +:+ "\end{itemize}%"
            +:+ NL +:+ "\end{itemize}%"].
Proof. split; reflexivity. Qed.

(** C7. A scope whose pipeline is empty, in a state in order: after any
    items have been appended to its list and it has closed, the items of its
    result are the items its list held before, followed by the appended
    items in their order. *)
Theorem identity_pipeline σ i s xs exc :
  state_ok σ →
  scopes σ !! i = Some s →
  chain_get (class_defaults σ) (settings s) "pipeline" = inr (VPipeline []) →
  ∃ o σ', lists σ !! data s = Some o
          ∧ (append_each (data s) xs;; Assemblable_exit i exc;; result_items i) σ
            = (σ', inr (items o ++ xs)).
Proof.
  intros Hok Hs Hp.
  destruct (proj2 Hok i s Hs) as (_ & _ & Hdata & Hpar).
  apply lookup_lt_is_Some in Hdata as [o Ho].
  destruct (empty_pipeline_run σ i s o xs exc Hs Ho Hp) as [σ' Hrun].
  { intros p Hpp. destruct (Hpar p Hpp) as [Hlt Hne]. split; [done|].
    by apply lookup_lt_is_Some. }
  by exists o, σ'.
Qed.

Lemma demo_outer_state_ok : state_ok demo_outer_state.
Proof.
  apply (state_ok_call (CallAssemblable None ∅) initial_state);
    [apply state_ok_initial|].
  by apply call_ok_intro; [apply dict_ok_empty|].
Qed.

Lemma identity_pipeline_witness :
  ∃ o σ', lists demo_outer_state !! 0%nat = Some o
          ∧ (append_each 0%nat ["a"; "b"; "c"];; Assemblable_exit 0%nat None;;
             result_items 0%nat) demo_outer_state
            = (σ', inr (items o ++ ["a"; "b"; "c"])).
Proof.
  apply (identity_pipeline demo_outer_state 0%nat
           {| cls := Assemblable;
              settings := instance_settings (class_settings Assemblable) ∅;
              _result := None; _parent := None; data := 0%nat |}
           ["a"; "b"; "c"] None);
    [apply demo_outer_state_ok | reflexivity | reflexivity].
Defined.

(** The same run, computed: a new [Assemblable], three items, closed. *)
Example empty_pipeline_abc :
  ((append_each 0%nat ["a"; "b"; "c"];; Assemblable_exit 0%nat None;;
    result_items 0%nat) demo_outer_state).2
  = inr ["a"; "b"; "c"].
Proof. reflexivity. Qed.

(* ================================================================== *)
(** * Part III: further properties of the code                          *)
(* ================================================================== *)

(** ** The shape of every call *)

Lemma only_class_refl c defs : only_class c defs defs.
Proof. by intros c'. Qed.

Lemma only_class_store c defs defs' key v :
  only_class c defs defs' → only_class c defs (store_default defs' c key v).
Proof. intros H c' Hne. rewrite store_default_ne by done. by apply H. Qed.

Lemma Assemblable_init_inv_lookups self c ss p kw σ σ' s :
  Assemblable_init self c ss p kw σ = (σ', inr s) →
  ∃ t il,
    chain_get (class_defaults σ) (instance_settings ss kw) "list_type"
      = inr (VType t)
    ∧ chain_get (class_defaults σ) (instance_settings ss kw) "initial_list"
      = inr (VList il)
    ∧ σ' = set_lists (lists σ ++ [{| kind := t; context := Some self; items := il |}]) σ
    ∧ s = {| cls := c; settings := instance_settings ss kw; _result := None;
             _parent := p; data := length (lists σ) |}.
Proof.
  unfold Assemblable_init, settings_get, bind, reading.
  destruct (chain_get _ _ "list_type") as [?|lt]; [done|].
  destruct (chain_get _ _ "initial_list") as [?|il]; [done|].
  destruct lt, il as [| | | |il|]; try done.
  unfold new_list, ret. intros [= <- <-]. exists t, il. by destruct il.
Qed.

(** Every call either raises at validation and changes nothing, or writes
    the dictionary of its own class and then runs [Assemblable.__init__]. *)
Lemma keys_kept_refl defs : keys_kept defs defs.
Proof. by intros c k. Qed.

Lemma keys_kept_trans defs1 defs2 defs3 :
  keys_kept defs1 defs2 → keys_kept defs2 defs3 → keys_kept defs1 defs3.
Proof. intros H1 H2 c k Hk. by rewrite H2, H1. Qed.

Lemma keys_kept_store defs defs' c key v :
  keys_kept defs defs' → key ∈ written_keys c →
  keys_kept defs (store_default defs' c key v).
Proof.
  intros H Hkey c' k Hk. unfold store_default. case_decide; [subst c'|by apply H].
  rewrite lookup_insert_ne; [by apply H|]. by intros ->.
Qed.

Lemma run_call_shape c σ :
  (∃ e, run_call c σ = (σ, inl e) ∧ (is_ValueError e = true ∨ e = TypeError))
  ∨ (∃ defs1 ss kw0,
       run_call c σ
       = finish (length (scopes σ))
           (Assemblable_init (length (scopes σ)) (call_class c) ss
              (call_parent c) kw0 (set_class_defaults defs1 σ))
       ∧ (only_class (call_class c) (class_defaults σ) defs1
          ∧ keys_kept (class_defaults σ) defs1)
       ∧ (DocumentPart ∈ mro (call_class c) →
          defs1 (call_class c) !! "pipeline"
          = Some (VPipeline [p_join (length (scopes σ));
                             p_wrap (length (scopes σ))]))
       ∧ (call_class c = Assemblable → defs1 = class_defaults σ)
       ∧ ∀ defs k,
           chain_get defs (instance_settings ss kw0) k
           = match call_overrides c !! k with
             | Some v => inr v
             | None => chain_get defs (class_settings (call_class c)) k
             end).
Proof.
  destruct (keywords_bind (call_class c) (call_kwargs c)) eqn:Hb; last first.
  { left. exists TypeError. split; [by apply run_call_unbound|by right]. }
  destruct c as [p kw|p kw|p nm kw|p nm kw]; cbn [run_call call_class call_parent
                                                  call_overrides].
  - right. exists (class_defaults σ), (class_settings Assemblable), kw.
    split_and!; try done.
    + unfold new_Assemblable. rewrite bound_call by exact Hb.
      unfold construct, finish. by destruct σ.
    + intros Hin. cbn in Hin.
      repeat (apply elem_of_cons in Hin as [?|Hin]; [done|]).
      by apply elem_of_nil in Hin.
    + intros defs k. apply chain_get_instance.
  - right. eexists _, _, _. split_and!.
    + unfold new_DocumentPart. rewrite bound_call by exact Hb.
      unfold construct, finish.
      by rewrite DocumentPart_init_run.
    + apply only_class_store, only_class_refl.
    + apply keys_kept_store; [apply keys_kept_refl|in_list].
    + intros _. by rewrite store_default_eq, lookup_insert_eq.
    + done.
    + intros defs k. apply chain_get_split.
  - destruct (NewCommand_validate_cases NewCommand
                (dict_merge (class_defaults σ NewCommand) (<["name" := VStr nm]> kw))
                σ eq_refl) as [(e & He & Hkind)|(v & Hv)].
    + left. exists e. split; [|done].
      unfold new_NewCommand. rewrite bound_call by exact Hb.
      apply construct_raises. unfold NewCommand_init.
      rewrite (bind_inr _ _ _ _ _ (get_defaults_run NewCommand σ eq_refl)).
      by apply bind_inl.
    + right. eexists _, _, _. split_and!.
      * unfold new_NewCommand. rewrite bound_call by exact Hb.
        unfold construct, finish, NewCommand_init.
        rewrite (bind_inr _ _ _ _ _ (get_defaults_run NewCommand σ eq_refl)).
        rewrite (bind_inr _ _ _ _ _ Hv).
        unfold options_filter. cbn [fst snd].
        by rewrite DocumentPart_init_run.
      * cbn [class_defaults set_class_defaults].
        do 2 apply only_class_store. apply only_class_refl.
      * cbn [class_defaults set_class_defaults].
        do 2 (apply keys_kept_store; [|in_list]). apply keys_kept_refl.
      * intros _. cbn [class_defaults set_class_defaults].
        by rewrite store_default_eq, lookup_insert_eq.
      * done.
      * intros defs k. apply chain_get_two_splits.
  - destruct (Environment_validate_cases Environment
                (dict_merge (class_defaults σ Environment) (<["name" := VStr nm]> kw))
                σ eq_refl) as [(e & He & Hkind)|(v & w & Hv)].
    + left. exists e. split; [|done].
      unfold new_Environment. rewrite bound_call by exact Hb.
      apply construct_raises. unfold Environment_init.
      rewrite (bind_inr _ _ _ _ _ (get_defaults_run Environment σ eq_refl)).
      by apply bind_inl.
    + right. eexists _, _, _. split_and!.
      * unfold new_Environment. rewrite bound_call by exact Hb.
        unfold construct, finish, Environment_init.
        rewrite (bind_inr _ _ _ _ _ (get_defaults_run Environment σ eq_refl)).
        rewrite (bind_inr _ _ _ _ _ Hv).
        unfold options_filter. cbn [fst snd].
        by rewrite DocumentPart_init_run.
      * cbn [class_defaults set_class_defaults].
        do 3 apply only_class_store. apply only_class_refl.
      * cbn [class_defaults set_class_defaults].
        do 3 (apply keys_kept_store; [|in_list]). apply keys_kept_refl.
      * intros _. cbn [class_defaults set_class_defaults].
        by rewrite store_default_eq, lookup_insert_eq.
      * done.
      * intros defs k. apply chain_get_two_splits.
Qed.

(** A call writes the dictionary of its own class at most. *)
Lemma run_call_only_class c σ σ' out :
  run_call c σ = (σ', out) →
  only_class (call_class c) (class_defaults σ) (class_defaults σ').
Proof.
  intros Hrun.
  destruct (run_call_shape c σ)
    as [(e & He & _)|(defs1 & ss & kw0 & Hsh & [Hoc _] & _)].
  - rewrite He in Hrun. injection Hrun as <- _. apply only_class_refl.
  - rewrite Hsh in Hrun. unfold finish in Hrun.
    destruct (Assemblable_init _ _ _ _ _ _) as [σ2 [e|s]] eqn:Hinit.
    + apply Assemblable_init_raises in Hinit as [-> _].
      by injection Hrun as <- _.
    + apply Assemblable_init_inv in Hinit as (t & il & -> & _).
      by injection Hrun as <- _.
Qed.

(** The state a call leaves when it returns. *)
Lemma run_call_returns_state c σ σ1 i :
  run_call c σ = (σ1, inr i) →
  ∃ s lo,
    i = length (scopes σ)
    ∧ scopes σ1 = scopes σ ++ [s] ∧ lists σ1 = lists σ ++ [lo]
    ∧ cls s = call_class c ∧ _parent s = call_parent c ∧ _result s = None
    ∧ data s = length (lists σ)
    ∧ context lo = Some i
    ∧ chain_get (class_defaults σ1) (settings s) "list_type" = inr (VType (kind lo))
    ∧ chain_get (class_defaults σ1) (settings s) "initial_list"
      = inr (VList (items lo))
    ∧ (DocumentPart ∈ mro (call_class c) →
       class_defaults σ1 (call_class c) !! "pipeline"
       = Some (VPipeline [p_join i; p_wrap i]))
    ∧ (call_class c = Assemblable → class_defaults σ1 = class_defaults σ)
    ∧ ∀ defs k,
        chain_get defs (settings s) k
        = match call_overrides c !! k with
          | Some v => inr v
          | None => chain_get defs (class_settings (call_class c)) k
          end.
Proof.
  intros Hrun.
  destruct (run_call_shape c σ)
    as [(e & He & _)|(defs1 & ss & kw0 & Hsh & Hoc & Hpl & HA & Hget)].
  { rewrite He in Hrun. discriminate Hrun. }
  rewrite Hsh in Hrun. unfold finish in Hrun.
  destruct (Assemblable_init _ _ _ _ _ _) as [σ2 [e|s]] eqn:Hinit; [done|].
  apply Assemblable_init_inv_lookups in Hinit as (t & il & Ht & Hil & -> & ->).
  injection Hrun as <- <-.
  eexists _, {| kind := t; context := Some (length (scopes σ)); items := il |}.
  cbn. split_and!; try done.
Qed.

(** ** What the operations leave alone *)

Lemma grown_refl o : grown o o.
Proof. split_and!; [done..|]. exists []. by rewrite app_nil_r. Qed.

Lemma grown_trans o1 o2 o3 : grown o1 o2 → grown o2 o3 → grown o1 o3.
Proof.
  intros (Hk1 & Hc1 & xs & H1) (Hk2 & Hc2 & ys & H2). split_and!; [congruence..|].
  exists (xs ++ ys). by rewrite H2, H1, app_assoc.
Qed.

Lemma grown_added o xs : grown o (with_items_added o xs).
Proof. split_and!; [done..|]. by exists xs. Qed.

Lemma extend_lists l xs σ j o :
  lists σ !! j = Some o → ∃ o', lists (extend l xs σ).1 !! j = Some o' ∧ grown o o'.
Proof.
  intros Hj. unfold extend. destruct (lists σ !! l) as [ol|] eqn:Hl; cbn.
  - destruct (decide (j = l)) as [->|Hne].
    + exists (with_items_added ol xs). split.
      * apply list_lookup_insert_eq. by eapply lookup_lt_Some.
      * simplify_eq. apply grown_added.
    + exists o. rewrite list_lookup_insert_ne by done. split; [done|apply grown_refl].
  - exists o. split; [done|apply grown_refl].
Qed.

Lemma Assemblable_exit_lists self exc σ j o :
  lists σ !! j = Some o →
  ∃ o', lists (Assemblable_exit self exc σ).1 !! j = Some o' ∧ grown o o'.
Proof.
  intros Hj.
  assert (Hsame : ∃ o', lists σ !! j = Some o' ∧ grown o o')
    by (exists o; split; [done|apply grown_refl]).
  unfold Assemblable_exit, bind at 1, get_scope, reading.
  destruct (scopes σ !! self) as [s|] eqn:Hs; [|done].
  unfold bind at 1.
  destruct (run_pipeline self (Obj (data s)) σ) as [σ1 [e|r]] eqn:Hr;
    pose proof (run_pipeline_reads _ _ _ _ _ Hr) as ->; [done|].
  unfold bind at 1, set_result. rewrite Hs.
  destruct (_parent s) as [p|]; [|done].
  unfold bind at 1, reading. cbn [fst snd].
  destruct (contents _ r) as [e|ys]; [done|].
  unfold bind.
  pose proof (extend_lists p ys
                (set_scopes (<[self := with_result s r]> (scopes σ)) σ) j o Hj)
    as (o' & Ho' & Hg).
  exists o'. split; [|done].
  by destruct (extend p ys _) as [σ2 [?|?]].
Qed.

Lemma run_op_lists o σ j lo :
  lists σ !! j = Some lo → ∃ lo', lists (run_op o σ) !! j = Some lo' ∧ grown lo lo'.
Proof.
  intros Hj. destruct o as [c|l xs|i exc]; unfold run_op.
  - exists lo. split; [|apply grown_refl].
    destruct (run_call c σ) as [σ' out] eqn:Hrun.
    apply run_call_outcome in Hrun as [_ [(e & _ & Hl & _)|(s & _ & _ & (o' & Hl & _) & _)]];
      cbn [fst]; rewrite Hl; [done|]. by apply lookup_app_l_Some.
  - by apply extend_lists.
  - by apply Assemblable_exit_lists.
Qed.

Lemma run_op_scope o σ j s :
  scopes σ !! j = Some s →
  ∃ s', scopes (run_op o σ) !! j = Some s' ∧ same_scope s s'.
Proof.
  intros Hj. destruct o as [c|l xs|i exc]; unfold run_op.
  - exists s. split; [|done].
    destruct (run_call c σ) as [σ' out] eqn:Hrun.
    apply run_call_outcome in Hrun as [_ [(e & _ & _ & Hsc & _)|(s' & _ & Hsc & _)]];
      cbn [fst]; rewrite Hsc; [done|]. by apply lookup_app_l_Some.
  - exists s. split; [|done]. unfold extend. by destruct (lists σ !! l).
  - destruct (Assemblable_exit i exc σ) as [σ' out] eqn:Hrun.
    apply Assemblable_exit_frame in Hrun as (_ & _ & _ & Hfr & Hself).
    cbn [fst]. destruct (decide (j = i)) as [->|Hne].
    + destruct Hself as [->|(s0 & r & Hs0 & _ & Hs')]; [by exists s|].
      rewrite Hs0 in Hj. injection Hj as <-. by exists (with_result s0 r).
    + exists s. by rewrite Hfr.
Qed.

Lemma run_ops_scope os σ j s :
  scopes σ !! j = Some s →
  ∃ s', scopes (run_ops os σ) !! j = Some s' ∧ same_scope s s'.
Proof.
  revert σ s. induction os as [|o os IH]; intros σ s Hj; [by exists s|].
  destruct (run_op_scope o σ j s Hj) as (s1 & Hs1 & Hsame).
  destruct (IH (run_op o σ) s1 Hs1) as (s' & Hs' & Hsame').
  exists s'. split; [done|].
  destruct Hsame as (? & ? & ? & ?), Hsame' as (? & ? & ? & ?).
  split_and!; congruence.
Qed.

Lemma run_ops_lists os σ j lo :
  lists σ !! j = Some lo →
  ∃ lo', lists (run_ops os σ) !! j = Some lo' ∧ grown lo lo'.
Proof.
  revert σ lo. induction os as [|o os IH]; intros σ lo Hj.
  { exists lo. split; [done|apply grown_refl]. }
  destruct (run_op_lists o σ j lo Hj) as (lo1 & Hl1 & Hg1).
  destruct (IH (run_op o σ) lo1 Hl1) as (lo' & Hl' & Hg').
  exists lo'. split; [done|]. by eapply grown_trans.
Qed.

Lemma run_ops_override c σ σ1 i k v os :
  run_call c σ = (σ1, inr i) →
  call_overrides c !! k = Some v →
  ∃ s', scopes (run_ops os σ1) !! i = Some s'
        ∧ chain_get (class_defaults (run_ops os σ1)) (settings s') k = inr v.
Proof.
  intros Hrun Hk.
  apply run_call_outcome in Hrun as [_ [(e & ? & _)|(s & [= ->] & Hcr)]]; [done|].
  pose proof (created_lookup _ _ _ _ Hcr) as Hs.
  destruct Hcr as (_ & _ & _ & _ & _ & _ & Hget).
  destruct (run_ops_scope os σ1 _ s Hs) as (s' & Hs' & _ & Hset & _).
  exists s'. split; [done|]. by rewrite Hset, Hget, Hk.
Qed.

(** X1. Whatever a client does, a scope object keeps its class, its settings
    chain, its list and its parent: no operation assigns them again. *)
Theorem scope_attributes_fixed os σ j s :
  scopes σ !! j = Some s →
  ∃ s', scopes (run_ops os σ) !! j = Some s' ∧ same_scope s s'.
Proof. apply run_ops_scope. Qed.

Lemma scope_attributes_fixed_witness :
  ∃ s, scopes demo_document_state !! 0%nat = Some s
       ∧ ∃ s', scopes (run_ops (demo_ops ++ [OpExit 0%nat None])
                         demo_document_state) !! 0%nat = Some s'
               ∧ same_scope s s'.
Proof.
  eexists. split; [reflexivity|].
  apply (scope_attributes_fixed (demo_ops ++ [OpExit 0%nat None])
           demo_document_state 0%nat).
  reflexivity.
Defined.

(** X2. Whatever a client does, a list object keeps its class and its
    context, and the items it held stay at its front in their order: the
    operations add items at the end of a list and do nothing else to it. *)
Theorem lists_only_grow os σ j lo :
  lists σ !! j = Some lo →
  ∃ lo', lists (run_ops os σ) !! j = Some lo' ∧ grown lo lo'.
Proof. apply run_ops_lists. Qed.

Lemma lists_only_grow_witness :
  lists demo_document_state !! 0%nat
  = Some {| kind := LatexList; context := Some 0%nat; items := [] |}
  ∧ ∃ lo', lists (run_ops demo_ops demo_document_state) !! 0%nat = Some lo'
           ∧ grown {| kind := LatexList; context := Some 0%nat; items := [] |} lo'.
Proof.
  assert (H : lists demo_document_state !! 0%nat
              = Some {| kind := LatexList; context := Some 0%nat; items := [] |})
    by reflexivity.
  split; [exact H|].
  exact (lists_only_grow demo_ops demo_document_state 0%nat _ H).
Defined.

(** X3. An option a call supplies is what the scope resolves for that key
    from then on, whatever a client does and whatever the class
    dictionaries come to hold. *)
Theorem overrides_are_stable c σ σ1 i k v os :
  run_call c σ = (σ1, inr i) →
  call_overrides c !! k = Some v →
  ∃ s', scopes (run_ops os σ1) !! i = Some s'
        ∧ chain_get (class_defaults (run_ops os σ1)) (settings s') k = inr v.
Proof. apply run_ops_override. Qed.

Lemma overrides_are_stable_witness :
  run_call (CallEnvironment None "document" (<["delimiter" := VStr " "]> ∅))
    initial_state
  = ((run_call (CallEnvironment None "document" (<["delimiter" := VStr " "]> ∅))
        initial_state).1, inr 0%nat)
  ∧ ∃ s', scopes (run_ops demo_ops
                    (run_call (CallEnvironment None "document"
                                 (<["delimiter" := VStr " "]> ∅))
                       initial_state).1) !! 0%nat = Some s'
          ∧ chain_get
              (class_defaults
                 (run_ops demo_ops
                    (run_call (CallEnvironment None "document"
                                 (<["delimiter" := VStr " "]> ∅))
                       initial_state).1))
              (settings s') "delimiter" = inr (VStr " ").
Proof.
  assert (H : run_call (CallEnvironment None "document"
                          (<["delimiter" := VStr " "]> ∅)) initial_state
              = ((run_call (CallEnvironment None "document"
                              (<["delimiter" := VStr " "]> ∅))
                    initial_state).1, inr 0%nat)) by reflexivity.
  split; [exact H|].
  exact (overrides_are_stable _ _ _ _ "delimiter" (VStr " ") demo_ops H eq_refl).
Defined.

(** X4. The property [name] of a scope that a call of [NewCommand] or of
    [Environment] has created is the name given as argument, also when the
    keyword arguments hold another ['name'], and stays so whatever a client
    does. *)
Theorem name_is_the_argument c σ σ1 i nm os :
  (∃ p kw, c = CallNewCommand p nm kw ∨ c = CallEnvironment p nm kw) →
  run_call c σ = (σ1, inr i) →
  name i (run_ops os σ1) = (run_ops os σ1, inr (VStr nm)).
Proof.
  intros (p & kw & Hc) Hrun. pose proof Hrun as Hrs.
  apply run_call_returns_state in Hrs
    as (s & lo & -> & Hsc & _ & Hcls & _ & _ & _ & _ & _ & _ & _ & _ & Hget).
  assert (Hs : scopes σ1 !! length (scopes σ) = Some s)
    by (rewrite Hsc; by apply list_lookup_middle).
  destruct (run_ops_scope os σ1 _ s Hs) as (s' & Hs' & Hcls' & Hset & _).
  unfold name, bind, get_scope, settings_get, reading. rewrite Hs'.
  rewrite bool_decide_eq_true_2.
  - rewrite Hset, Hget.
    assert (call_overrides c !! "name" = Some (VStr nm)) as ->; [|done].
    destruct Hc as [-> | ->]; cbn; apply lookup_insert_eq.
  - rewrite Hcls', Hcls. destruct Hc as [-> | ->]; cbn; in_list.
Qed.

Lemma name_is_the_argument_witness :
  name 0%nat
    (run_ops demo_ops
       (run_call (CallNewCommand None "greet" (<["name" := VStr "other"]> ∅))
          initial_state).1)
  = (run_ops demo_ops
       (run_call (CallNewCommand None "greet" (<["name" := VStr "other"]> ∅))
          initial_state).1, inr (VStr "greet")).
Proof.
  apply (name_is_the_argument
           (CallNewCommand None "greet" (<["name" := VStr "other"]> ∅))
           initial_state
           (run_call (CallNewCommand None "greet" (<["name" := VStr "other"]> ∅))
              initial_state).1 0%nat "greet" demo_ops).
  - exists None, (<["name" := VStr "other"]> ∅). by left.
  - reflexivity.
Defined.

(** X5. The list a new scope hands out at entry is a new object of the class
    its ['list_type'] resolves to, holds the items its ['initial_list']
    resolves to, and has the scope as its context; and whatever a client
    does afterwards, entering the scope returns that list and the context
    of the list is that scope. *)
Theorem list_of_a_new_scope c σ σ1 i os :
  run_call c σ = (σ1, inr i) →
  ∃ s lo,
    scopes σ1 !! i = Some s
    ∧ lists σ !! data s = None
    ∧ lists σ1 !! data s = Some lo
    ∧ chain_get (class_defaults σ1) (settings s) "list_type" = inr (VType (kind lo))
    ∧ chain_get (class_defaults σ1) (settings s) "initial_list"
      = inr (VList (items lo))
    ∧ Assemblable_enter i (run_ops os σ1) = (run_ops os σ1, inr (data s))
    ∧ list_context (data s) (run_ops os σ1) = (run_ops os σ1, inr (Some i)).
Proof.
  intros Hrun.
  apply run_call_returns_state in Hrun
    as (s & lo & -> & Hsc & Hli & _ & _ & _ & Hd & Hctx & Hlt & Hil & _).
  assert (Hs : scopes σ1 !! length (scopes σ) = Some s)
    by (rewrite Hsc; by apply list_lookup_middle).
  assert (Hlo : lists σ1 !! data s = Some lo)
    by (rewrite Hd, Hli; by apply list_lookup_middle).
  destruct (run_ops_scope os σ1 _ s Hs) as (s' & Hs' & _ & _ & Hd' & _).
  destruct (run_ops_lists os σ1 _ lo Hlo) as (lo' & Hlo' & _ & Hc' & _).
  exists s, lo. split_and!; try done.
  - rewrite Hd. by apply lookup_ge_None_2.
  - unfold Assemblable_enter, bind, get_scope, reading, ret.
    by rewrite Hs', Hd'.
  - unfold list_context, reading. by rewrite Hlo', Hc', Hctx.
Qed.

Lemma list_of_a_new_scope_witness :
  ∃ s lo,
    scopes demo_document_state !! 0%nat = Some s
    ∧ lists initial_state !! data s = None
    ∧ lists demo_document_state !! data s = Some lo
    ∧ chain_get (class_defaults demo_document_state) (settings s) "list_type"
      = inr (VType (kind lo))
    ∧ chain_get (class_defaults demo_document_state) (settings s) "initial_list"
      = inr (VList (items lo))
    ∧ Assemblable_enter 0%nat (run_ops demo_ops demo_document_state)
      = (run_ops demo_ops demo_document_state, inr (data s))
    ∧ list_context (data s) (run_ops demo_ops demo_document_state)
      = (run_ops demo_ops demo_document_state, inr (Some 0%nat)).
Proof.
  apply (list_of_a_new_scope (CallEnvironment None "document" ∅) initial_state
           demo_document_state 0%nat demo_ops).
  reflexivity.
Defined.

(** ** Scopes of one class, scopes of different classes *)

Lemma class_settings_object : class_settings object = [Own ∅].
Proof. reflexivity. Qed.

Lemma class_settings_HasOptions : class_settings HasOptions = [Own ∅].
Proof. reflexivity. Qed.

(** The chain of a class reads the dictionaries of the classes of its
    resolution order only. *)
Lemma chain_get_class_settings_ext (defs defs' : pyclass -> dict) C k :
  (∀ c, c ∈ mro C → defs' c = defs c) →
  chain_get defs' (class_settings C) k = chain_get defs (class_settings C) k.
Proof.
  intros H. destruct C.
  - by rewrite class_settings_object.
  - by rewrite class_settings_HasOptions.
  - rewrite class_settings_Assemblable, !chain_get_cons. cbn [deref_mapping].
    by rewrite !H by (cbn; in_list).
  - rewrite class_settings_DocumentPart, !chain_get_cons. cbn [deref_mapping].
    by rewrite !H by (cbn; in_list).
  - rewrite class_settings_NewCommand, !chain_get_cons. cbn [deref_mapping].
    by rewrite !H by (cbn; in_list).
  - rewrite class_settings_Environment, !chain_get_cons. cbn [deref_mapping].
    by rewrite !H by (cbn; in_list).
Qed.

Lemma run_call_Assemblable_writes_nothing c σ σ' out :
  call_class c = Assemblable → run_call c σ = (σ', out) →
  class_defaults σ' = class_defaults σ.
Proof.
  intros Hc Hrun.
  destruct (run_call_shape c σ)
    as [(e & He & _)|(defs1 & ss & kw0 & Hsh & _ & _ & HA & _)].
  - rewrite He in Hrun. by injection Hrun as <- _.
  - rewrite Hsh, (HA Hc) in Hrun. unfold finish in Hrun.
    destruct (Assemblable_init _ _ _ _ _ _) as [σ2 [e|s]] eqn:Hinit.
    + apply Assemblable_init_raises in Hinit as [-> _].
      by injection Hrun as <- _.
    + apply Assemblable_init_inv in Hinit as (t & il & -> & _).
      by injection Hrun as <- _.
Qed.

(** X6. In a state in order, a call of [Assemblable], or of a class that is
    not among the classes the scope derives from, changes nothing a scope in
    being resolves: whether the call returns or raises, the scope object is
    as before and every key of its settings reads as before. *)
Theorem other_classes_do_not_interfere c σ σ' out j s :
  state_ok σ →
  scopes σ !! j = Some s →
  call_class c = Assemblable ∨ call_class c ∉ mro (cls s) →
  run_call c σ = (σ', out) →
  scopes σ' !! j = Some s
  ∧ ∀ k, chain_get (class_defaults σ') (settings s) k
         = chain_get (class_defaults σ) (settings s) k.
Proof.
  intros Hok Hj Hc Hrun. split.
  - pose proof (run_op_keeps_scope (OpCall c) σ j s Hj) as Hk.
    unfold run_op in Hk. rewrite Hrun in Hk. by apply Hk.
  - intros k. destruct (proj2 Hok j s Hj) as (_ & (ov & _ & Hget) & _).
    rewrite !Hget. destruct (ov !! k); [done|].
    destruct Hc as [HA|Hnot].
    + by rewrite (run_call_Assemblable_writes_nothing c σ σ' out HA Hrun).
    + apply chain_get_class_settings_ext. intros c' Hc'.
      apply (run_call_only_class c σ σ' out Hrun). by intros ->.
Qed.

Lemma other_classes_do_not_interfere_witness :
  ∃ s, scopes demo_document_state !! 0%nat = Some s
       ∧ scopes (run_call (CallNewCommand (Some 0%nat) "greet" ∅)
                   demo_document_state).1 !! 0%nat = Some s
       ∧ ∀ k, chain_get
                (class_defaults (run_call (CallNewCommand (Some 0%nat) "greet" ∅)
                                   demo_document_state).1)
                (settings s) k
              = chain_get (class_defaults demo_document_state) (settings s) k.
Proof.
  eexists. split; [reflexivity|].
  apply (other_classes_do_not_interfere
           (CallNewCommand (Some 0%nat) "greet" ∅) demo_document_state
           (run_call (CallNewCommand (Some 0%nat) "greet" ∅) demo_document_state).1
           (inr 1%nat) 0%nat).
  - apply (state_ok_call (CallEnvironment None "document" ∅) initial_state);
      [apply state_ok_initial|].
    by apply call_ok_intro; [apply dict_ok_empty|].
  - reflexivity.
  - right. cbn. intros Hin.
    repeat (apply elem_of_cons in Hin as [Hin|Hin]; [discriminate Hin|]).
    by apply elem_of_nil in Hin.
  - reflexivity.
Defined.

(** X7. The pipeline is bound per class, not per scope.  When a scope of a
    class that derives from [DocumentPart] was created without a
    ['pipeline'] option, then after any later call of the same class that
    returns, the first scope resolves as its pipeline the bound methods
    [p_join] and [p_wrap] of the scope created last. *)
Theorem pipeline_follows_the_latest_scope c1 c2 σ σ1 σ2 i1 i2 os :
  run_call c1 σ = (σ1, inr i1) →
  DocumentPart ∈ mro (call_class c1) →
  call_kwargs c1 !! "pipeline" = None →
  call_class c2 = call_class c1 →
  run_call c2 (run_ops os σ1) = (σ2, inr i2) →
  ∃ s1, scopes σ2 !! i1 = Some s1
        ∧ chain_get (class_defaults σ2) (settings s1) "pipeline"
          = inr (VPipeline [p_join i2; p_wrap i2]).
Proof.
  intros Hrun1 HDP Hkw Hcls Hrun2.
  apply run_call_outcome in Hrun1 as [_ [(e & ? & _)|(s & [= ->] & Hcr)]]; [done|].
  pose proof (created_lookup _ _ _ _ Hcr) as Hs.
  destruct Hcr as (_ & _ & _ & _ & _ & _ & Hget).
  destruct (run_ops_scope (os ++ [OpCall c2]) σ1 _ s Hs)
    as (s' & Hs' & _ & Hset & _).
  unfold run_ops in Hs'. rewrite fold_left_app in Hs'. cbn in Hs'.
  fold (run_ops os σ1) in Hs'. rewrite Hrun2 in Hs'. cbn in Hs'.
  exists s'. split; [done|]. rewrite Hset, Hget.
  assert (Hov : call_overrides c1 !! "pipeline" = None).
  { destruct c1; cbn in *; rewrite ?lookup_insert_ne; done. }
  rewrite Hov.
  apply run_call_returns_state in Hrun2
    as (s2 & lo & _ & _ & _ & _ & _ & _ & _ & _ & _ & _ & Hpl & _).
  rewrite Hcls in Hpl. apply chain_get_class_own; [|by apply Hpl].
  apply declares_call_class.
Qed.

Lemma pipeline_follows_the_latest_scope_witness :
  ∃ s1, scopes (run_call (CallEnvironment (Some 0%nat) "itemize" ∅)
                  (run_ops [OpExtend 0%nat ["a"]] demo_document_state)).1
          !! 0%nat = Some s1
        ∧ chain_get
            (class_defaults
               (run_call (CallEnvironment (Some 0%nat) "itemize" ∅)
                  (run_ops [OpExtend 0%nat ["a"]] demo_document_state)).1)
            (settings s1) "pipeline"
          = inr (VPipeline [p_join 1%nat; p_wrap 1%nat]).
Proof.
  apply (pipeline_follows_the_latest_scope
           (CallEnvironment None "document" ∅)
           (CallEnvironment (Some 0%nat) "itemize" ∅)
           initial_state demo_document_state _ 0%nat 1%nat
           [OpExtend 0%nat ["a"]]); try reflexivity.
  cbn. in_list.
Defined.

(** ** What a pipeline computes *)

Lemma fold_pipeline_functions gs d xs σ :
  contents σ d = inr xs →
  ∃ r, fold_pipeline (SFun <$> gs) d σ = (σ, inr r)
       ∧ contents σ r = inr (fold_left (λ acc g, g acc) gs xs).
Proof.
  revert d xs. induction gs as [|g gs IH]; intros d xs Hd; [by exists d|].
  destruct (IH (Fresh (g xs)) (g xs) eq_refl) as (r & Hrun & Hr).
  exists r. split; [|done].
  cbn [fmap list_fmap fold_pipeline]. unfold bind at 1, reading. rewrite Hd.
  unfold bind at 1. cbn [run_stage ret]. exact Hrun.
Qed.

(** X8. A pipeline of functions of the caller is applied in the order of the
    list, each function to what the one before returned, the first to the
    items of the list; the empty pipeline hands the list back. *)
Theorem pipeline_applies_in_order σ i s gs d xs :
  scopes σ !! i = Some s →
  chain_get (class_defaults σ) (settings s) "pipeline"
    = inr (VPipeline (SFun <$> gs)) →
  contents σ d = inr xs →
  ∃ r, run_pipeline i d σ = (σ, inr r)
       ∧ contents σ r = inr (fold_left (λ acc g, g acc) gs xs)
       ∧ (gs = [] → r = d).
Proof.
  intros Hs Hp Hd.
  destruct (fold_pipeline_functions gs d xs σ Hd) as (r & Hrun & Hr).
  exists r. split_and!; [|done|].
  - unfold run_pipeline, bind, get_scope, settings_get, reading.
    by rewrite Hs, Hp.
  - intros ->. cbn in Hrun. by injection Hrun as <-.
Qed.

Lemma pipeline_applies_in_order_witness :
  ∃ s r,
    scopes demo_functions_state !! 0%nat = Some s
    ∧ run_pipeline 0%nat (Obj 0%nat) demo_functions_state
      = (demo_functions_state, inr r)
    ∧ contents demo_functions_state r = inr ["c"; "b"].
Proof.
  let o := eval vm_compute in (scopes demo_functions_state !! 0%nat) in
  match o with
  | Some ?s =>
      exists s;
      destruct (pipeline_applies_in_order demo_functions_state 0%nat s
                  demo_functions (Obj 0%nat) ["a"; "b"; "c"])
        as (r & Hrun & Hr & _); [reflexivity..|]
  end.
  exists r. split_and!; [reflexivity|exact Hrun|exact Hr].
Defined.

(** What [p_join] and then [p_wrap] of a scope [j] make of a list. *)
Lemma run_pipeline_join_wrap σ i s j sj d xs sep pro epi :
  scopes σ !! i = Some s →
  chain_get (class_defaults σ) (settings s) "pipeline"
    = inr (VPipeline [p_join j; p_wrap j]) →
  scopes σ !! j = Some sj →
  chain_get (class_defaults σ) (settings sj) "delimiter" = inr (VStr sep) →
  chain_get (class_defaults σ) (settings sj) "prolog" = inr (VStr pro) →
  chain_get (class_defaults σ) (settings sj) "epilog" = inr (VStr epi) →
  contents σ d = inr xs →
  run_pipeline i d σ = (σ, inr (Fresh [pro +:+ str_join sep xs +:+ epi])).
Proof.
  intros Hs Hp Hj Hsep Hpro Hepi Hd.
  unfold run_pipeline, bind, get_scope, settings_get, reading.
  rewrite Hs, Hp. cbn [fold_pipeline]. unfold bind, reading.
  rewrite Hd. cbn [run_stage]. unfold bind, get_scope, settings_get, reading.
  rewrite Hj, Hsep. cbn [ret contents]. by rewrite Hj, Hpro, Hepi.
Qed.

(** A [with] statement over a scope in being, in a state in order. *)
Lemma with_existing σ i s body σ1 out :
  scopes σ !! i = Some s →
  body (data s) σ = (σ1, out) →
  scopes σ1 !! i = Some s →
  state_ok σ1 →
  ∃ σ2 r, with_ (ret i) body σ = (σ2, out)
          ∧ Assemblable_exit i (match out with inl e => Some e | inr _ => None end) σ1
            = (σ2, inr VNone)
          ∧ run_pipeline i (Obj (data s)) σ1 = (σ1, inr r)
          ∧ result i σ2 = (σ2, inr r).
Proof.
  intros Hs Hbody Hs1 Hok.
  destruct (Assemblable_exit_total σ1 i s
              (match out with inl e => Some e | inr _ => None end) Hok Hs1)
    as (σ2 & r & Hex & Hr & Hres).
  exists σ2, r. split_and!; try done.
  unfold with_. unfold bind at 1, ret.
  assert (Henter : Assemblable_enter i σ = (σ, inr (data s))).
  { unfold Assemblable_enter, bind, get_scope, reading. by rewrite Hs. }
  rewrite (bind_inr _ _ _ _ _ Henter). rewrite Hbody, Hex.
  by destruct out as [e|[]].
Qed.

Lemma extend_run l xs σ o :
  lists σ !! l = Some o →
  extend l xs σ = (set_lists (<[l := with_items_added o xs]> (lists σ)) σ, inr ()).
Proof. intros Hl. unfold extend. by rewrite Hl. Qed.

Lemma build_join_wrap c σ σ1 i xs :
  state_ok σ → call_ok σ c →
  DocumentPart ∈ mro (call_class c) →
  call_kwargs c !! "pipeline" = None →
  run_call c σ = (σ1, inr i) →
  ∃ s lo pro sep epi σ2,
    scopes σ1 !! i = Some s
    ∧ lists σ1 !! data s = Some lo
    ∧ chain_get (class_defaults σ1) (settings s) "prolog" = inr (VStr pro)
    ∧ chain_get (class_defaults σ1) (settings s) "delimiter" = inr (VStr sep)
    ∧ chain_get (class_defaults σ1) (settings s) "epilog" = inr (VStr epi)
    ∧ build c xs σ
      = (σ2, inr [pro +:+ str_join sep (items lo ++ xs) +:+ epi])
    ∧ chain_get (class_defaults σ1) (settings s) "initial_list"
      = inr (VList (items lo))
    ∧ ∀ defs k,
        chain_get defs (settings s) k
        = match call_overrides c !! k with
          | Some v => inr v
          | None => chain_get defs (class_settings (call_class c)) k
          end.
Proof.
  intros Hok Hc HDP Hkw Hrun.
  assert (Hok1 : state_ok σ1).
  { pose proof (state_ok_call c σ Hok Hc) as H1. by rewrite Hrun in H1. }
  pose proof Hrun as Hrs.
  apply run_call_returns_state in Hrs
    as (s & lo & -> & Hsc & Hli & Hcls & _ & _ & Hd & _ & _ & Hil & Hpl & _ & Hget).
  assert (Hs : scopes σ1 !! length (scopes σ) = Some s)
    by (rewrite Hsc; by apply list_lookup_middle).
  assert (Hlo : lists σ1 !! data s = Some lo)
    by (rewrite Hd, Hli; by apply list_lookup_middle).
  pose proof (proj2 Hok1 _ s Hs) as Hsok.
  assert (Hin : Defaults DocumentPart ∈ class_settings (cls s)).
  { rewrite Hcls. by apply class_settings_has_DocumentPart. }
  destruct (scope_get_present σ1 s DocumentPart "prolog" Hok1 Hsok Hin)
    as [vp Hvp]; [by eexists|].
  destruct (scope_get_ok σ1 s _ _ Hok1 Hsok Hvp) as [Hty _].
  apply (typed_str "prolog") in Hty as [pro ->]; [|in_list].
  destruct (scope_get_present σ1 s DocumentPart "delimiter" Hok1 Hsok Hin)
    as [vd Hvd]; [by eexists|].
  destruct (scope_get_ok σ1 s _ _ Hok1 Hsok Hvd) as [Hty _].
  apply (typed_str "delimiter") in Hty as [sep ->]; [|in_list].
  destruct (scope_get_present σ1 s DocumentPart "epilog" Hok1 Hsok Hin)
    as [ve Hve]; [by eexists|].
  destruct (scope_get_ok σ1 s _ _ Hok1 Hsok Hve) as [Hty _].
  apply (typed_str "epilog") in Hty as [epi ->]; [|in_list].
  assert (Hpipe : chain_get (class_defaults σ1) (settings s) "pipeline"
                  = inr (VPipeline [p_join (length (scopes σ));
                                    p_wrap (length (scopes σ))])).
  { rewrite Hget.
    assert (call_overrides c !! "pipeline" = None) as ->.
    { destruct c; cbn in *; rewrite ?lookup_insert_ne; done. }
    apply chain_get_class_own; [apply declares_call_class|by apply Hpl]. }
  pose proof (extend_run (data s) xs σ1 lo Hlo) as Hext.
  set (σ1' := set_lists _ σ1) in Hext.
  assert (Hok1' : state_ok σ1').
  { pose proof (state_ok_extend (data s) xs σ1 Hok1) as H1. by rewrite Hext in H1. }
  destruct (with_existing σ1 (length (scopes σ)) s (λ l, extend l xs) σ1' (inr ())
              Hs Hext Hs Hok1') as (σ2 & r & Hwith & _ & Hr & Hres).
  rewrite (run_pipeline_join_wrap σ1' (length (scopes σ)) s (length (scopes σ)) s
             (Obj (data s)) (items lo ++ xs) sep pro epi) in Hr; try done.
  2: { cbn. rewrite list_lookup_insert_eq; [done|]. by eapply lookup_lt_Some. }
  injection Hr as <-.
  exists s, lo, pro, sep, epi, σ2. split_and!; try done.
  unfold build. rewrite (bind_inr _ _ _ _ _ Hrun).
  rewrite (bind_inr _ _ _ _ _ Hwith).
  unfold result_items. by rewrite (bind_inr _ _ _ _ _ Hres).
Qed.

(** X9. Join, then wrap.  A scope of a class that derives from
    [DocumentPart], created without a ['pipeline'] option by a typed call in
    a state in order, filled and closed before another scope of its class is
    created: its result is one string, the prefix it resolves, the items of
    its list (those of ['initial_list'], then those added) joined by the
    delimiter it resolves, and the suffix it resolves.  With no items at all
    the result is still one string, prefix and suffix. *)
Theorem join_then_wrap c σ σ1 i xs :
  state_ok σ → call_ok σ c →
  DocumentPart ∈ mro (call_class c) →
  call_kwargs c !! "pipeline" = None →
  run_call c σ = (σ1, inr i) →
  ∃ s lo pro sep epi σ2,
    scopes σ1 !! i = Some s
    ∧ lists σ1 !! data s = Some lo
    ∧ chain_get (class_defaults σ1) (settings s) "prolog" = inr (VStr pro)
    ∧ chain_get (class_defaults σ1) (settings s) "delimiter" = inr (VStr sep)
    ∧ chain_get (class_defaults σ1) (settings s) "epilog" = inr (VStr epi)
    ∧ build c xs σ
      = (σ2, inr [pro +:+ str_join sep (items lo ++ xs) +:+ epi]).
Proof.
  intros Hok Hc HDP Hkw Hrun.
  destruct (build_join_wrap c σ σ1 i xs Hok Hc HDP Hkw Hrun)
    as (s & lo & pro & sep & epi & σ2 & ? & ? & ? & ? & ? & ? & _).
  by exists s, lo, pro, sep, epi, σ2.
Qed.

Lemma join_then_wrap_witness :
  ∃ s lo pro sep epi σ2,
    scopes demo_document_state !! 0%nat = Some s
    ∧ lists demo_document_state !! data s = Some lo
    ∧ chain_get (class_defaults demo_document_state) (settings s) "prolog"
      = inr (VStr pro)
    ∧ chain_get (class_defaults demo_document_state) (settings s) "delimiter"
      = inr (VStr sep)
    ∧ chain_get (class_defaults demo_document_state) (settings s) "epilog"
      = inr (VStr epi)
    ∧ build (CallEnvironment None "document" ∅) ["a"; "b"] initial_state
      = (σ2, inr [pro +:+ str_join sep (items lo ++ ["a"; "b"]) +:+ epi]).
Proof.
  apply (join_then_wrap (CallEnvironment None "document" ∅) initial_state
           demo_document_state 0%nat ["a"; "b"]).
  - apply state_ok_initial.
  - by apply call_ok_intro; [apply dict_ok_empty|].
  - cbn. in_list.
  - reflexivity.
  - reflexivity.
Defined.

(** The same call, computed. *)
Example build_document :
  (build (CallEnvironment None "document" ∅) ["a"; "b"] initial_state).2
  = inr ["\begin{document}%" +:+ NL +:+ "a" +:+ NL +:+ "b" +:+ NL
         +:+ "\end{document}%"].
Proof. reflexivity. Qed.

(** ** The keys of the class dictionaries that are written *)

Lemma run_call_keys c σ :
  keys_kept (class_defaults σ) (class_defaults (run_call c σ).1).
Proof.
  destruct (run_call_shape c σ)
    as [(e & He & _)|(defs1 & ss & kw0 & Hsh & [_ Hk] & _)].
  - rewrite He. apply keys_kept_refl.
  - rewrite Hsh. unfold finish.
    destruct (Assemblable_init _ _ _ _ _ _) as [σ2 [e|s]] eqn:Hinit.
    + by apply Assemblable_init_raises in Hinit as [-> _].
    + by apply Assemblable_init_inv in Hinit as (t & il & -> & _).
Qed.

Lemma run_op_keys o σ :
  keys_kept (class_defaults σ) (class_defaults (run_op o σ)).
Proof.
  destruct o as [c|l xs|i exc]; unfold run_op.
  - apply run_call_keys.
  - unfold extend. destruct (lists σ !! l); apply keys_kept_refl.
  - destruct (Assemblable_exit i exc σ) as [σ' out] eqn:Hrun.
    cbn [fst]. apply Assemblable_exit_frame in Hrun as (-> & _).
    apply keys_kept_refl.
Qed.

Lemma run_ops_keys os σ :
  keys_kept (class_defaults σ) (class_defaults (run_ops os σ)).
Proof.
  revert σ. induction os as [|o os IH]; intros σ; [apply keys_kept_refl|].
  cbn. eapply keys_kept_trans; [apply run_op_keys|apply IH].
Qed.

(** X10. The library writes few entries of the class dictionaries:
    ['pipeline'] in the one of [DocumentPart], ['prolog'] and ['pipeline']
    in the one of [NewCommand], ['prolog'], ['epilog'] and ['pipeline'] in
    the one of [Environment], and nothing in the one of [Assemblable].
    Whatever a client does, every other entry of a class dictionary reads
    as before, present or absent. *)
Theorem class_dictionaries_keep_their_entries os σ c k :
  k ∉ written_keys c →
  class_defaults (run_ops os σ) c !! k = class_defaults σ c !! k.
Proof. apply run_ops_keys. Qed.

Lemma class_dictionaries_keep_their_entries_witness :
  class_defaults (run_ops (OpCall (CallEnvironment None "itemize" ∅) :: demo_ops)
                    demo_document_state) Environment !! "delimiter"
  = class_defaults demo_document_state Environment !! "delimiter".
Proof.
  apply (class_dictionaries_keep_their_entries
           (OpCall (CallEnvironment None "itemize" ∅) :: demo_ops)
           demo_document_state Environment "delimiter").
  not_in_list.
Defined.

(** ** What a document part renders *)

(** In a state a client has reached from the start, an entry the library
    does not write is the declared one. *)
Lemma reached_entry os c k :
  k ∉ written_keys c →
  class_defaults (run_ops os initial_state) c !! k = declared_defaults c !! k.
Proof. intros Hk. by rewrite (run_ops_keys os initial_state c k Hk). Qed.

Lemma called_entry c σ σ1 out C k :
  run_call c σ = (σ1, out) → k ∉ written_keys C →
  class_defaults σ1 C !! k = class_defaults σ C !! k.
Proof.
  intros Hrun Hk. pose proof (run_call_keys c σ C k Hk) as H.
  by rewrite Hrun in H.
Qed.

Lemma dict_ok_insert σ d k v :
  typed k v = true → value_ok σ v → dict_ok σ d → dict_ok σ (<[k := v]> d).
Proof.
  intros Hty Hv [Hd Hvs]. split; [by apply typed_dict_insert|].
  intros k' v'. rewrite lookup_insert. case_decide; [by intros [= <-]|apply Hvs].
Qed.

Lemma merged_default (d kw : dict) k v0 :
  d !! k = Some v0 → dict_merge d kw !! k = Some (default v0 (kw !! k)).
Proof.
  intros Hd. unfold dict_merge. rewrite lookup_union, Hd.
  by destruct (kw !! k).
Qed.

(** X11. What an environment renders.  In a state a typed client has
    reached from the start, [Environment(parent, name, **kw)] with a name of
    the grammar, no keyword argument with the name of a parameter of the
    initialiser and no ['prolog'], ['epilog'], ['delimiter'], ['pipeline']
    or ['initial_list'] among the options, filled with [xs] and closed,
    returns, and its result is the one string
    [\begin{name}[ops]{args}%], a line break, the items of [xs] separated
    by line breaks, a line break and [\end{name}%]; the markers of [ops] and
    [args] are there for strings that are not empty. *)
Theorem Environment_renders os p nm kw xs :
  ops_ok os initial_state →
  call_ok (run_ops os initial_state) (CallEnvironment p nm kw) →
  keywords_bind Environment kw = true →
  in_grammar letter environment_name_char nm →
  (∀ k, k ∈ ["prolog"; "epilog"; "delimiter"; "pipeline"; "initial_list"] →
        kw !! k = None) →
  ∃ σ2,
    build (CallEnvironment p nm kw) xs (run_ops os initial_state)
    = (σ2, inr ["\begin{" +:+ nm +:+ "}"
                +:+ marker_if_nonempty "[" "]" (default VNone (kw !! "ops"))
                +:+ marker_if_nonempty "{" "}" (default VNone (kw !! "args"))
                +:+ "%" +:+ NL +:+ str_join NL xs +:+ NL
                +:+ "\end{" +:+ nm +:+ "}%"]).
Proof.
  intros Hos Hc Hbind Hg Hkw. set (σ := run_ops os initial_state) in *.
  assert (Hok : state_ok σ) by (apply state_ok_run_ops; [apply state_ok_initial|done]).
  pose proof (state_ok_defaults_ok σ Hok) as Hdok.
  assert (Hty : typed_dict kw) by apply Hc.
  set (a := default VNone (kw !! "args")). set (o := default VNone (kw !! "ops")).
  assert (Ha : dict_merge (class_defaults σ Environment) kw !! "args" = Some a).
  { apply merged_default. unfold σ. rewrite reached_entry; [done|not_in_list]. }
  assert (Ho : dict_merge (class_defaults σ Environment) kw !! "ops" = Some o).
  { apply merged_default. unfold σ. rewrite reached_entry; [done|not_in_list]. }
  assert (Hoa : is_opt_str a = true).
  { apply (typed_opt_str "args"); [in_list|].
    destruct (Hdok Environment) as [_ Hd].
    by apply (typed_dict_merge _ _ Hd Hty "args"). }
  assert (Hoo : is_opt_str o = true).
  { apply (typed_opt_str "ops"); [in_list|].
    destruct (Hdok Environment) as [_ Hd].
    by apply (typed_dict_merge _ _ Hd Hty "ops"). }
  apply validate_environment_name_None in Hg.
  destruct (new_Environment_valid σ p nm kw a o Hdok Hty Hbind Hg Ha Hoa Ho Hoo)
    as (σ1 & s0 & Hrun & _ & Hpro & Hepi).
  change (new_Environment p nm kw σ) with (run_call (CallEnvironment p nm kw) σ)
    in Hrun.
  destruct (build_join_wrap (CallEnvironment p nm kw) σ σ1 (length (scopes σ))
              xs Hok Hc)
    as (s & lo & pro & sep & epi & σ2 & Hs & Hlo & Hp & Hd & He & Hb & Hil & Hget);
    [cbn; in_list | apply Hkw; in_list | exact Hrun |].
  assert (Hov : ∀ k, k ∈ ["prolog"; "epilog"; "delimiter"; "pipeline"; "initial_list"] →
                     call_overrides (CallEnvironment p nm kw) !! k = None).
  { intros k Hk. cbn. rewrite lookup_insert_ne; [by apply Hkw|].
    intros <-. revert Hk. not_in_list. }
  rewrite Hget, Hov in Hp by in_list. cbn [call_class] in Hp.
  rewrite (chain_get_class_own _ Environment "prolog" _ eq_refl Hpro) in Hp.
  rewrite Hget, Hov in He by in_list. cbn [call_class] in He.
  rewrite (chain_get_class_own _ Environment "epilog" _ eq_refl Hepi) in He.
  rewrite Hget, Hov in Hd by in_list. cbn [call_class] in Hd.
  rewrite (chain_get_class_own _ Environment "delimiter" (VStr NL) eq_refl) in Hd.
  2: { rewrite (called_entry _ _ _ _ Environment "delimiter" Hrun) by not_in_list.
       unfold σ. by rewrite reached_entry by not_in_list. }
  rewrite Hget, Hov in Hil by in_list.
  cbn [call_class] in Hil.
  rewrite class_settings_Environment, !chain_get_cons in Hil.
  cbn [deref_mapping] in Hil.
  rewrite !(called_entry _ _ _ _ _ "initial_list" Hrun) in Hil by not_in_list.
  unfold σ in Hil. rewrite !reached_entry in Hil by not_in_list.
  cbn in Hil.
  injection Hp as <-. injection He as <-. injection Hd as <-.
  injection Hil as Hil. exists σ2. rewrite Hb, <- Hil.
  rewrite Environment_prolog_spec by done. unfold Environment_epilog.
  cbn [app]. by rewrite !append_assoc.
Qed.

Lemma Environment_renders_witness :
  ∃ σ2,
    build (CallEnvironment None "tabular" (<["args" := VStr "ll"]> ∅))
      ["a & b"; "c & d"]
      (run_ops [OpCall (CallEnvironment None "document" ∅)] initial_state)
    = (σ2, inr ["\begin{" +:+ "tabular" +:+ "}"
                +:+ marker_if_nonempty "[" "]"
                      (default VNone ((<["args" := VStr "ll"]> ∅ : dict) !! "ops"))
                +:+ marker_if_nonempty "{" "}"
                      (default VNone ((<["args" := VStr "ll"]> ∅ : dict) !! "args"))
                +:+ "%" +:+ NL +:+ str_join NL ["a & b"; "c & d"] +:+ NL
                +:+ "\end{" +:+ "tabular" +:+ "}%"]).
Proof.
  apply (Environment_renders [OpCall (CallEnvironment None "document" ∅)]
           None "tabular" (<["args" := VStr "ll"]> ∅) ["a & b"; "c & d"]).
  - split; [|done]. by apply call_ok_intro; [apply dict_ok_empty|].
  - by apply call_ok_intro; [apply dict_ok_insert; [..|apply dict_ok_empty]|].
  - reflexivity.
  - by apply fullmatch_first_rest.
  - intros k Hk. rewrite lookup_insert_ne; [apply lookup_empty|].
    intros <-. revert Hk. not_in_list.
Defined.

(** The same environment, computed. *)
Example tabular_rendered :
  (build (CallEnvironment None "tabular" (<["args" := VStr "ll"]> ∅))
     ["a & b"; "c & d"]
     (run_ops [OpCall (CallEnvironment None "document" ∅)] initial_state)).2
  = inr ["\begin{tabular}{ll}%" +:+ NL +:+ "a & b" +:+ NL +:+ "c & d" +:+ NL
         +:+ "\end{tabular}%"].
Proof. reflexivity. Qed.

(** X12. What a command definition renders.  In a state a typed client has
    reached from the start, [NewCommand(parent, name, **kw)] with a name of
    the grammar, a number of arguments [n] from 0 to 9 (0 when none is
    given), no keyword argument with the name of a parameter of the
    initialiser and no ['prolog'], ['epilog'], ['delimiter'], ['pipeline'] or
    ['initial_list'] among the options, filled with [xs] and closed,
    returns, and its result is the one string [\newcommand{\name}[n][d]{%],
    a line break, the items of [xs] separated by line breaks, a line break
    and [}%]; [[n]] is there when [n] is positive and [[d]] when a default
    is given. *)
Theorem NewCommand_renders os p nm kw n xs :
  ops_ok os initial_state →
  call_ok (run_ops os initial_state) (CallNewCommand p nm kw) →
  keywords_bind NewCommand kw = true →
  in_grammar letter control_word_char nm →
  (∀ k, k ∈ ["prolog"; "epilog"; "delimiter"; "pipeline"; "initial_list"] →
        kw !! k = None) →
  default (VInt 0) (kw !! "nargs") = VInt n → 0 ≤ n ≤ 9 →
  ∃ σ2,
    build (CallNewCommand p nm kw) xs (run_ops os initial_state)
    = (σ2, inr ["\newcommand{\" +:+ nm +:+ "}"
                +:+ (if decide (0 < n) then "[" +:+ pretty n +:+ "]" else "")
                +:+ marker_if_supplied "[" "]" (default VNone (kw !! "default"))
                +:+ "{%" +:+ NL +:+ str_join NL xs +:+ NL +:+ "}%"]).
Proof.
  intros Hos Hc Hbind Hg Hkw Hnargs Hr. set (σ := run_ops os initial_state) in *.
  assert (Hok : state_ok σ) by (apply state_ok_run_ops; [apply state_ok_initial|done]).
  pose proof (state_ok_defaults_ok σ Hok) as Hdok.
  assert (Hty : typed_dict kw) by apply Hc.
  set (d := default VNone (kw !! "default")).
  assert (Hn : dict_merge (class_defaults σ NewCommand) kw !! "nargs" = Some (VInt n)).
  { rewrite <- Hnargs. apply merged_default. unfold σ.
    rewrite reached_entry; [done|not_in_list]. }
  assert (Hd0 : dict_merge (class_defaults σ NewCommand) kw !! "default" = Some d).
  { apply merged_default. unfold σ. rewrite reached_entry; [done|not_in_list]. }
  assert (Hod : is_opt_str d = true).
  { apply (typed_opt_str "default"); [in_list|].
    destruct (Hdok NewCommand) as [_ Hd].
    by apply (typed_dict_merge _ _ Hd Hty "default"). }
  apply validate_latex_control_word_None in Hg.
  destruct (new_NewCommand_valid σ p nm kw n d Hdok Hty Hbind Hg Hn Hr Hd0 Hod)
    as (σ1 & s0 & Hrun & _ & Hpro).
  change (new_NewCommand p nm kw σ) with (run_call (CallNewCommand p nm kw) σ)
    in Hrun.
  destruct (build_join_wrap (CallNewCommand p nm kw) σ σ1 (length (scopes σ))
              xs Hok Hc)
    as (s & lo & pro & sep & epi & σ2 & Hs & Hlo & Hp & Hd & He & Hb & Hil & Hget);
    [cbn; in_list | apply Hkw; in_list | exact Hrun |].
  assert (Hov : ∀ k, k ∈ ["prolog"; "epilog"; "delimiter"; "pipeline"; "initial_list"] →
                     call_overrides (CallNewCommand p nm kw) !! k = None).
  { intros k Hk. cbn. rewrite lookup_insert_ne; [by apply Hkw|].
    intros <-. revert Hk. not_in_list. }
  rewrite Hget, Hov in Hp by in_list. cbn [call_class] in Hp.
  rewrite (chain_get_class_own _ NewCommand "prolog" _ eq_refl Hpro) in Hp.
  rewrite Hget, Hov in He by in_list. cbn [call_class] in He.
  rewrite (chain_get_class_own _ NewCommand "epilog" (VStr (NL +:+ "}%")) eq_refl)
    in He.
  2: { rewrite (called_entry _ _ _ _ NewCommand "epilog" Hrun) by not_in_list.
       unfold σ. by rewrite reached_entry by not_in_list. }
  rewrite Hget, Hov in Hd by in_list. cbn [call_class] in Hd.
  rewrite (chain_get_class_own _ NewCommand "delimiter" (VStr NL) eq_refl) in Hd.
  2: { rewrite (called_entry _ _ _ _ NewCommand "delimiter" Hrun) by not_in_list.
       unfold σ. by rewrite reached_entry by not_in_list. }
  rewrite Hget, Hov in Hil by in_list.
  cbn [call_class] in Hil.
  rewrite class_settings_NewCommand, !chain_get_cons in Hil.
  cbn [deref_mapping] in Hil.
  rewrite !(called_entry _ _ _ _ _ "initial_list" Hrun) in Hil by not_in_list.
  unfold σ in Hil. rewrite !reached_entry in Hil by not_in_list.
  cbn in Hil.
  injection Hp as <-. injection He as <-. injection Hd as <-.
  injection Hil as Hil. exists σ2. rewrite Hb, <- Hil.
  rewrite NewCommand_prolog_spec by done.
  cbn [app]. by rewrite !append_assoc.
Qed.

Lemma NewCommand_renders_witness :
  ∃ σ2,
    build (CallNewCommand None "pair" (<["nargs" := VInt 2]> ∅)) ["(#1,"; "#2)"]
      (run_ops [OpCall (CallEnvironment None "document" ∅)] initial_state)
    = (σ2, inr ["\newcommand{\" +:+ "pair" +:+ "}"
                +:+ (if decide (0 < 2) then "[" +:+ pretty 2 +:+ "]" else "")
                +:+ marker_if_supplied "[" "]"
                      (default VNone ((<["nargs" := VInt 2]> ∅ : dict) !! "default"))
                +:+ "{%" +:+ NL +:+ str_join NL ["(#1,"; "#2)"] +:+ NL +:+ "}%"]).
Proof.
  apply (NewCommand_renders [OpCall (CallEnvironment None "document" ∅)]
           None "pair" (<["nargs" := VInt 2]> ∅) 2 ["(#1,"; "#2)"]).
  - split; [|done]. by apply call_ok_intro; [apply dict_ok_empty|].
  - by apply call_ok_intro; [apply dict_ok_insert; [..|apply dict_ok_empty]|].
  - reflexivity.
  - by apply fullmatch_first_rest.
  - intros k Hk. rewrite lookup_insert_ne; [apply lookup_empty|].
    intros <-. revert Hk. not_in_list.
  - reflexivity.
  - lia.
Defined.

(** The same command, computed. *)
Example pair_rendered :
  (build (CallNewCommand None "pair" (<["nargs" := VInt 2]> ∅)) ["(#1,"; "#2)"]
     (run_ops [OpCall (CallEnvironment None "document" ∅)] initial_state)).2
  = inr ["\newcommand{\pair}[2]{%" +:+ NL +:+ "(#1," +:+ NL +:+ "#2)" +:+ NL
         +:+ "}%"].
Proof. reflexivity. Qed.

(** ** The helpers of [LatexList] *)




(** The helpers, computed: on the list of an [Environment], and on the list
    of an [Assemblable]. *)
Example helpers_run :
  (build (CallEnvironment None "description" ∅) [] initial_state).2
  = inr ["\begin{description}%" +:+ NL +:+ NL +:+ "\end{description}%"]
  ∧ ((desc_item 0%nat "key" "text";; rule 0%nat None (Some "1pt");;
      Assemblable_exit 0%nat None;; result_items 0%nat) demo_document_state).2
    = inr ["\begin{document}%" +:+ NL +:+ "\item [{key}] text" +:+ NL
           +:+ "\rule{\textwidth}{1pt}" +:+ NL +:+ "\end{document}%"]
  ∧ (desc_item 0%nat "key" "text" demo_outer_state).2
    = inl (AttributeError "desc_item").
Proof. split_and!; reflexivity. Qed.

(** ** The validators of names *)

(** X14. Each validator sorts every string into one of three cases: the
    empty string raises the error for an empty name; a string of the
    grammar passes, a letter and then letters, [@], [*] or [:] for a control
    word, a letter and then letters, digits, [@] or [*] for an environment
    name; every other string raises the error for an invalid name, which
    carries the string. *)
Theorem names_classified name :
  ((name = "" ∧ validate_latex_control_word name = Some CommandNameEmpty)
   ∨ (in_grammar letter control_word_char name
      ∧ validate_latex_control_word name = None)
   ∨ (name ≠ "" ∧ ¬ in_grammar letter control_word_char name
      ∧ validate_latex_control_word name = Some (CommandNameInvalid name)))
  ∧ ((name = "" ∧ validate_environment_name name = Some EnvironmentNameEmpty)
     ∨ (in_grammar letter environment_name_char name
        ∧ validate_environment_name name = None)
     ∨ (name ≠ "" ∧ ¬ in_grammar letter environment_name_char name
        ∧ validate_environment_name name = Some (EnvironmentNameInvalid name))).
Proof.
  split.
  - destruct name as [|c s]; [by left|]. right.
    destruct (validate_latex_control_word (String c s)) as [e|] eqn:Hv.
    + right. split_and!; [done| |].
      * rewrite <- validate_latex_control_word_None. by rewrite Hv.
      * revert Hv. unfold validate_latex_control_word.
        change (String.eqb (String c s) "") with false. cbv iota.
        by destruct (negb _); intros [= <-].
    + left. split; [|done]. by apply validate_latex_control_word_None.
  - destruct name as [|c s]; [by left|]. right.
    destruct (validate_environment_name (String c s)) as [e|] eqn:Hv.
    + right. split_and!; [done| |].
      * rewrite <- validate_environment_name_None. by rewrite Hv.
      * revert Hv. unfold validate_environment_name.
        change (String.eqb (String c s) "") with false. cbv iota.
        by destruct (negb _); intros [= <-].
    + left. split; [|done]. by apply validate_environment_name_None.
Qed.

(** ** The chain the metaclass builds *)

Lemma fold_ladder_layers {K} `{EqDecision K} (mro : K -> list K) (HasOptions : K)
    (declares_defaults : K -> bool) (cs : list K) (d : ChainMap K) :
  fold_left (ladder_step mro HasOptions declares_defaults) (rev cs) d
  = omap (λ c, if participates mro HasOptions declares_defaults c
               then Defaults <$> getattr_defaults mro declares_defaults c
               else None) cs ++ d.
Proof.
  induction cs as [|c cs IH]; [done|].
  cbn [rev]. rewrite fold_left_app. cbn [fold_left]. rewrite IH.
  cbn [omap list_omap]. unfold ladder_step, participates.
  destruct (issubclass_HasOptions mro HasOptions c
            && hasattr_defaults mro declares_defaults c); [|done].
  by destruct (getattr_defaults mro declares_defaults c).
Qed.

(** X15. A lookup in the chain the metaclass gives a class goes, in the
    resolution order of the class, through the dictionary of each class of
    that order that derives from the marker and has a [_defaults]
    attribute, and then through the one empty dictionary [ChainMap()]
    starts with.  The dictionary is the one the attribute names: for a
    class that inherits the attribute, the dictionary of the class it
    inherits it from is searched once more. *)
Theorem ladder_has_a_layer_per_class {K} `{EqDecision K} (mro : K -> list K)
    (HasOptions : K) (declares_defaults : K -> bool) (n_cls : K) :
  OptionsLadder_new mro HasOptions declares_defaults n_cls
  = omap (λ c, if participates mro HasOptions declares_defaults c
               then Defaults <$> getattr_defaults mro declares_defaults c
               else None) (mro n_cls)
    ++ ChainMap_empty.
Proof. apply fold_ladder_layers. Qed.

(** X16. A class the metaclass builds that does not derive from the marker
    [HasOptions] gets the empty chain, whatever [_defaults] it or its bases
    declare: an instance initialised over it resolves its keyword arguments,
    and every other key raises [KeyError].  The resolution order of each
    base is taken to lie within that of the class, as Python's does. *)
Theorem unmarked_class_has_no_defaults {K} `{EqDecision K} (mro : K -> list K)
    (HasOptions : K) (declares_defaults : K -> bool) (n_cls : K) :
  HasOptions ∉ mro n_cls →
  (∀ c, c ∈ mro n_cls → mro c ⊆ mro n_cls) →
  OptionsLadder_new mro HasOptions declares_defaults n_cls = ChainMap_empty
  ∧ ∀ defs kw k,
      chain_get defs
        (instance_settings
           (OptionsLadder_new mro HasOptions declares_defaults n_cls) kw) k
      = match kw !! k with Some v => inr v | None => inl (KeyError k) end.
Proof.
  intros Hno Hsub.
  assert (Hnew : OptionsLadder_new mro HasOptions declares_defaults n_cls
                 = ChainMap_empty).
  { unfold OptionsLadder_new. rewrite fold_ladder_layers.
    assert (Hall : ∀ cs, (∀ c, c ∈ cs → c ∈ mro n_cls) →
              omap (λ c, if participates mro HasOptions declares_defaults c
                         then Defaults <$> getattr_defaults mro declares_defaults c
                         else None) cs = []).
    { induction cs as [|c cs IH]; intros Hcs; [done|].
      cbn [omap list_omap]. unfold participates at 1, issubclass_HasOptions.
      rewrite bool_decide_eq_false_2.
      - cbn. apply IH. intros c' Hc'. by apply Hcs, list_elem_of_further.
      - intros Hin. apply Hno. apply (Hsub c); [|done].
        apply Hcs, list_elem_of_here. }
    by rewrite Hall. }
  split; [done|]. intros defs kw k.
  rewrite Hnew, chain_get_instance, chain_get_empty. done.
Qed.

Lemma unmarked_class_has_no_defaults_witness :
  OptionsLadder_new mro HasOptions (λ _, true) object = ChainMap_empty
  ∧ ∀ defs kw k,
      chain_get defs
        (instance_settings (OptionsLadder_new mro HasOptions (λ _, true) object) kw) k
      = match kw !! k with Some v => inr v | None => inl (KeyError k) end.
Proof.
  apply (unmarked_class_has_no_defaults mro HasOptions (λ _, true) object).
  - not_in_list.
  - intros c Hc. cbn in Hc. apply elem_of_cons in Hc as [->|Hc]; [done|].
    by apply elem_of_nil in Hc.
Defined.

(** ** Closing a scope *)

Lemma Assemblable_exit_empty_pipeline i exc σ s :
  scopes σ !! i = Some s →
  chain_get (class_defaults σ) (settings s) "pipeline" = inr (VPipeline []) →
  scopes (Assemblable_exit i exc σ).1 !! i = Some (with_result s (Obj (data s))).
Proof.
  intros Hs Hp. unfold Assemblable_exit, bind at 1, get_scope, reading.
  rewrite Hs. unfold bind at 1.
  rewrite (run_pipeline_empty i s (Obj (data s)) σ Hs Hp).
  unfold bind at 1, set_result. rewrite Hs.
  assert (Hself : <[i := with_result s (Obj (data s))]> (scopes σ) !! i
                  = Some (with_result s (Obj (data s)))).
  { apply list_lookup_insert_eq. by eapply lookup_lt_Some. }
  destruct (_parent s) as [p|]; [|done].
  unfold bind, reading, contents, extend. cbn.
  destruct (lists σ !! data s) as [o|]; [|done]. cbn.
  by destruct (lists σ !! p).
Qed.

(** X17. With an empty pipeline the result of a scope is its list itself,
    not a copy made at closing time: after the scope is closed, and as long
    as it is not closed again, reading the result gives the items the list
    holds at the moment of reading, so items added to the list after the
    scope was closed are in the result. *)
Theorem result_is_the_list_itself i exc σ s os lo' :
  scopes σ !! i = Some s →
  chain_get (class_defaults σ) (settings s) "pipeline" = inr (VPipeline []) →
  (∀ e, OpExit i e ∉ os) →
  lists (run_ops (OpExit i exc :: os) σ) !! data s = Some lo' →
  result_items i (run_ops (OpExit i exc :: os) σ)
  = (run_ops (OpExit i exc :: os) σ, inr (items lo')).
Proof.
  intros Hs Hp Hos Hlo. cbn [run_ops fold_left] in *.
  change (fold_left (λ σ o, run_op o σ) os ?x) with (run_ops os x) in *.
  pose proof (Assemblable_exit_empty_pipeline i exc σ s Hs Hp) as Hs1.
  change (Assemblable_exit i exc σ).1 with (run_op (OpExit i exc) σ) in Hs1.
  pose proof (run_ops_keeps_scope os _ i _ Hs1 Hos) as Hs2.
  unfold result_items.
  rewrite (bind_inr _ _ _ _ _ (result_closed i _ _ (Obj (data s)) Hs2 eq_refl)).
  unfold reading, contents. by rewrite Hlo.
Qed.

Lemma result_is_the_list_itself_witness :
  result_items 0%nat
    (run_ops [OpExit 0%nat None; OpExtend 0%nat ["late"]]
       (run_ops [OpExtend 0%nat ["early"]] demo_outer_state))
  = (run_ops [OpExit 0%nat None; OpExtend 0%nat ["late"]]
       (run_ops [OpExtend 0%nat ["early"]] demo_outer_state),
     inr (items {| kind := AssembleList; context := Some 0%nat;
                   items := ["early"; "late"] |})).
Proof.
  apply (result_is_the_list_itself 0%nat None
           (run_ops [OpExtend 0%nat ["early"]] demo_outer_state)
           {| cls := Assemblable;
              settings := instance_settings (class_settings Assemblable) ∅;
              _result := None; _parent := None; data := 0%nat |}
           [OpExtend 0%nat ["late"]]).
  - reflexivity.
  - reflexivity.
  - intros e He. apply elem_of_cons in He as [He|He]; [done|].
    by apply elem_of_nil in He.
  - reflexivity.
Defined.






(** The same run, computed. *)
Example closed_twice :
  items <$> lists (run_ops [OpExit 1%nat None; OpExit 1%nat None]
                     (run_ops [OpCall (CallNewCommand (Some 0%nat) "greet" ∅);
                               OpExtend 1%nat ["Hello"]] demo_document_state))
            !! 0%nat
  = Some ["\newcommand{\greet}{%" +:+ NL +:+ "Hello" +:+ NL +:+ "}%";
          "\newcommand{\greet}{%" +:+ NL +:+ "Hello" +:+ NL +:+ "}%"].
Proof. reflexivity. Qed.

(** ** Properties of a scope that are fixed at its creation *)

(** X19. The property [parent] of a scope is the parent given to the call
    that created it, [None] when none was given, and stays so whatever a
    client does. *)
Theorem parent_is_the_argument c σ σ1 i os :
  run_call c σ = (σ1, inr i) →
  parent i (run_ops os σ1) = (run_ops os σ1, inr (call_parent c)).
Proof.
  intros Hrun.
  apply run_call_returns_state in Hrun
    as (s & lo & -> & Hsc & _ & _ & Hp & _).
  assert (Hs : scopes σ1 !! length (scopes σ) = Some s)
    by (rewrite Hsc; by apply list_lookup_middle).
  destruct (run_ops_scope os σ1 _ s Hs) as (s' & Hs' & _ & _ & _ & Hp').
  unfold parent, bind, get_scope, reading, ret. by rewrite Hs', Hp', Hp.
Qed.

Lemma parent_is_the_argument_witness :
  parent 0%nat
    (run_ops demo_ops
       (run_call (CallNewCommand (Some 7%nat) "greet" ∅) initial_state).1)
  = (run_ops demo_ops
       (run_call (CallNewCommand (Some 7%nat) "greet" ∅) initial_state).1,
     inr (call_parent (CallNewCommand (Some 7%nat) "greet" ∅))).
Proof.
  apply (parent_is_the_argument (CallNewCommand (Some 7%nat) "greet" ∅)
           initial_state
           (run_call (CallNewCommand (Some 7%nat) "greet" ∅) initial_state).1
           0%nat demo_ops).
  reflexivity.
Defined.

(** X20. [Assemblable(parent, **kw)] and [DocumentPart(parent, **kw)] check
    nothing beyond the binding of their arguments.  With options of their
    declared types, and class dictionaries that hold the declared entries
    with their types: when no keyword argument has the name of a parameter
    of the initialiser ([self] or [parent]) the call returns a new scope,
    whatever the parent is; when one has, the call raises [TypeError] and
    leaves the state as it was. *)
Theorem plain_constructors_return σ c :
  defaults_ok σ → typed_dict (call_kwargs c) →
  call_class c = Assemblable ∨ call_class c = DocumentPart →
  (keywords_bind (call_class c) (call_kwargs c) = true →
   ∃ σ1, run_call c σ = (σ1, inr (length (scopes σ))))
  ∧ (keywords_bind (call_class c) (call_kwargs c) = false →
     run_call c σ = (σ, inl TypeError)).
Proof.
  intros Hok Hkw Hc. split; [|apply run_call_unbound].
  intros Hb.
  assert (∃ σ1 i, run_call c σ = (σ1, inr i)) as (σ1 & i & Hrun).
  { destruct c as [p kw|p kw|p nm kw|p nm kw]; cbn in *.
    - by apply new_Assemblable_returns.
    - by apply new_DocumentPart_returns.
    - by destruct Hc.
    - by destruct Hc. }
  exists σ1. pose proof Hrun as Hi.
  apply run_call_returns_state in Hi as (_ & _ & -> & _). done.
Qed.

Lemma plain_constructors_return_witness :
  (∃ σ1, run_call (CallDocumentPart (Some 7%nat) (<["prolog" := VStr "("]> ∅))
           demo_document_state
         = (σ1, inr (length (scopes demo_document_state))))
  ∧ run_call (CallAssemblable None (<["parent" := VNone]> ∅)) demo_document_state
    = (demo_document_state, inl TypeError).
Proof.
  assert (Hok : defaults_ok demo_document_state).
  { apply state_ok_defaults_ok.
    apply (state_ok_call (CallEnvironment None "document" ∅) initial_state);
      [apply state_ok_initial|].
    by apply call_ok_intro; [apply dict_ok_empty|]. }
  split.
  - refine (proj1 (plain_constructors_return demo_document_state
             (CallDocumentPart (Some 7%nat) (<["prolog" := VStr "("]> ∅))
             Hok _ _) _).
    + by apply typed_dict_insert; [|apply typed_dict_empty].
    + by right.
    + reflexivity.
  - refine (proj2 (plain_constructors_return demo_document_state
             (CallAssemblable None (<["parent" := VNone]> ∅)) Hok _ _) _).
    + by apply typed_dict_insert; [|apply typed_dict_empty].
    + by left.
    + reflexivity.
Defined.



(** ** A scope inside a scope *)

Lemma extend_facts l xs σ o :
  lists σ !! l = Some o →
  ∃ σ', extend l xs σ = (σ', inr ())
        ∧ scopes σ' = scopes σ
        ∧ class_defaults σ' = class_defaults σ
        ∧ lists σ' !! l = Some (with_items_added o xs)
        ∧ (∀ l', l' ≠ l → lists σ' !! l' = lists σ !! l')
        ∧ length (lists σ') = length (lists σ).
Proof.
  intros Ho. eexists. split; [by apply extend_run|]. cbn.
  split_and!; try done.
  - apply list_lookup_insert_eq. by eapply lookup_lt_Some.
  - intros l' Hl'. by apply list_lookup_insert_ne.
  - apply length_insert.
Qed.

(** The inner [with] statement: the scope of a class that derives from
    [DocumentPart] is filled and closed, and one string goes to its
    parent. *)
Lemma with_child (cm : M iid) σ2 σ3 j sC p loC po ys pro sep epi :
  cm σ2 = (σ3, inr j) →
  state_ok σ3 →
  scopes σ3 !! j = Some sC → _parent sC = Some p → p ≠ data sC →
  lists σ3 !! data sC = Some loC → lists σ3 !! p = Some po →
  chain_get (class_defaults σ3) (settings sC) "pipeline"
    = inr (VPipeline [p_join j; p_wrap j]) →
  chain_get (class_defaults σ3) (settings sC) "delimiter" = inr (VStr sep) →
  chain_get (class_defaults σ3) (settings sC) "prolog" = inr (VStr pro) →
  chain_get (class_defaults σ3) (settings sC) "epilog" = inr (VStr epi) →
  ∃ σ5,
    with_ cm (λ m, extend m ys) σ2 = (σ5, inr ())
    ∧ state_ok σ5
    ∧ class_defaults σ5 = class_defaults σ3
    ∧ length (lists σ5) = length (lists σ3)
    ∧ lists σ5 !! p
      = Some (with_items_added po [pro +:+ str_join sep (items loC ++ ys) +:+ epi])
    ∧ (∀ i, i ≠ j → scopes σ5 !! i = scopes σ3 !! i)
    ∧ ∃ s', scopes σ5 !! j = Some s' ∧ settings s' = settings sC.
Proof.
  intros Hcm Hok Hs Hp Hne HloC Hpo Hpipe Hsep Hpro Hepi.
  destruct (extend_facts (data sC) ys σ3 loC HloC)
    as (σ4 & Hext & Hsc4 & Hcd4 & Hlo4 & Hoth4 & Hlen4).
  assert (Hok4 : state_ok σ4).
  { pose proof (state_ok_extend (data sC) ys σ3 Hok) as H. by rewrite Hext in H. }
  assert (Hs4 : scopes σ4 !! j = Some sC) by (by rewrite Hsc4).
  assert (Hr : run_pipeline j (Obj (data sC)) σ4
               = (σ4, inr (Fresh [pro +:+ str_join sep (items loC ++ ys) +:+ epi]))).
  { apply (run_pipeline_join_wrap σ4 j sC j sC); rewrite ?Hcd4; try done.
    cbn. by rewrite Hlo4. }
  assert (Hpo4 : lists σ4 !! p = Some po) by (by rewrite Hoth4).
  pose proof (Assemblable_exit_parent j None σ4 sC p _ _ po Hs4 Hp Hr eq_refl Hpo4)
    as Hexit.
  eexists. split_and!.
  - exact (with_run cm (λ m, extend m ys) σ2 σ3 j sC p σ4 (inr ()) _ _ po
             Hcm Hs Hp Hext Hs4 Hr eq_refl Hpo4).
  - pose proof (state_ok_exit j None σ4 Hok4) as H. by rewrite Hexit in H.
  - by cbn.
  - cbn. by rewrite length_insert.
  - cbn. apply list_lookup_insert_eq. by eapply lookup_lt_Some.
  - intros i Hi. cbn. rewrite list_lookup_insert_ne by done. by rewrite Hsc4.
  - eexists. split.
    + cbn. apply list_lookup_insert_eq. by eapply lookup_lt_Some.
    + done.
Qed.

Lemma scope_after_call c σ σ1 i s :
  run_call c σ = (σ1, inr i) → scopes σ1 !! i = Some s →
  ∃ lo, lists σ1 !! data s = Some lo
        ∧ chain_get (class_defaults σ1) (settings s) "initial_list"
          = inr (VList (items lo))
        ∧ ∀ defs k,
            chain_get defs (settings s) k
            = match call_overrides c !! k with
              | Some v => inr v
              | None => chain_get defs (class_settings (call_class c)) k
              end.
Proof.
  intros Hrun Hs.
  apply run_call_returns_state in Hrun
    as (s' & lo & -> & Hsc & Hli & _ & _ & _ & Hd & _ & _ & Hil & _ & _ & Hget).
  rewrite Hsc, list_lookup_middle in Hs by done. injection Hs as <-.
  exists lo. split_and!; [|done..]. rewrite Hd, Hli. by apply list_lookup_middle.
Qed.

Lemma scope_strings σ s :
  state_ok σ → scope_ok σ s → DocumentPart ∈ mro (cls s) →
  ∃ pro sep epi,
    chain_get (class_defaults σ) (settings s) "prolog" = inr (VStr pro)
    ∧ chain_get (class_defaults σ) (settings s) "delimiter" = inr (VStr sep)
    ∧ chain_get (class_defaults σ) (settings s) "epilog" = inr (VStr epi).
Proof.
  intros Hok Hsok HDP.
  pose proof (class_settings_has_DocumentPart _ HDP) as Hin.
  destruct (scope_get_present σ s DocumentPart "prolog" Hok Hsok Hin)
    as [vp Hvp]; [by eexists|].
  destruct (scope_get_ok σ s _ _ Hok Hsok Hvp) as [Hty _].
  apply (typed_str "prolog") in Hty as [pro ->]; [|in_list].
  destruct (scope_get_present σ s DocumentPart "delimiter" Hok Hsok Hin)
    as [vd Hvd]; [by eexists|].
  destruct (scope_get_ok σ s _ _ Hok Hsok Hvd) as [Hty _].
  apply (typed_str "delimiter") in Hty as [sep ->]; [|in_list].
  destruct (scope_get_present σ s DocumentPart "epilog" Hok Hsok Hin)
    as [ve Hve]; [by eexists|].
  destruct (scope_get_ok σ s _ _ Hok Hsok Hve) as [Hty _].
  apply (typed_str "epilog") in Hty as [epi ->]; [|in_list].
  by exists pro, sep, epi.
Qed.

Lemma own_pipeline c σ σ1 i s :
  run_call c σ = (σ1, inr i) → scopes σ1 !! i = Some s →
  DocumentPart ∈ mro (call_class c) → call_kwargs c !! "pipeline" = None →
  chain_get (class_defaults σ1) (settings s) "pipeline"
  = inr (VPipeline [p_join i; p_wrap i]).
Proof.
  intros Hrun Hs HDP Hkw.
  apply run_call_returns_state in Hrun
    as (s' & lo & -> & Hsc & _ & _ & _ & _ & _ & _ & _ & _ & Hpl & _ & Hget).
  rewrite Hsc, list_lookup_middle in Hs by done. injection Hs as ->.
  rewrite Hget.
  assert (call_overrides c !! "pipeline" = None) as ->.
  { destruct c; cbn in *; rewrite ?lookup_insert_ne; done. }
  apply chain_get_class_own; [apply declares_call_class|by apply Hpl].
Qed.

(** The run of [build_nested] up to the pipeline of the outer scope: the
    stages of that pipeline are the bound methods of some scope [w]. *)
Lemma nested_core σ cP child xs ys zs σ1 i σ3 j :
  state_ok σ → call_ok σ cP →
  dict_ok σ (call_kwargs (child (length (lists σ)))) →
  call_parent (child (length (lists σ))) = Some (length (lists σ)) →
  DocumentPart ∈ mro (call_class (child (length (lists σ)))) →
  call_kwargs (child (length (lists σ))) !! "pipeline" = None →
  run_call cP σ = (σ1, inr i) →
  run_call (child (length (lists σ)))
    (run_op (OpExtend (length (lists σ)) xs) σ1) = (σ3, inr j) →
  ∃ sP loP sC loC proC sepC epiC σ',
    (scopes σ1 !! i = Some sP ∧ lists σ1 !! data sP = Some loP ∧ state_ok σ1)
    ∧ (scopes σ3 !! j = Some sC ∧ lists σ3 !! data sC = Some loC
       ∧ chain_get (class_defaults σ3) (settings sC) "prolog" = inr (VStr proC)
       ∧ chain_get (class_defaults σ3) (settings sC) "delimiter" = inr (VStr sepC)
       ∧ chain_get (class_defaults σ3) (settings sC) "epilog" = inr (VStr epiC))
    ∧ scopes σ3 !! i = Some sP
    ∧ (∀ c, c ≠ call_class (child (length (lists σ))) →
            class_defaults σ3 c = class_defaults σ1 c)
    ∧ (∀ c k, k ∉ written_keys (call_class (child (length (lists σ)))) →
              class_defaults σ3 c !! k = class_defaults σ1 c !! k)
    ∧ class_defaults σ3 (call_class (child (length (lists σ)))) !! "pipeline"
      = Some (VPipeline [p_join j; p_wrap j])
    ∧ ∀ w sw pro sep epi,
        chain_get (class_defaults σ3) (settings sP) "pipeline"
          = inr (VPipeline [p_join w; p_wrap w]) →
        scopes σ3 !! w = Some sw →
        chain_get (class_defaults σ3) (settings sw) "delimiter" = inr (VStr sep) →
        chain_get (class_defaults σ3) (settings sw) "prolog" = inr (VStr pro) →
        chain_get (class_defaults σ3) (settings sw) "epilog" = inr (VStr epi) →
        build_nested cP xs child ys zs σ
        = (σ', inr [pro
                    +:+ str_join sep
                          (items loP ++ xs
                           ++ [proC +:+ str_join sepC (items loC ++ ys) +:+ epiC]
                           ++ zs)
                    +:+ epi]).
Proof.
  set (dP := length (lists σ)). set (cC := child dP).
  intros Hok HcP HkwC HparC HDC HplC HrunP HrunC.
  (* the outer scope *)
  assert (Hok1 : state_ok σ1).
  { pose proof (state_ok_call cP σ Hok HcP) as H. by rewrite HrunP in H. }
  pose proof HrunP as HrsP.
  apply run_call_returns_state in HrsP
    as (sP & loP & Hi & HscP & HliP & HclsP & _ & _ & HdP & _).
  assert (HsP : scopes σ1 !! i = Some sP)
    by (rewrite Hi, HscP; by apply list_lookup_middle).
  assert (HloP : lists σ1 !! dP = Some loP)
    by (rewrite HliP; by apply list_lookup_middle).
  (* the first items *)
  destruct (extend_facts dP xs σ1 loP HloP)
    as (σ2 & Hext2 & Hsc2 & Hcd2 & Hlo2 & Hoth2 & Hlen2).
  assert (Hσ2 : run_op (OpExtend dP xs) σ1 = σ2) by (unfold run_op; by rewrite Hext2).
  rewrite Hσ2 in HrunC.
  assert (Hok2 : state_ok σ2).
  { pose proof (state_ok_extend dP xs σ1 Hok1) as H. by rewrite Hext2 in H. }
  (* the inner scope *)
  assert (HcC : call_ok σ2 cC).
  { split.
    - apply (dict_ok_mono σ); [|done]. intros k s Hk. exists s. split; [|done].
      rewrite Hsc2, HscP. by apply lookup_app_l_Some.
    - intros p Hp. rewrite HparC in Hp. injection Hp as <-.
      rewrite Hlen2. by eapply lookup_lt_Some. }
  assert (Hok3 : state_ok σ3).
  { pose proof (state_ok_call cC σ2 Hok2 HcC) as H. by rewrite HrunC in H. }
  pose proof HrunC as HrsC.
  apply run_call_returns_state in HrsC
    as (sC & loC & Hj & HscC & HliC & HclsC & HpC & _ & HdC & _ & _ & _ & HplC3 & _).
  assert (HsC : scopes σ3 !! j = Some sC)
    by (rewrite Hj, HscC; by apply list_lookup_middle).
  assert (HloC : lists σ3 !! data sC = Some loC)
    by (rewrite HdC, HliC; by apply list_lookup_middle).
  destruct (scope_strings σ3 sC Hok3 (proj2 Hok3 _ _ HsC))
    as (proC & sepC & epiC & HproC & HsepC & HepiC); [by rewrite HclsC|].
  pose proof (own_pipeline cC σ2 σ3 j sC HrunC HsC HDC HplC) as HpipeC.
  assert (Hlt : (dP < length (lists σ2))%nat)
    by (rewrite Hlen2; by eapply lookup_lt_Some).
  assert (Hne : dP ≠ data sC) by (rewrite HdC; lia).
  assert (Hpo3 : lists σ3 !! dP = Some (with_items_added loP xs)).
  { rewrite HliC. by apply lookup_app_l_Some. }
  rewrite HparC in HpC.
  destruct (with_child (run_call cC) σ2 σ3 j sC dP loC _ ys proC sepC epiC
              HrunC Hok3 HsC HpC Hne HloC Hpo3 HpipeC HsepC HproC HepiC)
    as (σ5 & Hwith5 & Hok5 & Hcd5 & Hlen5 & Hlo5 & Hsc5 & (sC' & HsC5 & HsetC)).
  set (strC := proC +:+ str_join sepC (items loC ++ ys) +:+ epiC) in *.
  (* the last items *)
  destruct (extend_facts dP zs σ5 _ Hlo5)
    as (σ6 & Hext6 & Hsc6 & Hcd6 & Hlo6 & _ & _).
  assert (Hok6 : state_ok σ6).
  { pose proof (state_ok_extend dP zs σ5 Hok5) as H. by rewrite Hext6 in H. }
  (* the body of the outer statement *)
  assert (Hbody : (extend (data sP) xs;;
                   with_ (run_call (child (data sP))) (λ m, extend m ys);;
                   extend (data sP) zs) σ1 = (σ6, inr ())).
  { rewrite HdP. fold dP. fold cC.
    rewrite (bind_inr _ _ _ _ _ Hext2). by rewrite (bind_inr _ _ _ _ _ Hwith5). }
  assert (Hij : i ≠ j).
  { rewrite Hi, Hj, Hsc2, HscP, length_app. cbn. lia. }
  assert (HsP3 : scopes σ3 !! i = Some sP).
  { rewrite HscC, Hsc2. by apply lookup_app_l_Some. }
  assert (HsP6 : scopes σ6 !! i = Some sP) by (by rewrite Hsc6, Hsc5).
  destruct (with_existing σ1 i sP
              (λ l, extend l xs;;
                    with_ (run_call (child l)) (λ m, extend m ys);;
                    extend l zs) σ6 (inr ()) HsP Hbody HsP6 Hok6)
    as (σ7 & r & Hwith7 & _ & Hr & Hres).
  exists sP, loP, sC, loC, proC, sepC, epiC, σ7.
  split_and!; try done.
  - by rewrite HdP.
  - intros c Hc. rewrite <- Hcd2. by apply (run_call_only_class cC σ2 σ3 _ HrunC).
  - intros c k Hk. rewrite <- Hcd2.
    destruct (decide (c = call_class cC)) as [->|Hc].
    + by apply (called_entry cC σ2 σ3 _ _ k HrunC).
    + by rewrite (run_call_only_class cC σ2 σ3 _ HrunC c Hc).
  - by apply HplC3.
  - intros w sw pro sep epi Hpipe Hw Hsep Hpro Hepi.
    assert (∃ sw', scopes σ6 !! w = Some sw' ∧ settings sw' = settings sw)
      as (sw' & Hw6 & Hset).
    { rewrite Hsc6. destruct (decide (w = j)) as [->|Hwj].
      - exists sC'. split; [done|]. rewrite HsetC. congruence.
      - exists sw. by rewrite Hsc5. }
    rewrite (run_pipeline_join_wrap σ6 i sP w sw' (Obj (data sP))
               (items loP ++ xs ++ [strC] ++ zs) sep pro epi) in Hr;
      rewrite ?Hset, ?Hcd6, ?Hcd5; try done.
    2: { cbn. rewrite HdP. fold dP. rewrite Hlo6. cbn.
         by rewrite <- !app_assoc. }
    injection Hr as <-.
    unfold build_nested. rewrite (bind_inr _ _ _ _ _ HrunP).
    rewrite (bind_inr _ _ _ _ _ Hwith7).
    unfold result_items. by rewrite (bind_inr _ _ _ _ _ Hres).
Qed.

Lemma chain_get_class_settings_key (defs defs' : pyclass -> dict) C k :
  (∀ c, c ∈ mro C → defs' c !! k = defs c !! k) →
  chain_get defs' (class_settings C) k = chain_get defs (class_settings C) k.
Proof.
  intros H. destruct C.
  - by rewrite class_settings_object.
  - by rewrite class_settings_HasOptions.
  - rewrite class_settings_Assemblable, !chain_get_cons. cbn [deref_mapping].
    by rewrite !H by (cbn; in_list).
  - rewrite class_settings_DocumentPart, !chain_get_cons. cbn [deref_mapping].
    by rewrite !H by (cbn; in_list).
  - rewrite class_settings_NewCommand, !chain_get_cons. cbn [deref_mapping].
    by rewrite !H by (cbn; in_list).
  - rewrite class_settings_Environment, !chain_get_cons. cbn [deref_mapping].
    by rewrite !H by (cbn; in_list).
Qed.

Lemma inner_class_cases cP cC :
  DocumentPart ∈ mro cC → cC ≠ cP → cC ∈ mro cP → cC = DocumentPart.
Proof.
  destruct cP, cC; intros HDC Hne Hin; try done; exfalso;
    first [revert HDC; not_in_list | revert Hin; not_in_list].
Qed.

Lemma nested_run σ cP child xs ys zs σ1 i σ3 j :
  state_ok σ → call_ok σ cP →
  dict_ok σ (call_kwargs (child (length (lists σ)))) →
  call_parent (child (length (lists σ))) = Some (length (lists σ)) →
  DocumentPart ∈ mro (call_class cP) →
  DocumentPart ∈ mro (call_class (child (length (lists σ)))) →
  call_kwargs cP !! "pipeline" = None →
  call_kwargs (child (length (lists σ))) !! "pipeline" = None →
  call_class (child (length (lists σ))) ≠ call_class cP →
  run_call cP σ = (σ1, inr i) →
  run_call (child (length (lists σ)))
    (run_op (OpExtend (length (lists σ)) xs) σ1) = (σ3, inr j) →
  ∃ sP loP proP sepP epiP sC loC proC sepC epiC σ',
    (scopes σ1 !! i = Some sP ∧ lists σ1 !! data sP = Some loP
     ∧ chain_get (class_defaults σ1) (settings sP) "prolog" = inr (VStr proP)
     ∧ chain_get (class_defaults σ1) (settings sP) "delimiter" = inr (VStr sepP)
     ∧ chain_get (class_defaults σ1) (settings sP) "epilog" = inr (VStr epiP))
    ∧ (scopes σ3 !! j = Some sC ∧ lists σ3 !! data sC = Some loC
       ∧ chain_get (class_defaults σ3) (settings sC) "prolog" = inr (VStr proC)
       ∧ chain_get (class_defaults σ3) (settings sC) "delimiter" = inr (VStr sepC)
       ∧ chain_get (class_defaults σ3) (settings sC) "epilog" = inr (VStr epiC))
    ∧ build_nested cP xs child ys zs σ
      = (σ', inr [proP
                  +:+ str_join sepP
                        (items loP ++ xs
                         ++ [proC +:+ str_join sepC (items loC ++ ys) +:+ epiC]
                         ++ zs)
                  +:+ epiP]).
Proof.
  intros Hok HcP HkwC HparC HDP HDC HplP HplC Hcls HrunP HrunC.
  destruct (nested_core σ cP child xs ys zs σ1 i σ3 j Hok HcP HkwC HparC HDC HplC
              HrunP HrunC)
    as (sP & loP & sC & loC & proC & sepC & epiC & σ'
        & (HsP & HloP & Hok1) & (HsC & HloC & HproC & HsepC & HepiC)
        & HsP3 & Hother & Hkeys & _ & Hbuild).
  destruct (scope_after_call _ _ _ _ _ HrunP HsP) as (_ & _ & _ & HgetP).
  pose proof HrunP as HrsP.
  apply run_call_returns_state in HrsP
    as (sP' & _ & Hi & HscP & _ & HclsP & _ & _ & _ & _ & _ & _ & HplP1 & _).
  assert (sP' = sP) as ->.
  { rewrite Hi, HscP, list_lookup_middle in HsP by done. by injection HsP. }
  destruct (scope_strings σ1 sP Hok1 (proj2 Hok1 _ _ HsP))
    as (proP & sepP & epiP & HproP & HsepP & HepiP); [by rewrite HclsP|].
  (* what the outer scope resolves has not changed *)
  assert (Hkeep : ∀ k, k ∈ ["prolog"; "delimiter"; "epilog"] →
                       chain_get (class_defaults σ3) (settings sP) k
                       = chain_get (class_defaults σ1) (settings sP) k).
  { intros k Hk. rewrite !HgetP. destruct (call_overrides cP !! k); [done|].
    apply chain_get_class_settings_key. intros c Hc.
    destruct (decide (c = call_class (child (length (lists σ))))) as [->|Hne];
      [|by rewrite Hother].
    apply Hkeys.
    rewrite (inner_class_cases _ _ HDC Hcls Hc). cbn.
    intros Hin. apply elem_of_cons in Hin as [->|Hin];
      [revert Hk; not_in_list|by apply elem_of_nil in Hin]. }
  assert (Hpipe3 : chain_get (class_defaults σ3) (settings sP) "pipeline"
                   = inr (VPipeline [p_join i; p_wrap i])).
  { rewrite HgetP.
    assert (call_overrides cP !! "pipeline" = None) as ->.
    { destruct cP; cbn in *; rewrite ?lookup_insert_ne; done. }
    apply chain_get_class_own; [apply declares_call_class|].
    rewrite Hother by done. by apply HplP1. }
  exists sP, loP, proP, sepP, epiP, sC, loC, proC, sepC, epiC, σ'.
  split_and!; try done.
  apply (Hbuild i sP); rewrite ?Hkeep by in_list; done.
Qed.

(** X22. A scope inside a scope of another class.  An outer scope of a class
    that derives from [DocumentPart] is created, given the items [xs],
    then an inner scope of such a class is created with the outer list as
    parent, filled with [ys] and closed, then the outer list is given [zs]
    and the outer scope is closed.  When the two classes differ and neither
    call passes a ['pipeline'], the result of the outer scope is one
    string: its prefix, the items before, the one string of the inner
    scope and the items after, joined by its delimiter, and its suffix, all
    as the outer scope resolved them when it was created; the string of
    the inner scope is its own prefix, items and suffix. *)
Theorem nesting_renders σ cP child xs ys zs σ1 i σ3 j :
  state_ok σ → call_ok σ cP →
  dict_ok σ (call_kwargs (child (length (lists σ)))) →
  call_parent (child (length (lists σ))) = Some (length (lists σ)) →
  DocumentPart ∈ mro (call_class cP) →
  DocumentPart ∈ mro (call_class (child (length (lists σ)))) →
  call_kwargs cP !! "pipeline" = None →
  call_kwargs (child (length (lists σ))) !! "pipeline" = None →
  call_class (child (length (lists σ))) ≠ call_class cP →
  run_call cP σ = (σ1, inr i) →
  run_call (child (length (lists σ)))
    (run_op (OpExtend (length (lists σ)) xs) σ1) = (σ3, inr j) →
  ∃ sP loP proP sepP epiP sC loC proC sepC epiC σ',
    (scopes σ1 !! i = Some sP ∧ lists σ1 !! data sP = Some loP
     ∧ chain_get (class_defaults σ1) (settings sP) "prolog" = inr (VStr proP)
     ∧ chain_get (class_defaults σ1) (settings sP) "delimiter" = inr (VStr sepP)
     ∧ chain_get (class_defaults σ1) (settings sP) "epilog" = inr (VStr epiP))
    ∧ (scopes σ3 !! j = Some sC ∧ lists σ3 !! data sC = Some loC
       ∧ chain_get (class_defaults σ3) (settings sC) "prolog" = inr (VStr proC)
       ∧ chain_get (class_defaults σ3) (settings sC) "delimiter" = inr (VStr sepC)
       ∧ chain_get (class_defaults σ3) (settings sC) "epilog" = inr (VStr epiC))
    ∧ build_nested cP xs child ys zs σ
      = (σ', inr [proP
                  +:+ str_join sepP
                        (items loP ++ xs
                         ++ [proC +:+ str_join sepC (items loC ++ ys) +:+ epiC]
                         ++ zs)
                  +:+ epiP]).
Proof. apply nested_run. Qed.

Lemma nesting_renders_witness :
  ∃ sP loP proP sepP epiP sC loC proC sepC epiC σ',
    (scopes demo_document_state !! 0%nat = Some sP
     ∧ lists demo_document_state !! data sP = Some loP
     ∧ chain_get (class_defaults demo_document_state) (settings sP) "prolog"
       = inr (VStr proP)
     ∧ chain_get (class_defaults demo_document_state) (settings sP) "delimiter"
       = inr (VStr sepP)
     ∧ chain_get (class_defaults demo_document_state) (settings sP) "epilog"
       = inr (VStr epiP))
    ∧ (scopes (run_call (CallNewCommand (Some 0%nat) "greet"
                           (<["nargs" := VInt 1]> ∅))
                 (run_op (OpExtend 0%nat ["% a"]) demo_document_state)).1
         !! 1%nat = Some sC
       ∧ lists (run_call (CallNewCommand (Some 0%nat) "greet"
                            (<["nargs" := VInt 1]> ∅))
                  (run_op (OpExtend 0%nat ["% a"]) demo_document_state)).1
           !! data sC = Some loC
       ∧ chain_get
           (class_defaults
              (run_call (CallNewCommand (Some 0%nat) "greet"
                           (<["nargs" := VInt 1]> ∅))
                 (run_op (OpExtend 0%nat ["% a"]) demo_document_state)).1)
           (settings sC) "prolog" = inr (VStr proC)
       ∧ chain_get
           (class_defaults
              (run_call (CallNewCommand (Some 0%nat) "greet"
                           (<["nargs" := VInt 1]> ∅))
                 (run_op (OpExtend 0%nat ["% a"]) demo_document_state)).1)
           (settings sC) "delimiter" = inr (VStr sepC)
       ∧ chain_get
           (class_defaults
              (run_call (CallNewCommand (Some 0%nat) "greet"
                           (<["nargs" := VInt 1]> ∅))
                 (run_op (OpExtend 0%nat ["% a"]) demo_document_state)).1)
           (settings sC) "epilog" = inr (VStr epiC))
    ∧ build_nested (CallEnvironment None "document" ∅) ["% a"]
        (λ l, CallNewCommand (Some l) "greet" (<["nargs" := VInt 1]> ∅))
        ["\textbf{Hello, #1!}"] ["\greet{World}"] initial_state
      = (σ', inr [proP
                  +:+ str_join sepP
                        (items loP ++ ["% a"]
                         ++ [proC
                             +:+ str_join sepC (items loC ++ ["\textbf{Hello, #1!}"])
                             +:+ epiC]
                         ++ ["\greet{World}"])
                  +:+ epiP]).
Proof.
  apply (nesting_renders initial_state (CallEnvironment None "document" ∅)
           (λ l, CallNewCommand (Some l) "greet" (<["nargs" := VInt 1]> ∅))
           ["% a"] ["\textbf{Hello, #1!}"] ["\greet{World}"]
           demo_document_state 0%nat
           (run_call (CallNewCommand (Some 0%nat) "greet" (<["nargs" := VInt 1]> ∅))
              (run_op (OpExtend 0%nat ["% a"]) demo_document_state)).1
           1%nat).
  - apply state_ok_initial.
  - by apply call_ok_intro; [apply dict_ok_empty|].
  - by apply dict_ok_insert; [..|apply dict_ok_empty].
  - reflexivity.
  - cbn. in_list.
  - cbn. in_list.
  - reflexivity.
  - reflexivity.
  - done.
  - reflexivity.
  - reflexivity.
Defined.

(** The same program, computed. *)
Example nested_rendered :
  (build_nested (CallEnvironment None "document" ∅) ["% a"]
     (λ l, CallNewCommand (Some l) "greet" (<["nargs" := VInt 1]> ∅))
     ["\textbf{Hello, #1!}"] ["\greet{World}"] initial_state).2
  = inr ["\begin{document}%" +:+ NL +:+ "% a" +:+ NL
         +:+ "\newcommand{\greet}[1]{%" +:+ NL +:+ "\textbf{Hello, #1!}" +:+ NL
         +:+ "}%" +:+ NL +:+ "\greet{World}" +:+ NL +:+ "\end{document}%"].
Proof. reflexivity. Qed.

(** ** A command definition inside an environment *)

Lemma defaults_ok_reached os : defaults_ok (run_ops os initial_state).
Proof. apply defaults_ok_run_ops, state_ok_defaults_ok, state_ok_initial. Qed.

(** What a new [Environment] resolves, in a state reached from the start. *)
Lemma Environment_resolves os p nm kw σ1 i s :
  typed_dict kw →
  (∀ k, k ∈ ["prolog"; "epilog"; "delimiter"; "pipeline"; "initial_list"] →
        kw !! k = None) →
  run_call (CallEnvironment p nm kw) (run_ops os initial_state) = (σ1, inr i) →
  scopes σ1 !! i = Some s →
  chain_get (class_defaults σ1) (settings s) "prolog"
  = inr (VStr ("\begin{" +:+ nm +:+ "}"
               +:+ marker_if_nonempty "[" "]" (default VNone (kw !! "ops"))
               +:+ marker_if_nonempty "{" "}" (default VNone (kw !! "args"))
               +:+ "%" +:+ NL))
  ∧ chain_get (class_defaults σ1) (settings s) "delimiter" = inr (VStr NL)
  ∧ chain_get (class_defaults σ1) (settings s) "epilog"
    = inr (VStr (NL +:+ "\end{" +:+ nm +:+ "}%"))
  ∧ chain_get (class_defaults σ1) (settings s) "initial_list" = inr (VList []).
Proof.
  intros Hty Hkw Hrun Hs. set (σ := run_ops os initial_state) in *.
  pose proof (defaults_ok_reached os) as Hdok. fold σ in Hdok.
  pose proof (run_call_returns_bound _ _ _ _ Hrun) as Hbind.
  cbn [call_class call_kwargs] in Hbind.
  set (a := default VNone (kw !! "args")). set (o := default VNone (kw !! "ops")).
  assert (Ha : dict_merge (class_defaults σ Environment) kw !! "args" = Some a).
  { apply merged_default. unfold σ. rewrite reached_entry; [done|not_in_list]. }
  assert (Ho : dict_merge (class_defaults σ Environment) kw !! "ops" = Some o).
  { apply merged_default. unfold σ. rewrite reached_entry; [done|not_in_list]. }
  assert (Hoa : is_opt_str a = true).
  { apply (typed_opt_str "args"); [in_list|].
    destruct (Hdok Environment) as [_ Hd].
    by apply (typed_dict_merge _ _ Hd Hty "args"). }
  assert (Hoo : is_opt_str o = true).
  { apply (typed_opt_str "ops"); [in_list|].
    destruct (Hdok Environment) as [_ Hd].
    by apply (typed_dict_merge _ _ Hd Hty "ops"). }
  assert (Hg : validate_environment_name nm = None).
  { apply validate_environment_name_None.
    destruct (new_Environment_cases σ p nm kw Hdok Hty Hbind)
      as [(e & He & _)|(? & ? & _ & Hg)]; [|done].
    cbn [run_call] in Hrun. rewrite He in Hrun. done. }
  destruct (new_Environment_valid σ p nm kw a o Hdok Hty Hbind Hg Ha Hoa Ho Hoo)
    as (σ1' & s0 & Hrun' & _ & Hpro & Hepi).
  cbn [run_call] in Hrun. rewrite Hrun in Hrun'. injection Hrun' as <- _.
  change (new_Environment p nm kw σ) with (run_call (CallEnvironment p nm kw) σ)
    in Hrun.
  destruct (scope_after_call _ _ _ _ _ Hrun Hs) as (lo & _ & _ & Hget).
  assert (Hov : ∀ k, k ∈ ["prolog"; "epilog"; "delimiter"; "pipeline"; "initial_list"] →
                     call_overrides (CallEnvironment p nm kw) !! k = None).
  { intros k Hk. cbn. rewrite lookup_insert_ne; [by apply Hkw|].
    intros <-. revert Hk. not_in_list. }
  rewrite !Hget, !Hov by in_list. cbn [call_class]. split_and!.
  - rewrite (chain_get_class_own _ Environment "prolog" _ eq_refl Hpro).
    by rewrite Environment_prolog_spec.
  - apply (chain_get_class_own _ Environment "delimiter" (VStr NL) eq_refl).
    rewrite (called_entry _ _ _ _ Environment "delimiter" Hrun) by not_in_list.
    unfold σ. by rewrite reached_entry by not_in_list.
  - by rewrite (chain_get_class_own _ Environment "epilog" _ eq_refl Hepi).
  - rewrite class_settings_Environment, !chain_get_cons.
    cbn [deref_mapping].
    rewrite !(called_entry _ _ _ _ _ "initial_list" Hrun) by not_in_list.
    unfold σ. by rewrite !reached_entry by not_in_list.
Qed.

(** What a new [NewCommand] resolves, in a state reached from the start. *)
Lemma NewCommand_resolves os p nm kw n σ1 i s :
  typed_dict kw →
  (∀ k, k ∈ ["prolog"; "epilog"; "delimiter"; "pipeline"; "initial_list"] →
        kw !! k = None) →
  default (VInt 0) (kw !! "nargs") = VInt n →
  run_call (CallNewCommand p nm kw) (run_ops os initial_state) = (σ1, inr i) →
  scopes σ1 !! i = Some s →
  chain_get (class_defaults σ1) (settings s) "prolog"
  = inr (VStr ("\newcommand{\" +:+ nm +:+ "}"
               +:+ (if decide (0 < n) then "[" +:+ pretty n +:+ "]" else "")
               +:+ marker_if_supplied "[" "]" (default VNone (kw !! "default"))
               +:+ "{%" +:+ NL))
  ∧ chain_get (class_defaults σ1) (settings s) "delimiter" = inr (VStr NL)
  ∧ chain_get (class_defaults σ1) (settings s) "epilog"
    = inr (VStr (NL +:+ "}%"))
  ∧ chain_get (class_defaults σ1) (settings s) "initial_list" = inr (VList []).
Proof.
  intros Hty Hkw Hnargs Hrun Hs. set (σ := run_ops os initial_state) in *.
  pose proof (defaults_ok_reached os) as Hdok. fold σ in Hdok.
  pose proof (run_call_returns_bound _ _ _ _ Hrun) as Hbind.
  cbn [call_class call_kwargs] in Hbind.
  set (d := default VNone (kw !! "default")).
  assert (Hn : dict_merge (class_defaults σ NewCommand) kw !! "nargs" = Some (VInt n)).
  { rewrite <- Hnargs. apply merged_default. unfold σ.
    rewrite reached_entry; [done|not_in_list]. }
  assert (Hd0 : dict_merge (class_defaults σ NewCommand) kw !! "default" = Some d).
  { apply merged_default. unfold σ. rewrite reached_entry; [done|not_in_list]. }
  assert (Hod : is_opt_str d = true).
  { apply (typed_opt_str "default"); [in_list|].
    destruct (Hdok NewCommand) as [_ Hd].
    by apply (typed_dict_merge _ _ Hd Hty "default"). }
  assert (Hg : validate_latex_control_word nm = None ∧ 0 ≤ n ≤ 9).
  { destruct (new_NewCommand_cases σ p nm kw n Hdok Hty Hbind Hn)
      as [(e & He & _)|(? & ? & _ & Hg & Hr)].
    - cbn [run_call] in Hrun. rewrite He in Hrun. done.
    - split; [|done]. by apply validate_latex_control_word_None. }
  destruct Hg as [Hg Hr].
  destruct (new_NewCommand_valid σ p nm kw n d Hdok Hty Hbind Hg Hn Hr Hd0 Hod)
    as (σ1' & s0 & Hrun' & _ & Hpro).
  cbn [run_call] in Hrun. rewrite Hrun in Hrun'. injection Hrun' as <- _.
  change (new_NewCommand p nm kw σ) with (run_call (CallNewCommand p nm kw) σ)
    in Hrun.
  destruct (scope_after_call _ _ _ _ _ Hrun Hs) as (lo & _ & _ & Hget).
  assert (Hov : ∀ k, k ∈ ["prolog"; "epilog"; "delimiter"; "pipeline"; "initial_list"] →
                     call_overrides (CallNewCommand p nm kw) !! k = None).
  { intros k Hk. cbn. rewrite lookup_insert_ne; [by apply Hkw|].
    intros <-. revert Hk. not_in_list. }
  rewrite !Hget, !Hov by in_list. cbn [call_class]. split_and!.
  - rewrite (chain_get_class_own _ NewCommand "prolog" _ eq_refl Hpro).
    by rewrite NewCommand_prolog_spec.
  - apply (chain_get_class_own _ NewCommand "delimiter" (VStr NL) eq_refl).
    rewrite (called_entry _ _ _ _ NewCommand "delimiter" Hrun) by not_in_list.
    unfold σ. by rewrite reached_entry by not_in_list.
  - apply (chain_get_class_own _ NewCommand "epilog" (VStr (NL +:+ "}%")) eq_refl).
    rewrite (called_entry _ _ _ _ NewCommand "epilog" Hrun) by not_in_list.
    unfold σ. by rewrite reached_entry by not_in_list.
  - rewrite class_settings_NewCommand, !chain_get_cons.
    cbn [deref_mapping].
    rewrite !(called_entry _ _ _ _ _ "initial_list" Hrun) by not_in_list.
    unfold σ. by rewrite !reached_entry by not_in_list.
Qed.

Lemma run_ops_app os1 os2 σ : run_ops (os1 ++ os2) σ = run_ops os2 (run_ops os1 σ).
Proof. apply fold_left_app. Qed.

(** X23. A command definition inside an environment.  In a state a typed
    client has reached from the start, an [Environment] with a name of its
    grammar is created and given [xs]; a [NewCommand] with a name of its
    grammar and a number of arguments from 0 to 9 is created with the list
    of the environment as parent, filled with [ys] and closed; the
    environment is given [zs] and closed.  Neither call passes ['prolog'],
    ['epilog'], ['delimiter'], ['pipeline'] or ['initial_list'], nor a
    keyword argument with the name of a parameter of its initialiser.  The
    program returns, and the result of the environment is the one string
    [\begin{name}...%], then, each on a line of its own, the items [xs],
    the command definition from [\newcommand{\name}...{%] over the lines
    [ys] to [}%], and the items [zs], then [\end{name}%]. *)
Theorem command_inside_environment os p nP kwP nC kwC n xs ys zs :
  ops_ok os initial_state →
  call_ok (run_ops os initial_state) (CallEnvironment p nP kwP) →
  dict_ok (run_ops os initial_state) kwC →
  keywords_bind Environment kwP = true →
  keywords_bind NewCommand kwC = true →
  in_grammar letter environment_name_char nP →
  in_grammar letter control_word_char nC →
  (∀ k, k ∈ ["prolog"; "epilog"; "delimiter"; "pipeline"; "initial_list"] →
        kwP !! k = None ∧ kwC !! k = None) →
  default (VInt 0) (kwC !! "nargs") = VInt n → 0 ≤ n ≤ 9 →
  ∃ σ',
    build_nested (CallEnvironment p nP kwP) xs
      (λ l, CallNewCommand (Some l) nC kwC) ys zs (run_ops os initial_state)
    = (σ', inr ["\begin{" +:+ nP +:+ "}"
                +:+ marker_if_nonempty "[" "]" (default VNone (kwP !! "ops"))
                +:+ marker_if_nonempty "{" "}" (default VNone (kwP !! "args"))
                +:+ "%" +:+ NL
                +:+ str_join NL
                      (xs
                       ++ ["\newcommand{\" +:+ nC +:+ "}"
                           +:+ (if decide (0 < n) then "[" +:+ pretty n +:+ "]"
                                else "")
                           +:+ marker_if_supplied "[" "]"
                                 (default VNone (kwC !! "default"))
                           +:+ "{%" +:+ NL +:+ str_join NL ys +:+ NL +:+ "}%"]
                       ++ zs)
                +:+ NL +:+ "\end{" +:+ nP +:+ "}%"]).
Proof.
  intros Hos HcP HkwC HbP HbC HgP HgC Hkw Hnargs Hr.
  set (σ := run_ops os initial_state) in *.
  set (cP := CallEnvironment p nP kwP).
  set (child := λ l : lid, CallNewCommand (Some l) nC kwC).
  assert (Hok : state_ok σ) by (apply state_ok_run_ops; [apply state_ok_initial|done]).
  assert (HtyP : typed_dict kwP) by apply HcP.
  assert (HtyC : typed_dict kwC) by apply HkwC.
  (* the call of the environment returns *)
  assert (∃ σ1 i, run_call cP σ = (σ1, inr i)) as (σ1 & i & HrunP).
  { destruct (new_Environment_cases σ p nP kwP (defaults_ok_reached os) HtyP HbP)
      as [(e & _ & Hng)|(σ1 & i & Hrun & _)]; [done|by exists σ1, i]. }
  (* the state in which the command is created *)
  set (dP := length (lists σ)).
  set (os' := os ++ [OpCall cP; OpExtend dP xs]).
  assert (Hσ2 : run_op (OpExtend dP xs) σ1 = run_ops os' initial_state).
  { unfold os'. rewrite run_ops_app. fold σ.
    change (run_op (OpExtend dP xs) σ1
            = run_op (OpExtend dP xs) (run_call cP σ).1).
    by rewrite HrunP. }
  assert (∃ σ3 j, run_call (child dP) (run_ops os' initial_state) = (σ3, inr j))
    as (σ3 & j & HrunC).
  { assert (Hn : dict_merge (class_defaults (run_ops os' initial_state) NewCommand)
                   kwC !! "nargs" = Some (VInt n)).
    { rewrite <- Hnargs. apply merged_default.
      rewrite reached_entry; [done|not_in_list]. }
    destruct (new_NewCommand_cases (run_ops os' initial_state) (Some dP) nC kwC n
                (defaults_ok_reached os') HtyC HbC Hn)
      as [(e & _ & [Hng|Hout])|(σ3 & j & Hrun & _)];
      [done|lia|by exists σ3, j]. }
  destruct (nested_run σ cP child xs ys zs σ1 i σ3 j)
    as (sP & loP & proP & sepP & epiP & sC & loC & proC & sepC & epiC & σ'
        & (HsP & HloP & HproP & HsepP & HepiP)
        & (HsC & HloC & HproC & HsepC & HepiC) & Hb); try done.
  { cbn. in_list. }
  { cbn. in_list. }
  { apply (Hkw "pipeline"). in_list. }
  { apply (Hkw "pipeline"). in_list. }
  { change (run_call (child dP) (run_op (OpExtend dP xs) σ1) = (σ3, inr j)).
    by rewrite Hσ2. }
  destruct (Environment_resolves os p nP kwP σ1 i sP HtyP
              (λ k Hk, proj1 (Hkw k Hk)) HrunP HsP) as (EproP & EsepP & EepiP & EilP).
  destruct (NewCommand_resolves os' (Some dP) nC kwC n σ3 j sC HtyC
              (λ k Hk, proj2 (Hkw k Hk)) Hnargs HrunC HsC)
    as (EproC & EsepC & EepiC & EilC).
  destruct (scope_after_call _ _ _ _ _ HrunP HsP) as (loP' & HloP' & HilP & _).
  destruct (scope_after_call _ _ _ _ _ HrunC HsC) as (loC' & HloC' & HilC & _).
  rewrite HproP in EproP. rewrite HsepP in EsepP. rewrite HepiP in EepiP.
  rewrite HproC in EproC. rewrite HsepC in EsepC. rewrite HepiC in EepiC.
  rewrite HilP in EilP. rewrite HilC in EilC.
  rewrite HloP in HloP'. rewrite HloC in HloC'.
  simplify_eq. exists σ'. rewrite Hb.
  replace (items loP') with (@nil string) by congruence.
  replace (items loC') with (@nil string) by congruence.
  cbn [app]. by rewrite !append_assoc.
Qed.

Lemma command_inside_environment_witness :
  ∃ σ',
    build_nested (CallEnvironment None "document" ∅) []
      (λ l, CallNewCommand (Some l) "greet" (<["nargs" := VInt 1]> ∅))
      ["\textbf{Hello, #1!}"] ["\greet{World}"] (run_ops [] initial_state)
    = (σ', inr ["\begin{" +:+ "document" +:+ "}"
                +:+ marker_if_nonempty "[" "]"
                      (default VNone ((∅ : dict) !! "ops"))
                +:+ marker_if_nonempty "{" "}"
                      (default VNone ((∅ : dict) !! "args"))
                +:+ "%" +:+ NL
                +:+ str_join NL
                      ([]
                       ++ ["\newcommand{\" +:+ "greet" +:+ "}"
                           +:+ (if decide (0 < 1) then "[" +:+ pretty 1 +:+ "]"
                                else "")
                           +:+ marker_if_supplied "[" "]"
                                 (default VNone
                                    ((<["nargs" := VInt 1]> ∅ : dict) !! "default"))
                           +:+ "{%" +:+ NL
                           +:+ str_join NL ["\textbf{Hello, #1!}"] +:+ NL +:+ "}%"]
                       ++ ["\greet{World}"])
                +:+ NL +:+ "\end{" +:+ "document" +:+ "}%"]).
Proof.
  apply (command_inside_environment [] None "document" ∅ "greet"
           (<["nargs" := VInt 1]> ∅) 1 [] ["\textbf{Hello, #1!}"]
           ["\greet{World}"]).
  - done.
  - by apply call_ok_intro; [apply dict_ok_empty|].
  - by apply dict_ok_insert; [..|apply dict_ok_empty].
  - reflexivity.
  - reflexivity.
  - by apply fullmatch_first_rest.
  - by apply fullmatch_first_rest.
  - intros k Hk. split; [apply lookup_empty|].
    rewrite lookup_insert_ne; [apply lookup_empty|].
    intros <-. revert Hk. not_in_list.
  - reflexivity.
  - lia.
Defined.

(** ** A scope inside a scope of its own class *)

Lemma nested_same_class σ cP child xs ys zs σ1 i σ3 j :
  state_ok σ → call_ok σ cP →
  dict_ok σ (call_kwargs (child (length (lists σ)))) →
  call_parent (child (length (lists σ))) = Some (length (lists σ)) →
  DocumentPart ∈ mro (call_class (child (length (lists σ)))) →
  call_kwargs cP !! "pipeline" = None →
  call_kwargs (child (length (lists σ))) !! "pipeline" = None →
  call_class (child (length (lists σ))) = call_class cP →
  run_call cP σ = (σ1, inr i) →
  run_call (child (length (lists σ)))
    (run_op (OpExtend (length (lists σ)) xs) σ1) = (σ3, inr j) →
  ∃ sP loP sC loC proC sepC epiC σ',
    (scopes σ1 !! i = Some sP ∧ lists σ1 !! data sP = Some loP)
    ∧ (scopes σ3 !! j = Some sC ∧ lists σ3 !! data sC = Some loC
       ∧ chain_get (class_defaults σ3) (settings sC) "prolog" = inr (VStr proC)
       ∧ chain_get (class_defaults σ3) (settings sC) "delimiter" = inr (VStr sepC)
       ∧ chain_get (class_defaults σ3) (settings sC) "epilog" = inr (VStr epiC))
    ∧ build_nested cP xs child ys zs σ
      = (σ', inr [proC
                  +:+ str_join sepC
                        (items loP ++ xs
                         ++ [proC +:+ str_join sepC (items loC ++ ys) +:+ epiC]
                         ++ zs)
                  +:+ epiC]).
Proof.
  intros Hok HcP HkwC HparC HDC HplP HplC Hcls HrunP HrunC.
  destruct (nested_core σ cP child xs ys zs σ1 i σ3 j Hok HcP HkwC HparC HDC HplC
              HrunP HrunC)
    as (sP & loP & sC & loC & proC & sepC & epiC & σ'
        & (HsP & HloP & Hok1) & (HsC & HloC & HproC & HsepC & HepiC)
        & HsP3 & _ & _ & Hpipe & Hbuild).
  destruct (scope_after_call _ _ _ _ _ HrunP HsP) as (_ & _ & _ & HgetP).
  exists sP, loP, sC, loC, proC, sepC, epiC, σ'. split_and!; try done.
  apply (Hbuild j sC); try done.
  rewrite HgetP.
  assert (call_overrides cP !! "pipeline" = None) as ->.
  { destruct cP; cbn in *; rewrite ?lookup_insert_ne; done. }
  apply chain_get_class_own; [apply declares_call_class|]. by rewrite <- Hcls.
Qed.

(** X24. A scope inside a scope of its own class.  The same program as
    before, with an inner scope of the class of the outer one and no
    ['pipeline'] in either call: the result of the outer scope is one
    string, wrapped in the prefix and the suffix of the inner scope and
    joined by the delimiter of the inner scope.  What the outer scope was
    created with, its name and its own ['prolog'], ['epilog'] and
    ['delimiter'], is not in the result. *)
Theorem nesting_in_the_same_class σ cP child xs ys zs σ1 i σ3 j :
  state_ok σ → call_ok σ cP →
  dict_ok σ (call_kwargs (child (length (lists σ)))) →
  call_parent (child (length (lists σ))) = Some (length (lists σ)) →
  DocumentPart ∈ mro (call_class (child (length (lists σ)))) →
  call_kwargs cP !! "pipeline" = None →
  call_kwargs (child (length (lists σ))) !! "pipeline" = None →
  call_class (child (length (lists σ))) = call_class cP →
  run_call cP σ = (σ1, inr i) →
  run_call (child (length (lists σ)))
    (run_op (OpExtend (length (lists σ)) xs) σ1) = (σ3, inr j) →
  ∃ sP loP sC loC proC sepC epiC σ',
    (scopes σ1 !! i = Some sP ∧ lists σ1 !! data sP = Some loP)
    ∧ (scopes σ3 !! j = Some sC ∧ lists σ3 !! data sC = Some loC
       ∧ chain_get (class_defaults σ3) (settings sC) "prolog" = inr (VStr proC)
       ∧ chain_get (class_defaults σ3) (settings sC) "delimiter" = inr (VStr sepC)
       ∧ chain_get (class_defaults σ3) (settings sC) "epilog" = inr (VStr epiC))
    ∧ build_nested cP xs child ys zs σ
      = (σ', inr [proC
                  +:+ str_join sepC
                        (items loP ++ xs
                         ++ [proC +:+ str_join sepC (items loC ++ ys) +:+ epiC]
                         ++ zs)
                  +:+ epiC]).
Proof. apply nested_same_class. Qed.

Lemma nesting_in_the_same_class_witness :
  ∃ sP loP sC loC proC sepC epiC σ',
    (scopes demo_document_state !! 0%nat = Some sP
     ∧ lists demo_document_state !! data sP = Some loP)
    ∧ (scopes (run_call (CallEnvironment (Some 0%nat) "itemize"
                           (<["delimiter" := VStr " "]> ∅))
                 (run_op (OpExtend 0%nat ["% a"]) demo_document_state)).1
         !! 1%nat = Some sC
       ∧ lists (run_call (CallEnvironment (Some 0%nat) "itemize"
                            (<["delimiter" := VStr " "]> ∅))
                  (run_op (OpExtend 0%nat ["% a"]) demo_document_state)).1
           !! data sC = Some loC
       ∧ chain_get
           (class_defaults
              (run_call (CallEnvironment (Some 0%nat) "itemize"
                           (<["delimiter" := VStr " "]> ∅))
                 (run_op (OpExtend 0%nat ["% a"]) demo_document_state)).1)
           (settings sC) "prolog" = inr (VStr proC)
       ∧ chain_get
           (class_defaults
              (run_call (CallEnvironment (Some 0%nat) "itemize"
                           (<["delimiter" := VStr " "]> ∅))
                 (run_op (OpExtend 0%nat ["% a"]) demo_document_state)).1)
           (settings sC) "delimiter" = inr (VStr sepC)
       ∧ chain_get
           (class_defaults
              (run_call (CallEnvironment (Some 0%nat) "itemize"
                           (<["delimiter" := VStr " "]> ∅))
                 (run_op (OpExtend 0%nat ["% a"]) demo_document_state)).1)
           (settings sC) "epilog" = inr (VStr epiC))
    ∧ build_nested (CallEnvironment None "document" ∅) ["% a"]
        (λ l, CallEnvironment (Some l) "itemize" (<["delimiter" := VStr " "]> ∅))
        ["\item x"; "\item y"] ["% b"] initial_state
      = (σ', inr [proC
                  +:+ str_join sepC
                        (items loP ++ ["% a"]
                         ++ [proC
                             +:+ str_join sepC (items loC ++ ["\item x"; "\item y"])
                             +:+ epiC]
                         ++ ["% b"])
                  +:+ epiC]).
Proof.
  apply (nesting_in_the_same_class initial_state
           (CallEnvironment None "document" ∅)
           (λ l, CallEnvironment (Some l) "itemize" (<["delimiter" := VStr " "]> ∅))
           ["% a"] ["\item x"; "\item y"] ["% b"]
           demo_document_state 0%nat
           (run_call (CallEnvironment (Some 0%nat) "itemize"
                        (<["delimiter" := VStr " "]> ∅))
              (run_op (OpExtend 0%nat ["% a"]) demo_document_state)).1
           1%nat).
  - apply state_ok_initial.
  - by apply call_ok_intro; [apply dict_ok_empty|].
  - by apply dict_ok_insert; [..|apply dict_ok_empty].
  - reflexivity.
  - cbn. in_list.
  - reflexivity.
  - reflexivity.
  - reflexivity.
  - reflexivity.
  - reflexivity.
Defined.

(** The same program, computed: no [document] in the result, and the
    delimiter given to the inner scope between the items of the outer
    one. *)
Example nested_in_the_same_class_rendered :
  (build_nested (CallEnvironment None "document" ∅) ["% a"]
     (λ l, CallEnvironment (Some l) "itemize" (<["delimiter" := VStr " "]> ∅))
     ["\item x"; "\item y"] ["% b"] initial_state).2
  = inr ["\begin{itemize}%" +:+ NL +:+ "% a" +:+ " "
         +:+ "\begin{itemize}%" +:+ NL +:+ "\item x" +:+ " " +:+ "\item y" +:+ NL
         +:+ "\end{itemize}%" +:+ " " +:+ "% b" +:+ NL +:+ "\end{itemize}%"].
Proof. reflexivity. Qed.

(** X25. An environment inside an environment.  In a state a typed client
    has reached from the start, an [Environment] is created and given
    [xs]; a second [Environment] is created with the list of the first as
    parent, filled with [ys] and closed; the first is given [zs] and
    closed.  Both names are of the grammar and neither call passes
    ['prolog'], ['epilog'], ['delimiter'], ['pipeline'] or
    ['initial_list'], nor a keyword argument with the name of a parameter
    of the initialiser.  The program returns, and the result of the outer
    environment is one string that begins with [\begin] and ends with
    [\end] of the inner name, with the options and arguments of the inner
    call: the name, the options and the arguments of the outer call are
    not in it. *)
Theorem environment_inside_environment os p nP kwP nC kwC xs ys zs :
  ops_ok os initial_state →
  call_ok (run_ops os initial_state) (CallEnvironment p nP kwP) →
  dict_ok (run_ops os initial_state) kwC →
  keywords_bind Environment kwP = true →
  keywords_bind Environment kwC = true →
  in_grammar letter environment_name_char nP →
  in_grammar letter environment_name_char nC →
  (∀ k, k ∈ ["prolog"; "epilog"; "delimiter"; "pipeline"; "initial_list"] →
        kwP !! k = None ∧ kwC !! k = None) →
  ∃ σ',
    build_nested (CallEnvironment p nP kwP) xs
      (λ l, CallEnvironment (Some l) nC kwC) ys zs (run_ops os initial_state)
    = (σ', inr ["\begin{" +:+ nC +:+ "}"
                +:+ marker_if_nonempty "[" "]" (default VNone (kwC !! "ops"))
                +:+ marker_if_nonempty "{" "}" (default VNone (kwC !! "args"))
                +:+ "%" +:+ NL
                +:+ str_join NL
                      (xs
                       ++ ["\begin{" +:+ nC +:+ "}"
                           +:+ marker_if_nonempty "[" "]"
                                 (default VNone (kwC !! "ops"))
                           +:+ marker_if_nonempty "{" "}"
                                 (default VNone (kwC !! "args"))
                           +:+ "%" +:+ NL +:+ str_join NL ys +:+ NL
                           +:+ "\end{" +:+ nC +:+ "}%"]
                       ++ zs)
                +:+ NL +:+ "\end{" +:+ nC +:+ "}%"]).
Proof.
  intros Hos HcP HkwC HbP HbC HgP HgC Hkw.
  set (σ := run_ops os initial_state) in *.
  set (cP := CallEnvironment p nP kwP).
  set (child := λ l : lid, CallEnvironment (Some l) nC kwC).
  assert (Hok : state_ok σ) by (apply state_ok_run_ops; [apply state_ok_initial|done]).
  assert (HtyP : typed_dict kwP) by apply HcP.
  assert (HtyC : typed_dict kwC) by apply HkwC.
  assert (∃ σ1 i, run_call cP σ = (σ1, inr i)) as (σ1 & i & HrunP).
  { destruct (new_Environment_cases σ p nP kwP (defaults_ok_reached os) HtyP HbP)
      as [(e & _ & Hng)|(σ1 & i & Hrun & _)]; [done|by exists σ1, i]. }
  set (dP := length (lists σ)).
  set (os' := os ++ [OpCall cP; OpExtend dP xs]).
  assert (Hσ2 : run_op (OpExtend dP xs) σ1 = run_ops os' initial_state).
  { unfold os'. rewrite run_ops_app. fold σ.
    change (run_op (OpExtend dP xs) σ1
            = run_op (OpExtend dP xs) (run_call cP σ).1).
    by rewrite HrunP. }
  assert (∃ σ3 j, run_call (child dP) (run_ops os' initial_state) = (σ3, inr j))
    as (σ3 & j & HrunC).
  { destruct (new_Environment_cases (run_ops os' initial_state) (Some dP) nC kwC
                (defaults_ok_reached os') HtyC HbC)
      as [(e & _ & Hng)|(σ3 & j & Hrun & _)]; [done|by exists σ3, j]. }
  destruct (nested_same_class σ cP child xs ys zs σ1 i σ3 j)
    as (sP & loP & sC & loC & proC & sepC & epiC & σ'
        & (HsP & HloP) & (HsC & HloC & HproC & HsepC & HepiC) & Hb); try done.
  { cbn. in_list. }
  { apply (Hkw "pipeline"). in_list. }
  { apply (Hkw "pipeline"). in_list. }
  { change (run_call (child dP) (run_op (OpExtend dP xs) σ1) = (σ3, inr j)).
    by rewrite Hσ2. }
  destruct (Environment_resolves os p nP kwP σ1 i sP HtyP
              (λ k Hk, proj1 (Hkw k Hk)) HrunP HsP) as (_ & _ & _ & EilP).
  destruct (Environment_resolves os' (Some dP) nC kwC σ3 j sC HtyC
              (λ k Hk, proj2 (Hkw k Hk)) HrunC HsC)
    as (EproC & EsepC & EepiC & EilC).
  destruct (scope_after_call _ _ _ _ _ HrunP HsP) as (loP' & HloP' & HilP & _).
  destruct (scope_after_call _ _ _ _ _ HrunC HsC) as (loC' & HloC' & HilC & _).
  rewrite HproC in EproC. rewrite HsepC in EsepC. rewrite HepiC in EepiC.
  rewrite HilP in EilP. rewrite HilC in EilC.
  rewrite HloP in HloP'. rewrite HloC in HloC'.
  simplify_eq. exists σ'. rewrite Hb.
  replace (items loP') with (@nil string) by congruence.
  replace (items loC') with (@nil string) by congruence.
  cbn [app]. by rewrite !append_assoc.
Qed.

Lemma environment_inside_environment_witness :
  ∃ σ',
    build_nested (CallEnvironment None "document" ∅) ["% a"]
      (λ l, CallEnvironment (Some l) "itemize" ∅) ["\item x"] ["% b"]
      (run_ops [] initial_state)
    = (σ', inr ["\begin{" +:+ "itemize" +:+ "}"
                +:+ marker_if_nonempty "[" "]" (default VNone ((∅ : dict) !! "ops"))
                +:+ marker_if_nonempty "{" "}" (default VNone ((∅ : dict) !! "args"))
                +:+ "%" +:+ NL
                +:+ str_join NL
                      (["% a"]
                       ++ ["\begin{" +:+ "itemize" +:+ "}"
                           +:+ marker_if_nonempty "[" "]"
                                 (default VNone ((∅ : dict) !! "ops"))
                           +:+ marker_if_nonempty "{" "}"
                                 (default VNone ((∅ : dict) !! "args"))
                           +:+ "%" +:+ NL +:+ str_join NL ["\item x"] +:+ NL
                           +:+ "\end{" +:+ "itemize" +:+ "}%"]
                       ++ ["% b"])
                +:+ NL +:+ "\end{" +:+ "itemize" +:+ "}%"]).
Proof.
  apply (environment_inside_environment [] None "document" ∅ "itemize" ∅
           ["% a"] ["\item x"] ["% b"]).
  - done.
  - by apply call_ok_intro; [apply dict_ok_empty|].
  - apply dict_ok_empty.
  - reflexivity.
  - reflexivity.
  - by apply fullmatch_first_rest.
  - by apply fullmatch_first_rest.
  - intros k Hk. split; apply lookup_empty.
Defined.

(** ** A plain scope inside a plain scope *)

Lemma with_child_plain (cm : M iid) σ2 σ3 j sC p loC po ys :
  cm σ2 = (σ3, inr j) →
  state_ok σ3 →
  scopes σ3 !! j = Some sC → _parent sC = Some p → p ≠ data sC →
  lists σ3 !! data sC = Some loC → lists σ3 !! p = Some po →
  chain_get (class_defaults σ3) (settings sC) "pipeline" = inr (VPipeline []) →
  ∃ σ5,
    with_ cm (λ m, extend m ys) σ2 = (σ5, inr ())
    ∧ state_ok σ5
    ∧ class_defaults σ5 = class_defaults σ3
    ∧ lists σ5 !! p = Some (with_items_added po (items loC ++ ys))
    ∧ (∀ i, i ≠ j → scopes σ5 !! i = scopes σ3 !! i).
Proof.
  intros Hcm Hok Hs Hp Hne HloC Hpo Hpipe.
  destruct (extend_facts (data sC) ys σ3 loC HloC)
    as (σ4 & Hext & Hsc4 & Hcd4 & Hlo4 & Hoth4 & Hlen4).
  assert (Hok4 : state_ok σ4).
  { pose proof (state_ok_extend (data sC) ys σ3 Hok) as H. by rewrite Hext in H. }
  assert (Hs4 : scopes σ4 !! j = Some sC) by (by rewrite Hsc4).
  assert (Hr : run_pipeline j (Obj (data sC)) σ4 = (σ4, inr (Obj (data sC)))).
  { apply (run_pipeline_empty j sC); [done|]. by rewrite Hcd4. }
  assert (Hys : contents σ4 (Obj (data sC)) = inr (items loC ++ ys)).
  { cbn. by rewrite Hlo4. }
  assert (Hpo4 : lists σ4 !! p = Some po) by (by rewrite Hoth4).
  pose proof (Assemblable_exit_parent j None σ4 sC p _ _ po Hs4 Hp Hr Hys Hpo4)
    as Hexit.
  eexists. split_and!.
  - exact (with_run cm (λ m, extend m ys) σ2 σ3 j sC p σ4 (inr ()) _ _ po
             Hcm Hs Hp Hext Hs4 Hr Hys Hpo4).
  - pose proof (state_ok_exit j None σ4 Hok4) as H. by rewrite Hexit in H.
  - by cbn.
  - cbn. apply list_lookup_insert_eq. by eapply lookup_lt_Some.
  - intros i Hi. cbn. rewrite list_lookup_insert_ne by done. by rewrite Hsc4.
Qed.

(** What a new [Assemblable] resolves without the two options. *)
Lemma Assemblable_resolves p kw σ σ1 i s :
  state_ok σ →
  kw !! "pipeline" = None → kw !! "initial_list" = None →
  run_call (CallAssemblable p kw) σ = (σ1, inr i) →
  scopes σ1 !! i = Some s →
  class_defaults σ1 = class_defaults σ
  ∧ (∀ defs, defs Assemblable = class_defaults σ Assemblable →
             chain_get defs (settings s) "pipeline" = inr (VPipeline []))
  ∧ ∃ lo, lists σ1 !! data s = Some lo ∧ items lo = [].
Proof.
  intros Hok Hpl Hil Hrun Hs.
  destruct (scope_after_call _ _ _ _ _ Hrun Hs) as (lo & Hlo & Hinit & Hget).
  pose proof Hrun as Hrs.
  apply run_call_returns_state in Hrs
    as (_ & _ & _ & _ & _ & _ & _ & _ & _ & _ & _ & _ & _ & HA & _).
  specialize (HA eq_refl).
  destruct (proj1 Hok Assemblable) as [Hsub _].
  assert (Hdecl : ∀ k v, declared_defaults Assemblable !! k = Some v →
                         class_defaults σ Assemblable !! k = Some v).
  { intros k v Hk. by apply (lookup_weaken _ _ _ _ Hk Hsub). }
  split_and!; [done| |].
  - intros defs Hdefs. rewrite Hget. cbn [call_overrides call_class]. rewrite Hpl.
    apply chain_get_class_own; [done|]. rewrite Hdefs. by apply Hdecl.
  - exists lo. split; [done|].
    rewrite Hget in Hinit. cbn [call_overrides call_class] in Hinit.
    rewrite Hil in Hinit.
    rewrite (chain_get_class_own _ Assemblable "initial_list" (VList []) eq_refl)
      in Hinit; [by injection Hinit|].
    rewrite HA. by apply Hdecl.
Qed.

(** X26. Plain scopes flatten.  The program of the example at the head of
    [assemblable.py]: an [Assemblable] is created and given [xs]; a second
    one is created with the list of the first as parent, filled with [ys]
    and closed; the first is given [zs] and closed.  In a state in order,
    with typed options, neither ['pipeline'] nor ['initial_list'] among
    them and no keyword argument named [self] or [parent], the program
    returns and the result of the outer scope holds the
    items of [xs], then those of [ys], then those of [zs]: the items of the
    inner scope are added one by one, not as one item. *)
Theorem plain_scopes_flatten σ pP kwP kwC xs ys zs :
  state_ok σ → call_ok σ (CallAssemblable pP kwP) → dict_ok σ kwC →
  keywords_bind Assemblable kwP = true →
  keywords_bind Assemblable kwC = true →
  (∀ k, k ∈ ["pipeline"; "initial_list"] → kwP !! k = None ∧ kwC !! k = None) →
  ∃ σ',
    build_nested (CallAssemblable pP kwP) xs
      (λ l, CallAssemblable (Some l) kwC) ys zs σ
    = (σ', inr (xs ++ ys ++ zs)).
Proof.
  intros Hok HcP HkwC HbP HbC Hkw.
  set (cP := CallAssemblable pP kwP). set (dP := length (lists σ)).
  set (cC := CallAssemblable (Some dP) kwC).
  (* the outer scope *)
  destruct (new_Assemblable_returns σ pP kwP (state_ok_defaults_ok σ Hok))
    as (σ1 & i & HrunP); [apply HcP|done|].
  change (new_Assemblable pP kwP σ) with (run_call cP σ) in HrunP.
  assert (Hok1 : state_ok σ1).
  { pose proof (state_ok_call cP σ Hok HcP) as H. by rewrite HrunP in H. }
  pose proof HrunP as HrsP.
  apply run_call_returns_state in HrsP
    as (sP & loP0 & Hi & HscP & HliP & _ & _ & _ & HdP & _).
  assert (HsP : scopes σ1 !! i = Some sP)
    by (rewrite Hi, HscP; by apply list_lookup_middle).
  destruct (Assemblable_resolves pP kwP σ σ1 i sP Hok
              (proj1 (Hkw "pipeline" ltac:(in_list)))
              (proj1 (Hkw "initial_list" ltac:(in_list))) HrunP HsP)
    as (Hcd1 & HpipeP & loP & HloP & HitP).
  rewrite HdP in HloP. fold dP in HloP.
  (* the first items *)
  destruct (extend_facts dP xs σ1 loP HloP)
    as (σ2 & Hext2 & Hsc2 & Hcd2 & Hlo2 & Hoth2 & Hlen2).
  assert (Hok2 : state_ok σ2).
  { pose proof (state_ok_extend dP xs σ1 Hok1) as H. by rewrite Hext2 in H. }
  (* the inner scope *)
  assert (HcC : call_ok σ2 cC).
  { split.
    - apply (dict_ok_mono σ); [|done]. intros k s Hk. exists s. split; [|done].
      rewrite Hsc2, HscP. by apply lookup_app_l_Some.
    - intros p [= <-]. rewrite Hlen2. by eapply lookup_lt_Some. }
  destruct (new_Assemblable_returns σ2 (Some dP) kwC (state_ok_defaults_ok σ2 Hok2))
    as (σ3 & j & HrunC); [apply HkwC|done|].
  change (new_Assemblable (Some dP) kwC σ2) with (run_call cC σ2) in HrunC.
  assert (Hok3 : state_ok σ3).
  { pose proof (state_ok_call cC σ2 Hok2 HcC) as H. by rewrite HrunC in H. }
  pose proof HrunC as HrsC.
  apply run_call_returns_state in HrsC
    as (sC & loC0 & Hj & HscC & HliC & _ & HpC & _ & HdC & _).
  assert (HsC : scopes σ3 !! j = Some sC)
    by (rewrite Hj, HscC; by apply list_lookup_middle).
  destruct (Assemblable_resolves (Some dP) kwC σ2 σ3 j sC Hok2
              (proj2 (Hkw "pipeline" ltac:(in_list)))
              (proj2 (Hkw "initial_list" ltac:(in_list))) HrunC HsC)
    as (Hcd3 & HpipeC & loC & HloC & HitC).
  assert (Hlt : (dP < length (lists σ2))%nat)
    by (rewrite Hlen2; by eapply lookup_lt_Some).
  assert (Hne : dP ≠ data sC) by (rewrite HdC; lia).
  assert (Hpo3 : lists σ3 !! dP = Some (with_items_added loP xs)).
  { rewrite HliC. by apply lookup_app_l_Some. }
  destruct (with_child_plain (run_call cC) σ2 σ3 j sC dP loC _ ys
              HrunC Hok3 HsC HpC Hne HloC Hpo3)
    as (σ5 & Hwith5 & Hok5 & Hcd5 & Hlo5 & Hsc5).
  { apply HpipeC. by rewrite Hcd3. }
  (* the last items *)
  destruct (extend_facts dP zs σ5 _ Hlo5)
    as (σ6 & Hext6 & Hsc6 & Hcd6 & Hlo6 & _ & _).
  assert (Hok6 : state_ok σ6).
  { pose proof (state_ok_extend dP zs σ5 Hok5) as H. by rewrite Hext6 in H. }
  assert (Hbody : (extend (data sP) xs;;
                   with_ (run_call (CallAssemblable (Some (data sP)) kwC))
                     (λ m, extend m ys);;
                   extend (data sP) zs) σ1 = (σ6, inr ())).
  { rewrite HdP. fold dP. fold cC.
    rewrite (bind_inr _ _ _ _ _ Hext2). by rewrite (bind_inr _ _ _ _ _ Hwith5). }
  assert (Hij : i ≠ j).
  { rewrite Hi, Hj, Hsc2, HscP, length_app. cbn. lia. }
  assert (HsP6 : scopes σ6 !! i = Some sP).
  { rewrite Hsc6, Hsc5 by done. rewrite HscC, Hsc2. by apply lookup_app_l_Some. }
  destruct (with_existing σ1 i sP
              (λ l, extend l xs;;
                    with_ (run_call (CallAssemblable (Some l) kwC))
                      (λ m, extend m ys);;
                    extend l zs) σ6 (inr ()) HsP Hbody HsP6 Hok6)
    as (σ7 & r & Hwith7 & Hexit & Hr & Hres).
  rewrite (run_pipeline_empty i sP (Obj (data sP)) σ6 HsP6) in Hr.
  2: { apply HpipeP. by rewrite Hcd6, Hcd5, Hcd3, Hcd2, Hcd1. }
  injection Hr as <-.
  (* the list of the outer scope after it is closed *)
  assert (Hlo7 : lists σ7 !! dP
                 = Some (with_items_added
                           (with_items_added (with_items_added loP xs)
                              (items loC ++ ys)) zs)).
  { assert (Hrp : run_pipeline i (Obj (data sP)) σ6 = (σ6, inr (Obj (data sP)))).
    { apply (run_pipeline_empty i sP); [done|].
      apply HpipeP. by rewrite Hcd6, Hcd5, Hcd3, Hcd2, Hcd1. }
    destruct (_parent sP) as [p|] eqn:Hp.
    - destruct (proj2 Hok6 i sP HsP6) as (_ & _ & _ & Hpar).
      destruct (Hpar p Hp) as [Hplt Hpne].
      apply lookup_lt_is_Some in Hplt as [po Hpo].
      rewrite (Assemblable_exit_parent i None σ6 sP p (Obj (data sP))
                 (items (with_items_added
                           (with_items_added (with_items_added loP xs)
                              (items loC ++ ys)) zs)) po HsP6 Hp Hrp) in Hexit;
        [|unfold contents; rewrite HdP; fold dP; by rewrite Hlo6|done].
      injection Hexit as <-. cbn.
      rewrite list_lookup_insert_ne; [done|]. unfold dP. by rewrite <- HdP.
    - rewrite (Assemblable_exit_orphan i None σ6 sP (Obj (data sP)) HsP6 Hp Hrp)
        in Hexit.
      injection Hexit as <-. done. }
  exists σ7. unfold build_nested. rewrite (bind_inr _ _ _ _ _ HrunP).
  rewrite (bind_inr _ _ _ _ _ Hwith7).
  unfold result_items. rewrite (bind_inr _ _ _ _ _ Hres).
  unfold reading, contents. rewrite HdP. fold dP. rewrite Hlo7. cbn.
  rewrite HitP, HitC. cbn. by rewrite <- !app_assoc.
Qed.

Lemma plain_scopes_flatten_witness :
  ∃ σ',
    build_nested (CallAssemblable None ∅) ["a"; "b"; "c"]
      (λ l, CallAssemblable (Some l) ∅) ["d"; "e"] [] initial_state
    = (σ', inr (["a"; "b"; "c"] ++ ["d"; "e"] ++ [])).
Proof.
  apply (plain_scopes_flatten initial_state None ∅ ∅ ["a"; "b"; "c"] ["d"; "e"] []).
  - apply state_ok_initial.
  - by apply call_ok_intro; [apply dict_ok_empty|].
  - apply dict_ok_empty.
  - reflexivity.
  - reflexivity.
  - intros k Hk. split; apply lookup_empty.
Defined.

(** The example of the module, computed. *)
Example module_example :
  (build_nested (CallAssemblable None ∅) ["a"; "b"; "c"]
     (λ l, CallAssemblable (Some l) ∅) ["d"; "e"] [] initial_state).2
  = inr ["a"; "b"; "c"; "d"; "e"].
Proof. reflexivity. Qed.
